(** * Scholar Pulse Metrics: record reconciliation and RIM scoring

    A shallow embedding of [streamlit/app.py].  Python values that come out
    of the JSON payloads are represented by the type [pyval]; a Python
    exception is the [Raise] constructor of [res]; the HTTP transport is an
    oracle from requests to responses, and every request issued is recorded
    in a log so that "was this lookup attempted" is a property of the run.
    Python floats are represented by exact rationals. *)

From Stdlib Require Import ZArith QArith Qround Qminmax Lqa Lia.
From Stdlib Require Import Bool List String Ascii.
Import ListNotations.

Local Open Scope string_scope.
Local Open Scope Z_scope.

(* ------------------------------------------------------------------ *)
(** ** Python values *)

#[local] Set Warnings "-register-all".

Inductive pyval : Type :=
| PNone
| PBool (b : bool)
| PInt (z : Z)
| PFloat (q : Q)
| PStr (s : string)
| PList (l : list pyval)
| PDict (d : list (string * pyval)).

(** The outcome of evaluating a Python expression: a value or an exception. *)
Inductive res (A : Type) : Type :=
| Ok (a : A)
| Raise.
Arguments Ok {A} a.
Arguments Raise {A}.

Definition rbind {A B} (m : res A) (f : A -> res B) : res B :=
  match m with
  | Ok a => f a
  | Raise => Raise
  end.

(** [bool(v)] / the truth value used by [if v], [not v], [a or b]. *)
Definition truthy (v : pyval) : bool :=
  match v with
  | PNone => false
  | PBool b => b
  | PInt z => negb (z =? 0)
  | PFloat q => negb (Qeq_bool q 0)
  | PStr s => negb (String.eqb s "")
  | PList l => match l with [] => false | _ => true end
  | PDict d => match d with [] => false | _ => true end
  end.

(** [a or b] *)
Definition py_or (a b : pyval) : pyval := if truthy a then a else b.

Fixpoint assoc (k : string) (d : list (string * pyval)) : option pyval :=
  match d with
  | [] => None
  | (k', v) :: d' => if String.eqb k k' then Some v else assoc k d'
  end.

(** [v.get(k, dflt)]: only dictionaries have the method. *)
Definition py_get (v : pyval) (k : string) (dflt : pyval) : res pyval :=
  match v with
  | PDict d => Ok (match assoc k d with Some x => x | None => dflt end)
  | _ => Raise
  end.

(** [v[0]] *)
Definition py_item0 (v : pyval) : res pyval :=
  match v with
  | PList (x :: _) => Ok x
  | PStr (String c _) => Ok (PStr (String c ""))
  | _ => Raise
  end.

(** [len(v)] *)
Definition py_len (v : pyval) : res Z :=
  match v with
  | PList l => Ok (Z.of_nat (List.length l))
  | PStr s => Ok (Z.of_nat (String.length s))
  | PDict d => Ok (Z.of_nat (List.length d))
  | _ => Raise
  end.

(** The items visited by [for x in v]. *)
Definition py_iter (v : pyval) : res (list pyval) :=
  match v with
  | PList l => Ok l
  | PStr s => Ok (map (fun c => PStr (String c "")) (list_ascii_of_string s))
  | PDict d => Ok (map (fun kv => PStr (fst kv)) d)
  | _ => Raise
  end.

(* ------------------------------------------------------------------ *)
(** ** Strings: character classes, [strip], [int(str)] *)

(** Strings are sequences of code points below 256. *)
Definition is_digit (c : ascii) : bool :=
  let n := nat_of_ascii c in (48 <=? n)%nat && (n <=? 57)%nat.

(** [str.isspace] on one character, which is also the class [\s]. *)
Definition is_space (c : ascii) : bool :=
  let n := nat_of_ascii c in
  ((9 <=? n)%nat && (n <=? 13)%nat) || ((28 <=? n)%nat && (n <=? 32)%nat)
  || (n =? 133)%nat || (n =? 160)%nat.

Fixpoint drop_while (p : ascii -> bool) (l : list ascii) : list ascii :=
  match l with
  | [] => []
  | c :: r => if p c then drop_while p r else l
  end.

Fixpoint take_while (p : ascii -> bool) (l : list ascii) : list ascii :=
  match l with
  | [] => []
  | c :: r => if p c then c :: take_while p r else []
  end.

(** [s.strip()] *)
Definition strip (s : string) : string :=
  string_of_list_ascii
    (rev (drop_while is_space (rev (drop_while is_space (list_ascii_of_string s))))).

(** [v.strip()]: a method of strings only. *)
Definition py_strip (v : pyval) : res string :=
  match v with
  | PStr s => Ok (strip s)
  | _ => Raise
  end.

Definition digit_val (c : ascii) : Z := Z.of_nat (nat_of_ascii c) - 48.

(** Decimal digits with single underscores between them. *)
Fixpoint parse_digits (acc : Z) (after_us : bool) (l : list ascii) : res Z :=
  match l with
  | [] => if after_us then Raise else Ok acc
  | c :: r =>
      if is_digit c then parse_digits (10 * acc + digit_val c) false r
      else if Ascii.eqb c "_" && negb after_us then parse_digits acc true r
      else Raise
  end.

Definition parse_unsigned (l : list ascii) : res Z :=
  match l with
  | c :: r => if is_digit c then parse_digits (digit_val c) false r else Raise
  | [] => Raise
  end.

(** The blanks that [int(s)] skips at both ends of a string.  The
    separators U+001C to U+001F, which [str.strip] removes, are not among
    them: the parser of integers skips the blanks of C only, and the blanks
    above U+007F are turned into spaces before it runs. *)
Definition is_int_space (c : ascii) : bool :=
  let n := nat_of_ascii c in
  ((9 <=? n)%nat && (n <=? 13)%nat) || (n =? 32)%nat
  || (n =? 133)%nat || (n =? 160)%nat.

(** [int(s)] for a string, base 10. *)
Definition int_of_string (s : string) : res Z :=
  match rev (drop_while is_int_space
               (rev (drop_while is_int_space (list_ascii_of_string s)))) with
  | c :: r =>
      if Ascii.eqb c "-" then rbind (parse_unsigned r) (fun z => Ok (- z))
      else if Ascii.eqb c "+" then parse_unsigned r
      else parse_unsigned (c :: r)
  | [] => Raise
  end.

(** [int(v)] *)
Definition py_int (v : pyval) : res Z :=
  match v with
  | PBool b => Ok (if b then 1 else 0)
  | PInt z => Ok z
  | PFloat q => Ok (Z.quot (Qnum q) (Zpos (Qden q)))
  | PStr s => int_of_string s
  | _ => Raise
  end.

(* ------------------------------------------------------------------ *)
(** ** Numbers: [round], [clip] *)

Local Open Scope Q_scope.

(** Round half to even, to an integer. *)
Definition round_half_even (y : Q) : Z :=
  let f := Qfloor y in
  match Qcompare (y - inject_Z f) (1 # 2) with
  | Lt => f
  | Gt => (f + 1)%Z
  | Eq => if Z.even f then f else (f + 1)%Z
  end.

(** [round(x, ndigits)] for [ndigits >= 0], on the exact value: the nearest
    multiple of [10^-ndigits], the even one at a tie.  Python rounds the
    binary float it holds: where that float is exact (0.125, 0.375) this is
    its result; a tie of the rational model at a value that no float holds
    (0.005, 31.665) is resolved in Python by the side on which the float
    lies, so there the result may be the other neighbour.  What is proved
    of rounded values below (bounds, monotonicity, the grid of the results,
    the distance to the argument) holds for either neighbour. *)
Definition py_round (x : Q) (ndigits : nat) : Q :=
  let s := inject_Z (10 ^ Z.of_nat ndigits) in
  inject_Z (round_half_even (x * s)) / s.

Definition Qlt_bool (a b : Q) : bool := negb (Qle_bool b a).

(** [Series.clip(lower, upper)] on one entry. *)
Definition clip (x lower upper : Q) : Q :=
  if Qlt_bool x lower then lower
  else if Qlt_bool upper x then upper
  else x.

(* ------------------------------------------------------------------ *)
(** ** Scoring engine *)

Inductive subscore : Type := sC | sJ | sD | sR | sF | sO | sP.

(** The [weights] dictionary of [compute_rim_with_logC]. *)
Definition weights (k : subscore) : Q :=
  match k with
  | sC => 25 # 100
  | sJ => 20 # 100
  | sD => 15 # 100
  | sR => 20 # 100
  | sF => 10 # 100
  | sO => 5 # 100
  | sP => 5 # 100
  end.

Definition weighted_sum (C J D R F O P : Q) : Q :=
  weights sC * C + weights sJ * J + weights sD * D + weights sR * R
  + weights sF * F + weights sO * O + weights sP * P.

(** [a / b] on floats: a zero divisor raises. *)
Definition py_div (a b : Q) : res Q :=
  if Qeq_bool b 0 then Raise else Ok (a / b).

(** One entry of [rows].  The display-only columns "Scholar Name" and
    "Affiliations" are not represented. *)
Record row : Type := mkRow {
  Title : pyval;
  Journal : pyval;
  Volume : pyval;
  Issue : pyval;
  Year : option Z;
  Num_Authors : Z;
  DOI : pyval;
  Citations : Z;
  CPY : Q;
  is_OA : bool;
  Funder_present : bool;
  Author_affil_completeness : Q;
  Is_Retracted : bool
}.

(** [float(b)] for a boolean. *)
Definition float_of_bool (b : bool) : Q := if b then 1 else 0.

(** [Series.max()] of a column without missing entries; [0.0] stands for
    the empty column. *)
Definition series_max (l : list Q) : Q :=
  match l with
  | [] => 0
  | x :: r => fold_left Qmax r x
  end.

Fixpoint mapM {A B} (f : A -> res B) (l : list A) : res (list B) :=
  match l with
  | [] => Ok []
  | a :: r => rbind (f a) (fun b => rbind (mapM f r) (fun bs => Ok (b :: bs)))
  end.

(** [df['Risk_Factor']] for one entry of [df['RIM']]. *)
Definition risk_factor (rim : Q) : Q := clip (1 - rim / 100) 0 1.

Section Scoring.

(** The reference year, read from the environment (2025 by default). *)
Variable CURRENT_YEAR : Z.

(** The values of [math.log1p] on its domain; outside it the call raises. *)
Variable log1p : Q -> Q.

Definition math_log1p (x : Q) : res Q :=
  if Qle_bool x (-1) then Raise else Ok (log1p x).

(** [compute_cpy(citations, year)]; [citations] is an integer or [None]. *)
Definition compute_cpy (citations : option Z) (year : pyval) : Q :=
  match citations with
  | None => 0
  | Some c =>
      if negb (truthy year) then 0
      else match py_int year with
           | Ok y =>
               let yrs := Z.max 1 (CURRENT_YEAR - y + 1) in
               inject_Z c / inject_Z yrs
           | Raise => 0
           end
  end.

(** The log-normalised citation component computed at the head of
    [compute_rim_with_logC]. *)
Definition logC (cpy max_cpy : Q) : res Q :=
  if negb (Qeq_bool max_cpy 0) && Qlt_bool 0 max_cpy then
    rbind (math_log1p cpy) (fun a =>
    rbind (math_log1p max_cpy) (fun b =>
    py_div a b))
  else Ok 0.

Definition compute_rim_with_logC (cpy max_cpy J D R F O P : Q) : res Q :=
  rbind (logC cpy max_cpy) (fun C =>
  let val := weighted_sum C J D R F O P in
  Ok (py_round (val * 100) 2)).

(** The lambda applied to each row to fill [df['RIM']]. *)
Definition row_rim (max_cpy : Q) (r : row) : res Q :=
  compute_rim_with_logC (CPY r) max_cpy (1 # 2)
    (float_of_bool (is_OA r))
    (if Is_Retracted r then 0 else 1)
    (float_of_bool (Funder_present r))
    (Author_affil_completeness r)
    0.

(** The second pass over the batch: [max_cpy], then the RIM column. *)
Definition rim_column (rows : list row) : res (list Q) :=
  let max_cpy := series_max (map CPY rows) in
  mapM (row_rim max_cpy) rows.

Definition risk_column (rims : list Q) : list Q := map risk_factor rims.

End Scoring.

(* ------------------------------------------------------------------ *)
(** ** Identifier extraction *)

Local Open Scope char_scope.

(** A match of [DOI_RE] = [10\.\d{4,9}/\S+] starting at the head of the
    text.  The digit run must be followed by the slash, so it is matched
    whole and must have between 4 and 9 digits; [\S+] is greedy.  The
    pattern has no letters, so [re.IGNORECASE] changes nothing. *)
Definition doi_match_here (l : list ascii) : option (list ascii) :=
  match l with
  | "1" :: "0" :: "." :: rest =>
      let ds := take_while is_digit rest in
      let n := List.length ds in
      if (4 <=? n)%nat && (n <=? 9)%nat then
        match skipn n rest with
        | "/" :: tail =>
            match take_while (fun c => negb (is_space c)) tail with
            | [] => None
            | suffix => Some ("1" :: "0" :: "." :: ds ++ "/" :: suffix)
            end
        | _ => None
        end
      else None
  | _ => None
  end.

Fixpoint doi_search_from (l : list ascii) : option (list ascii) :=
  match doi_match_here l with
  | Some m => Some m
  | None =>
      match l with
      | [] => None
      | _ :: r => doi_search_from r
      end
  end.

Local Close Scope char_scope.

(** [m = DOI_RE.search(s)], giving [m.group(0)] when there is a match. *)
Definition DOI_RE_search (s : string) : option string :=
  option_map string_of_list_ascii (doi_search_from (list_ascii_of_string s)).

(** The first match among the string entries of a sequence of values. *)
Fixpoint search_strings (vs : list pyval) : option string :=
  match vs with
  | [] => None
  | PStr s :: r =>
      match DOI_RE_search s with
      | Some m => Some m
      | None => search_strings r
      end
  | _ :: r => search_strings r
  end.

(** The branch [isinstance(val, list)]: strings and dictionaries inside. *)
Fixpoint search_list (vs : list pyval) : option string :=
  match vs with
  | [] => None
  | PStr s :: r =>
      match DOI_RE_search s with
      | Some m => Some m
      | None => search_list r
      end
  | PDict d :: r =>
      match search_strings (map snd d) with
      | Some m => Some m
      | None => search_list r
      end
  | _ :: r => search_list r
  end.

Definition search_field (val : pyval) : option string :=
  match val with
  | PDict d => search_strings (map snd d)
  | PList l => search_list l
  | _ => None
  end.

Definition doi_fields : list string :=
  ["inline_links"; "links"; "source"; "publication_info"; "publication"].

Fixpoint search_fields (item : pyval) (ks : list string) : res pyval :=
  match ks with
  | [] => Ok PNone
  | k :: r =>
      rbind (py_get item k PNone) (fun val =>
      match search_field val with
      | Some m => Ok (PStr m)
      | None => search_fields item r
      end)
  end.

Definition extract_doi_from_serp_item (item : pyval) : res pyval :=
  rbind (py_get item "external_ids" PNone) (fun e =>
  let ext := py_or e (PDict []) in
  rbind (py_get ext "DOI" PNone) (fun d1 =>
  rbind (py_get ext "doi" PNone) (fun d2 =>
  let doi := py_or d1 d2 in
  if truthy doi then Ok doi else search_fields item doi_fields))).

(* ------------------------------------------------------------------ *)
(** ** The transport and the monad of the lookups *)

(** What [requests.get] is asked for: the endpoint and the text put in
    the URL. *)
Inductive request : Type :=
| CrossrefWork (doi : string)
| CrossrefQuery (title : string)
| S2Paper (doi : string)
| S2Search (title : string)
| Unpaywall (doi : pyval) (email : string).

(** A response: [r.status_code] and the outcome of [r.json()]. *)
Record response : Type := mkResponse {
  status_code : Z;
  json : res pyval
}.

(** The answer of the network to each request; [Raise] is a transport
    exception. *)
Definition world : Type := request -> res response.

(** A computation that may raise and that records the requests it issues. *)
Definition M (A : Type) : Type := list request -> res A * list request.

Definition mret {A} (a : A) : M A := fun l => (Ok a, l).

Definition mbind {A B} (m : M A) (f : A -> M B) : M B :=
  fun l =>
    match m l with
    | (Ok a, l') => f a l'
    | (Raise, l') => (Raise, l')
    end.

Definition lift {A} (r : res A) : M A := fun l => (r, l).

(** [try: body except Exception: handler] *)
Definition try_except {A} (body handler : M A) : M A :=
  fun l =>
    match body l with
    | (Ok a, l') => (Ok a, l')
    | (Raise, l') => handler l'
    end.

Declare Scope M_scope.
Delimit Scope M_scope with M.
Notation "x <- m ;; k" := (mbind m (fun x => k))
  (at level 61, m at next level, right associativity) : M_scope.
Notation "' p <- m ;; k" := (mbind m (fun x => match x with p => k end))
  (at level 61, p pattern, m at next level, right associativity) : M_scope.

Fixpoint mapMM {A B} (f : A -> M B) (l : list A) : M (list B) :=
  match l with
  | [] => mret []
  | a :: r => mbind (f a) (fun b => mbind (mapMM f r) (fun bs => mret (b :: bs)))
  end.

(** [urllib.parse.quote_plus(v)] accepts text only. *)
Definition quote_plus (v : pyval) : res string :=
  match v with
  | PStr s => Ok s
  | _ => Raise
  end.

(** [r.raise_for_status()] *)
Definition raise_for_status (r : response) : res unit :=
  if (400 <=? status_code r) && (status_code r <? 600) then Raise else Ok tt.

(* ------------------------------------------------------------------ *)
(** ** Resolvers and the record merger *)

(** [parse_crossref_authors_and_affiliations]: the number of authors and
    the number of authors with a non-empty affiliation list.  The names
    themselves (third component, display only) are not kept, but the
    conversions that compute them are evaluated, since they may raise. *)
Definition affiliation_name (aff : pyval) : res unit :=
  match aff with
  | PDict _ =>
      rbind (py_get aff "name" (PStr "")) (fun n =>
      rbind (py_strip n) (fun _ => Ok tt))
  | _ => Ok tt
  end.

Definition author_has_affiliation (a : pyval) : res bool :=
  rbind (py_get a "affiliation" (PList [])) (fun a0 =>
  let affs := py_or a0 (PList []) in
  if truthy affs then
    rbind (py_iter affs) (fun items =>
    rbind (mapM affiliation_name items) (fun _ => Ok true))
  else Ok false).

Definition count_true (l : list bool) : Z :=
  Z.of_nat (List.length (filter (fun b => b) l)).

Definition parse_crossref_authors_and_affiliations (cr_item : pyval)
  : res (Z * Z) :=
  rbind (py_get cr_item "author" (PList [])) (fun a0 =>
  let authors := py_or a0 (PList []) in
  rbind (py_len authors) (fun num_authors =>
  rbind (py_iter authors) (fun items =>
  rbind (mapM author_has_affiliation items) (fun flags =>
  Ok (num_authors, count_true flags))))).

(** The [try] block that reads [cited_by] from the stub. *)
Definition cited_by_of (art : pyval) : Z :=
  match
    rbind (py_get art "cited_by" PNone) (fun cb =>
    match cb with
    | PDict _ =>
        rbind (py_get cb "value" (PInt 0)) (fun v => py_int (py_or v (PInt 0)))
    | PInt z => Ok z
    | PBool b => Ok (if b then 1 else 0)%Z
    | _ => Ok 0%Z
    end)
  with
  | Ok z => z
  | Raise => 0%Z
  end.

(** [title_cr] *)
Definition title_of (cr : pyval) (title_serp : string) : res pyval :=
  rbind (py_get cr "title" PNone) (fun t =>
  if truthy t then
    rbind (py_get cr "title" (PList [PStr ""])) py_item0
  else Ok (PStr title_serp)).

(** [journal] *)
Definition journal_of (cr art : pyval) : res pyval :=
  rbind (py_get cr "container-title" PNone) (fun c =>
  if truthy c then
    rbind (py_get cr "container-title" (PList [PStr ""])) py_item0
  else
    rbind (py_get art "publication" (PDict [])) (fun pub =>
    rbind (py_get pub "name" PNone) (fun n =>
    if truthy n then Ok n
    else rbind (py_get art "source" PNone) (fun s => Ok (py_or s (PStr "")))))).

(** [cr.get(k, {}).get('date-parts', [[None]])[0][0]] *)
Definition date_part (cr : pyval) (k : string) : res pyval :=
  rbind (py_get cr k (PDict [])) (fun d =>
  rbind (py_get d "date-parts" (PList [PList [PNone]])) (fun parts =>
  rbind (py_item0 parts) py_item0)).

(** The [try] block of the year: "issued", else "published-print"; any
    exception leaves [None]. *)
Definition registry_year (cr : pyval) : pyval :=
  match
    rbind (date_part cr "issued") (fun y =>
    if truthy y then Ok y else date_part cr "published-print")
  with
  | Ok y => y
  | Raise => PNone
  end.

(** [art.get("year") or art.get("publication", {}).get("year")] *)
Definition stub_year (art : pyval) : res pyval :=
  rbind (py_get art "year" PNone) (fun y =>
  if truthy y then Ok y
  else rbind (py_get art "publication" (PDict [])) (fun pub =>
       py_get pub "year" PNone)).

(** [year] after the registry and the stub have been consulted. *)
Definition year_of (cr art : pyval) : res pyval :=
  let year := registry_year cr in
  if negb (truthy year) then stub_year art else Ok year.

(** The "Year" entry of the row: [int(year) if year else None]. *)
Definition row_year (year : pyval) : res (option Z) :=
  if truthy year then rbind (py_int year) (fun y => Ok (Some y)) else Ok None.

(** [num_authors] once the stub has been consulted. *)
Definition stub_num_authors (art : pyval) (num_authors : Z) : res Z :=
  if (num_authors =? 0)%Z then
    rbind (py_get art "authors" PNone) (fun a1 =>
    rbind (if truthy a1 then Ok a1
           else rbind (py_get art "authors_parsed" PNone) (fun a2 =>
                Ok (py_or a2 (PList [])))) (fun serp_authors =>
    match serp_authors with
    | PList l => Ok (Z.of_nat (List.length l))
    | _ => Ok num_authors
    end))
  else Ok num_authors.

(** [O_prop] *)
Definition O_prop (authors_with_aff num_authors : Z) : Q :=
  if negb (num_authors =? 0)%Z
  then inject_Z authors_with_aff / inject_Z num_authors
  else 0.

Section Reconciliation.

Local Open Scope M_scope.

Variable w : world.
Variable UNPAYWALL_EMAIL : string.
Variable CURRENT_YEAR : Z.

(** [requests.get(url, ...)] *)
Definition requests_get (req : request) : M response :=
  fun l => (w req, (l ++ [req])%list).

Definition fetch_crossref_by_doi (doi : pyval) : M pyval :=
  try_except
    (d <- lift (quote_plus doi) ;;
     r <- requests_get (CrossrefWork d) ;;
     if (status_code r =? 200)%Z then
       j <- lift (json r) ;;
       lift (py_get j "message" (PDict []))
     else mret (PDict []))
    (mret (PDict [])).

Definition fetch_crossref_by_title (title : string) : M pyval :=
  try_except
    (r <- requests_get (CrossrefQuery title) ;;
     _ <- lift (raise_for_status r) ;;
     j <- lift (json r) ;;
     m <- lift (py_get j "message" (PDict [])) ;;
     items <- lift (py_get m "items" (PList [])) ;;
     if truthy items then lift (py_item0 items) else mret (PDict []))
    (mret (PDict [])).

Definition fetch_semanticscholar_by_doi (doi : pyval)
  : M (Z * pyval * bool) :=
  try_except
    (d <- lift (quote_plus doi) ;;
     r <- requests_get (S2Paper d) ;;
     if (status_code r =? 200)%Z then
       j <- lift (json r) ;;
       c <- lift (py_get j "citationCount" (PInt 0)) ;;
       n <- lift (py_int (py_or c (PInt 0))) ;;
       y <- lift (py_get j "year" PNone) ;;
       t <- lift (py_get j "isRetracted" (PBool false)) ;;
       mret (n, y, truthy t)
     else mret (0%Z, PNone, false))
    (mret (0%Z, PNone, false)).

Definition fetch_semanticscholar_by_title (title : string)
  : M (Z * pyval * bool * pyval) :=
  try_except
    (r <- requests_get (S2Search title) ;;
     if (status_code r =? 200)%Z then
       j <- lift (json r) ;;
       data <- lift (py_get j "data" (PList [])) ;;
       if truthy data then
         item <- lift (py_item0 data) ;;
         c <- lift (py_get item "citationCount" (PInt 0)) ;;
         n <- lift (py_int (py_or c (PInt 0))) ;;
         y <- lift (py_get item "year" PNone) ;;
         t <- lift (py_get item "isRetracted" (PBool false)) ;;
         e <- lift (py_get item "externalIds" (PDict [])) ;;
         mret (n, y, truthy t, e)
       else mret (0%Z, PNone, false, PDict [])
     else mret (0%Z, PNone, false, PDict []))
    (mret (0%Z, PNone, false, PDict [])).

Definition fetch_unpaywall (doi : pyval) (email : string) : M bool :=
  if negb (truthy doi) then mret false
  else
    try_except
      (r <- requests_get (Unpaywall doi email) ;;
       if (status_code r =? 200)%Z then
         j <- lift (json r) ;;
         v <- lift (py_get j "is_oa" (PBool false)) ;;
         mret (truthy v)
       else mret false)
      (mret false).

(** The first citation step: the lookup by DOI, when there is a DOI. *)
Definition citations_by_doi (doi_final : pyval) : M (Z * bool) :=
  if truthy doi_final then
    ' (citations, _, is_retracted) <- fetch_semanticscholar_by_doi doi_final ;;
    mret (citations, is_retracted)
  else mret (0%Z, false).

(** The second citation step: the lookup by title and what is taken
    from it. *)
Definition citations_by_title (title_serp : string) (doi_final : pyval)
    (citations : Z) (is_retracted : bool) : M (Z * pyval * bool) :=
  if negb (truthy doi_final) || ((citations =? 0)%Z && negb is_retracted) then
    ' (sc_cit, _, sc_retracted, sc_ext) <- fetch_semanticscholar_by_title title_serp ;;
    if negb (sc_cit =? 0)%Z then
      doi' <- (if negb (truthy doi_final) then
                 d1 <- lift (py_get sc_ext "DOI" PNone) ;;
                 d2 <- lift (py_get sc_ext "doi" PNone) ;;
                 mret (py_or d1 (py_or d2 doi_final))
               else mret doi_final) ;;
      mret (sc_cit, doi', is_retracted || sc_retracted)
    else mret (citations, doi_final, is_retracted)
  else mret (citations, doi_final, is_retracted).

(** The citation resolution block: citation count, final DOI and
    retraction flag. *)
Definition resolve_citations (doi_final : pyval) (title_serp : string)
    (cited_by_val : Z) : M (Z * pyval * bool) :=
  ' (c1, r1) <- citations_by_doi doi_final ;;
  ' (c2, doi', r2) <- citations_by_title title_serp doi_final c1 r1 ;;
  let citations := if (c2 =? 0)%Z then cited_by_val else c2 in
  mret (citations, doi', r2).

(** The body of the loop over the publications of the profile. *)
Definition process_article (art : pyval) : M row :=
  t0 <- lift (py_get art "title" (PStr "")) ;;
  title_serp <- lift (py_strip t0) ;;
  let cited_by_val := cited_by_of art in
  doi <- lift (extract_doi_from_serp_item art) ;;
  cr0 <- (if truthy doi then fetch_crossref_by_doi doi else mret (PDict [])) ;;
  cr <- (if negb (truthy cr0) then fetch_crossref_by_title title_serp
         else mret cr0) ;;
  title_cr <- lift (title_of cr title_serp) ;;
  journal <- lift (journal_of cr art) ;;
  v0 <- lift (py_get cr "volume" (PStr "")) ;;
  let volume := py_or v0 (PStr "") in
  i0 <- lift (py_get cr "issue" (PStr "")) ;;
  let issue := py_or i0 (PStr "") in
  year <- lift (year_of cr art) ;;
  ' (n0, authors_with_aff) <-
      lift (if truthy cr then parse_crossref_authors_and_affiliations cr
            else Ok (0%Z, 0%Z)) ;;
  num_authors <- lift (stub_num_authors art n0) ;;
  funder_info <- lift (if truthy cr then py_get cr "funder" (PList [])
                       else Ok (PList [])) ;;
  let funder_flag := truthy funder_info in
  d0 <- lift (py_get cr "DOI" PNone) ;;
  doi_final <- lift (py_strip (py_or d0 (py_or doi (PStr "")))) ;;
  ' (citations, doi_final', is_retracted) <-
      resolve_citations (PStr doi_final) title_serp cited_by_val ;;
  is_oa <- (if truthy doi_final' then fetch_unpaywall doi_final' UNPAYWALL_EMAIL
            else mret false) ;;
  let O := O_prop authors_with_aff num_authors in
  y <- lift (row_year year) ;;
  mret {| Title := title_cr;
          Journal := journal;
          Volume := volume;
          Issue := issue;
          Year := y;
          Num_Authors := num_authors;
          DOI := py_or doi_final' (PStr "");
          Citations := citations;
          CPY := py_round (compute_cpy CURRENT_YEAR (Some citations)
                             (py_or year PNone)) 3;
          is_OA := is_oa;
          Funder_present := funder_flag;
          Author_affil_completeness := py_round O 3;
          Is_Retracted := is_retracted |}.

(** The registry record of a publication: the head of the loop body, up
    to the two registry lookups. *)
Definition registry_record (art : pyval) : M pyval :=
  t0 <- lift (py_get art "title" (PStr "")) ;;
  title_serp <- lift (py_strip t0) ;;
  doi <- lift (extract_doi_from_serp_item art) ;;
  cr0 <- (if truthy doi then fetch_crossref_by_doi doi else mret (PDict [])) ;;
  if negb (truthy cr0) then fetch_crossref_by_title title_serp else mret cr0.

(** The first pass: one row per publication. *)
Definition build_rows (serp_articles : list pyval) : M (list row) :=
  mapMM process_article serp_articles.

End Reconciliation.

(** The whole analysis of the publications of a profile: at most ten of
    them are kept; without any the run stops before scoring ([None]);
    otherwise the result is the rows, [df['RIM']] and [df['Risk_Factor']]. *)
Definition analyze (w : world) (email : string) (CURRENT_YEAR : Z)
    (log1p : Q -> Q) (articles : list pyval)
  : M (option (list row * list Q * list Q)) :=
  let serp_articles := firstn 10 articles in
  match serp_articles with
  | [] => mret None
  | _ :: _ =>
      mbind (build_rows w email CURRENT_YEAR serp_articles) (fun rows =>
      mbind (lift (rim_column log1p rows)) (fun rims =>
      mret (Some (rows, rims, risk_column rims))))
  end.

(* ------------------------------------------------------------------ *)
(** ** The contract of the risk factor *)

(** [clamp(x, lo, hi)] as the scoring contract words it: the value brought
    back into the interval. *)
Definition clamp (x lo hi : Q) : Q := Qmax lo (Qmin x hi).

(** The score before rounding as the scoring contract writes it: 100 times
    the sum of the seven sub-scores, each with its weight. *)
Definition contract_score (C J D R F O P : Q) : Q :=
  100 * ((25 # 100) * C + (20 # 100) * J + (15 # 100) * D + (20 # 100) * R
         + (10 # 100) * F + (5 # 100) * O + (5 # 100) * P).

(** [r] is [x] rounded to [nd] decimals: a multiple of [10^-nd] at most
    half a unit of the last decimal away from [x]. *)
Definition rounded_to (nd : nat) (x r : Q) : Prop :=
  (exists k : Z, r == inject_Z k / inject_Z (10 ^ Z.of_nat nd))
  /\ x - (1 # 2) / inject_Z (10 ^ Z.of_nat nd) <= r
  /\ r <= x + (1 # 2) / inject_Z (10 ^ Z.of_nat nd).

(** The score of a row in a batch whose largest citation rate is
    [max_cpy], as the scoring contract computes it: the journal quality is
    0.5, the provenance 0, and the other sub-scores are read from the row. *)
Definition contract_rim_of_row (log1p : Q -> Q) (max_cpy : Q) (r : row)
    (rim : Q) : Prop :=
  exists C,
    logC log1p (CPY r) max_cpy = Ok C
    /\ rounded_to 2
         (contract_score C (1 # 2) (float_of_bool (is_OA r))
            (if Is_Retracted r then 0 else 1)
            (float_of_bool (Funder_present r))
            (Author_affil_completeness r) 0)
         rim.

(* ------------------------------------------------------------------ *)
(** ** Classes of requests *)

(** The requests that are lookups of the citation service by title. *)
Definition is_title_search (q : request) : bool :=
  match q with
  | S2Search _ => true
  | _ => false
  end.

(** The requests that go to the citation service. *)
Definition is_citation_lookup (q : request) : bool :=
  match q with
  | S2Paper _ | S2Search _ => true
  | _ => false
  end.

Definition not_citation (q : request) : Prop := is_citation_lookup q = false.

(** The requests the citation block may issue for the DOI [d]. *)
Definition block_request (d : string) (q : request) : Prop :=
  (q = S2Paper d /\ d <> "") \/ is_title_search q = true.

(** A computation that only adds requests satisfying [P] to the log. *)
Definition appends (P : request -> Prop) {A} (m : M A) : Prop :=
  forall l r l', m l = (r, l') ->
    exists ext, l' = (l ++ ext)%list /\ Forall P ext.

(* ------------------------------------------------------------------ *)
(** ** Sample networks, registry records and stubs *)

Definition sample_row (cpy : Q) (oa funded retracted : bool) (O : Q) : row :=
  {| Title := PStr "T"; Journal := PStr ""; Volume := PStr ""; Issue := PStr "";
     Year := Some 2020%Z; Num_Authors := 2; DOI := PStr "";
     Citations := 0; CPY := cpy; is_OA := oa; Funder_present := funded;
     Author_affil_completeness := O; Is_Retracted := retracted |}.

(** A response with status 200 and the given payload. *)
Definition ok_json (v : pyval) : res response :=
  Ok {| status_code := 200; json := Ok v |}.

(** A network on which every request fails at the transport level. *)
Definition offline : world := fun _ => Raise.

(** A network whose registry and citation service answer every query
    with an empty result. *)
Definition empty_results : world :=
  fun q =>
    match q with
    | CrossrefQuery _ => ok_json (PDict [("message", PDict [("items", PList [])])])
    | S2Search _ => ok_json (PDict [("data", PList [])])
    | S2Paper _ => Ok {| status_code := 404; json := Raise |}
    | _ => Raise
    end.

(** A citation service that knows the paper by its title only, with no
    citation yet, and reports it as retracted. *)
Definition retracted_uncited : world :=
  fun q =>
    match q with
    | S2Search _ =>
        ok_json (PDict [("data",
                   PList [PDict [("citationCount", PInt 0);
                                 ("isRetracted", PBool true)]])])
    | _ => Raise
    end.

(** A citation service that knows the paper by its DOI, with 7 citations,
    and would report 99 citations and a retraction for any title. *)
Definition cited_by_doi : world :=
  fun q =>
    match q with
    | S2Paper _ => ok_json (PDict [("citationCount", PInt 7); ("year", PInt 2020)])
    | S2Search _ =>
        ok_json (PDict [("data",
                   PList [PDict [("citationCount", PInt 99);
                                 ("isRetracted", PBool true)]])])
    | _ => Raise
    end.

(** A registry whose best match for any title has an empty title entry. *)
Definition untitled_registry : world :=
  fun q =>
    match q with
    | CrossrefQuery _ =>
        ok_json (PDict [("message",
                   PDict [("items", PList [PDict [("title", PList [PStr ""])]])])])
    | _ => Raise
    end.

(** A registry record issued in the year 123. *)
Definition issued_123 : pyval :=
  PDict [("issued", PDict [("date-parts", PList [PList [PInt 123; PInt 5]])])].

Definition registry_123 : world :=
  fun q =>
    match q with
    | CrossrefQuery _ =>
        ok_json (PDict [("message", PDict [("items", PList [issued_123])])])
    | _ => Raise
    end.

(** A registry record whose "issued" entry has no date parts and whose
    "published-print" entry gives 2020. *)
Definition unreadable_issued : pyval :=
  PDict [("issued", PDict [("date-parts", PList [])]);
         ("published-print", PDict [("date-parts", PList [PList [PInt 2020]])])].

(** A registry that knows the DOI: three authors with one affiliation
    each, two funders. *)
Definition registry_three_authors : world :=
  fun q =>
    match q with
    | CrossrefWork _ =>
        ok_json (PDict [("message", PDict [
          ("title", PList [PStr "Registry title"]);
          ("DOI", PStr "10.1000/xyz");
          ("author", PList [
             PDict [("family", PStr "A");
                    ("affiliation", PList [PDict [("name", PStr "U1")]])];
             PDict [("family", PStr "B");
                    ("affiliation", PList [PDict [("name", PStr "U2")]])];
             PDict [("family", PStr "C");
                    ("affiliation", PList [PStr "U1"])]]);
          ("funder", PList [PDict [("name", PStr "F1")];
                            PDict [("name", PStr "F2")]])])])
    | _ => Raise
    end.

Definition stub_plain : pyval := PDict [("title", PStr "T")].

(** A profile stub with an inline citation count of 12 and no identifier. *)
Definition stub_cited_12 : pyval :=
  PDict [("title", PStr "A study of things ");
         ("cited_by", PDict [("value", PInt 12)]);
         ("year", PStr "2019")].

(** A profile stub with an inline citation count of 12 and no identifier,
    whose venue is a text, as a profile lists it. *)
Definition stub_text_venue : pyval :=
  PDict [("title", PStr "A study of things");
         ("publication", PStr "Journal of Things 12 (3), 2019");
         ("cited_by", PDict [("value", PInt 12)]);
         ("year", PStr "2019")].

(** The same stub with the venue as a list of texts, one of the shapes in
    which the identifier extraction reads this entry. *)
Definition stub_listed_venue : pyval :=
  PDict [("title", PStr "A study of things");
         ("publication", PList [PStr "Journal of Things"]);
         ("cited_by", PDict [("value", PInt 12)]);
         ("year", PStr "2019")].

Definition stub_with_doi : pyval :=
  PDict [("title", PStr "Stub title");
         ("external_ids", PDict [("DOI", PStr "10.1000/xyz")])].

(* ------------------------------------------------------------------ *)
(** ** Presentation bands *)

Definition get_rim_color (rim_score : Q) : string :=
  if Qle_bool 80 rim_score then "green"
  else if Qle_bool 60 rim_score then "blue"
  else if Qle_bool 40 rim_score then "orange"
  else "red".

Definition get_rim_badge (rim_score : Q) : string :=
  if Qle_bool 80 rim_score then "Excellent"
  else if Qle_bool 60 rim_score then "Good"
  else if Qle_bool 40 rim_score then "Fair"
  else "Poor".

(* ------------------------------------------------------------------ *)
(** ** Vocabulary for the properties of the identifiers and of the runs *)

(** A text of the shape [10.<4 to 9 digits>/<non-blank characters>]. *)
Definition doi_shaped (m : list ascii) : Prop :=
  exists ds suffix,
    m = ("1" :: "0" :: "." :: ds ++ "/" :: suffix)%char%list
    /\ (4 <= List.length ds <= 9)%nat
    /\ forallb is_digit ds = true
    /\ suffix <> []
    /\ forallb (fun c => negb (is_space c)) suffix = true.

(** A computation that adds at most [n] requests to the log, whatever
    its outcome. *)
Definition issues (n : nat) {A} (m : M A) : Prop :=
  forall l r l', m l = (r, l') ->
    exists ext, l' = (l ++ ext)%list /\ (List.length ext <= n)%nat.

(** The registry record gives no year: its "issued" date cannot be read,
    or it is falsy and the "published-print" date cannot be read or is
    falsy. *)
Definition no_registry_year (cr : pyval) : Prop :=
  date_part cr "issued" = Raise
  \/ exists y1,
       date_part cr "issued" = Ok y1 /\ truthy y1 = false
       /\ (date_part cr "published-print" = Raise
           \/ exists y2,
                date_part cr "published-print" = Ok y2 /\ truthy y2 = false).

(** The requests that are registry queries by title. *)
Definition is_registry_query (q : request) : bool :=
  match q with
  | CrossrefQuery _ => true
  | _ => false
  end.

(** The requests that go to the registry. *)
Definition is_registry (q : request) : bool :=
  match q with
  | CrossrefWork _ | CrossrefQuery _ => true
  | _ => false
  end.

(** The requests that go to the open-access lookup. *)
Definition is_openness (q : request) : bool :=
  match q with
  | Unpaywall _ _ => true
  | _ => false
  end.

(** A registry that knows the DOI and would also answer a query by title. *)
Definition registry_both : world :=
  fun q =>
    match q with
    | CrossrefWork _ =>
        ok_json (PDict [("message", PDict [("title", PList [PStr "By DOI"])])])
    | CrossrefQuery _ =>
        ok_json (PDict [("message",
                   PDict [("items", PList [PDict [("title", PList [PStr "By title"])]])])])
    | _ => Raise
    end.

(** A registry whose record for any title names the venue. *)
Definition registry_venue : world :=
  fun q =>
    match q with
    | CrossrefQuery _ =>
        ok_json (PDict [("message",
                   PDict [("items",
                     PList [PDict [("container-title",
                                    PList [PStr "Registry venue"])]])])])
    | _ => Raise
    end.

(** A citation service that finds the paper by title, with 5 citations
    and another DOI, and an open-access lookup that answers yes. *)
Definition title_hit_open : world :=
  fun q =>
    match q with
    | S2Search _ =>
        ok_json (PDict [("data",
                   PList [PDict [("citationCount", PInt 5);
                                 ("externalIds", PDict [("DOI", PStr "10.2000/abc")])]])])
    | Unpaywall _ _ => ok_json (PDict [("is_oa", PBool true)])
    | _ => Raise
    end.

(* ------------------------------------------------------------------ *)
(** * The definitions on concrete inputs *)

Example doi_in_a_link :
  DOI_RE_search "see https://doi.org/10.1000/xyz here" = Some "10.1000/xyz".
Proof. reflexivity. Qed.

Example doi_digit_run_between_4_and_9 :
  DOI_RE_search "10.123/a 10.1234567890/b 10.12345/ 10.12345/c"
  = Some "10.12345/c".
Proof. reflexivity. Qed.

Example doi_from_nested_links :
  extract_doi_from_serp_item
    (PDict [("title", PStr "T");
            ("links", PList [PInt 3; PDict [("url", PStr "x 10.5555/ab.c")]])])
  = Ok (PStr "10.5555/ab.c").
Proof. reflexivity. Qed.

Example doi_explicit_field_wins :
  extract_doi_from_serp_item
    (PDict [("external_ids", PDict [("doi", PStr "10.1/short")]);
            ("source", PList [PStr "10.5555/abc"])])
  = Ok (PStr "10.1/short").
Proof. reflexivity. Qed.

Example strip_both_ends : strip "  ab c  " = "ab c".
Proof. reflexivity. Qed.

Example int_of_padded_string : int_of_string " 20_19 " = Ok 2019%Z.
Proof. reflexivity. Qed.

Example int_of_bad_string : int_of_string "n.d." = Raise.
Proof. reflexivity. Qed.

Example round_half_to_even :
  py_round (125 # 1000) 2 == 12 # 100 /\ py_round (375 # 1000) 2 == 38 # 100.
Proof. split; reflexivity. Qed.

Example int_of_string_blanks :
  int_of_string (String (ascii_of_nat 160) "2019") = Ok 2019%Z
  /\ int_of_string (String (ascii_of_nat 31) "2019") = Raise
  /\ strip (String (ascii_of_nat 31) "2019") = "2019".
Proof. repeat split; reflexivity. Qed.

(** A retracted record with otherwise maximal sub-scores scores 65. *)
Example rim_of_retracted_record :
  compute_rim_with_logC (fun x => x) 20 20 (1 # 2) 1 0 1 1 0 = Ok (6500 # 100).
Proof. reflexivity. Qed.

Example cpy_of_2019_paper :
  compute_cpy 2025 (Some 12%Z) (PStr "2019") == 12 # 7.
Proof. reflexivity. Qed.

Example offline_run :
  process_article offline "me@example.org" 2025 stub_cited_12 []
  = (Ok {| Title := PStr "A study of things"; Journal := PStr "";
           Volume := PStr ""; Issue := PStr ""; Year := Some 2019%Z;
           Num_Authors := 0; DOI := PStr ""; Citations := 12;
           CPY := py_round (12 # 7) 3; is_OA := false;
           Funder_present := false;
           Author_affil_completeness := py_round 0 3;
           Is_Retracted := false |},
     [CrossrefQuery "A study of things"; S2Search "A study of things"]).
Proof. vm_compute. reflexivity. Qed.

(** A stub with an embedded DOI whose registry record lists three
    affiliated authors and two funders. *)
Example registry_run :
  exists row l',
    process_article registry_three_authors "me@example.org" 2025
      stub_with_doi [] = (Ok row, l')
    /\ Title row = PStr "Registry title"
    /\ Num_Authors row = 3%Z
    /\ Author_affil_completeness row == 1
    /\ Funder_present row = true
    /\ DOI row = PStr "10.1000/xyz"
    /\ l' = [CrossrefWork "10.1000/xyz"; S2Paper "10.1000/xyz";
             S2Search "Stub title";
             Unpaywall (PStr "10.1000/xyz") "me@example.org"].
Proof.
  do 2 eexists. split; [vm_compute; reflexivity|].
  repeat split; reflexivity.
Qed.

(* ------------------------------------------------------------------ *)
(** * Properties of the scoring engine *)

Lemma floor_ge_int (a : Z) (y : Q) : inject_Z a <= y -> (a <= Qfloor y)%Z.
Proof.
  intros H. rewrite <- (Qfloor_Z a). now apply Qfloor_resp_le.
Qed.

Lemma floor_lt_int (b : Z) (y : Q) :
  y <= inject_Z b -> inject_Z (Qfloor y) < y -> (Qfloor y + 1 <= b)%Z.
Proof.
  intros Hb Hlt.
  assert (H : inject_Z (Qfloor y) < inject_Z b) by (eapply Qlt_le_trans; eauto).
  rewrite <- Zlt_Qlt in H. lia.
Qed.

Lemma round_half_even_lower (a : Z) (y : Q) :
  inject_Z a <= y -> (a <= round_half_even y)%Z.
Proof.
  intros H. apply floor_ge_int in H. unfold round_half_even.
  destruct (Qcompare _ _); [destruct (Z.even _) | | ]; lia.
Qed.

Lemma round_half_even_upper (b : Z) (y : Q) :
  y <= inject_Z b -> (round_half_even y <= b)%Z.
Proof.
  intros H. unfold round_half_even.
  assert (Hf : (Qfloor y <= b)%Z).
  { rewrite Zle_Qle. eapply Qle_trans; [apply Qfloor_le | exact H]. }
  destruct (Qcompare (y - inject_Z (Qfloor y)) (1 # 2)) eqn:E.
  - destruct (Z.even _); [exact Hf|].
    apply Qeq_alt in E. apply floor_lt_int; [exact H|]. lra.
  - exact Hf.
  - apply Qgt_alt in E. apply floor_lt_int; [exact H|]. lra.
Qed.

Lemma pow10_pos (n : nat) : 0 < inject_Z (10 ^ Z.of_nat n).
Proof.
  change 0 with (inject_Z 0). rewrite <- Zlt_Qlt. apply Z.pow_pos_nonneg; lia.
Qed.

(** Rounding never leaves an interval whose ends are integers. *)
Lemma py_round_between (a b : Z) (x : Q) (nd : nat) :
  inject_Z a <= x <= inject_Z b ->
  inject_Z a <= py_round x nd <= inject_Z b.
Proof.
  intros [Ha Hb]. unfold py_round.
  pose proof (pow10_pos nd) as Hs.
  set (p := (10 ^ Z.of_nat nd)%Z) in *.
  assert (Hlo : (a * p <= round_half_even (x * inject_Z p))%Z).
  { apply round_half_even_lower. rewrite inject_Z_mult. nra. }
  assert (Hhi : (round_half_even (x * inject_Z p) <= b * p)%Z).
  { apply round_half_even_upper. rewrite inject_Z_mult. nra. }
  rewrite Zle_Qle, inject_Z_mult in Hlo, Hhi.
  split.
  - apply Qle_shift_div_l; [exact Hs | exact Hlo].
  - apply Qle_shift_div_r; [exact Hs | exact Hhi].
Qed.

Lemma round_half_even_comp (x y : Q) :
  x == y -> round_half_even x = round_half_even y.
Proof.
  intros E. unfold round_half_even.
  rewrite (Qfloor_comp _ _ E).
  assert (E' : x - inject_Z (Qfloor y) == y - inject_Z (Qfloor y))
    by (rewrite E; reflexivity).
  rewrite (Qcompare_comp _ _ E' (1 # 2) (1 # 2) (Qeq_refl _)). reflexivity.
Qed.

Lemma py_round_comp (x y : Q) (nd : nat) :
  x == y -> py_round x nd = py_round y nd.
Proof.
  intros E. unfold py_round.
  set (s := inject_Z (10 ^ Z.of_nat nd)).
  rewrite (round_half_even_comp (x * s) (y * s)); [reflexivity|].
  rewrite E. reflexivity.
Qed.

Lemma weights_sum :
  weights sC + weights sJ + weights sD + weights sR
  + weights sF + weights sO + weights sP == 1.
Proof. reflexivity. Qed.

Lemma weighted_sum_bounds (C J D R F O P : Q) :
  0 <= C <= 1 -> 0 <= J <= 1 -> 0 <= D <= 1 -> 0 <= R <= 1 ->
  0 <= F <= 1 -> 0 <= O <= 1 -> 0 <= P <= 1 ->
  0 <= weighted_sum C J D R F O P * 100 <= 100.
Proof.
  intros. unfold weighted_sum, weights. lra.
Qed.

Lemma compute_rim_unfold (log1p : Q -> Q) (cpy max_cpy J D R F O P C : Q) :
  logC log1p cpy max_cpy = Ok C ->
  compute_rim_with_logC log1p cpy max_cpy J D R F O P
  = Ok (py_round (weighted_sum C J D R F O P * 100) 2).
Proof.
  intros H. unfold compute_rim_with_logC. rewrite H. reflexivity.
Qed.

Lemma float_of_bool_bounds (b : bool) : 0 <= float_of_bool b <= 1.
Proof. destruct b; simpl; lra. Qed.

Lemma mapM_Forall {A B} (f : A -> res B) (P : B -> Prop) (l : list A) :
  (forall a, In a l -> exists b, f a = Ok b /\ P b) ->
  exists bs, mapM f l = Ok bs /\ Forall P bs.
Proof.
  induction l as [|a l IH]; intros H; simpl.
  - exists []. split; [reflexivity | constructor].
  - destruct (H a (or_introl eq_refl)) as [b [Hb Pb]].
    destruct IH as [bs [Hbs Pbs]].
    + intros a' Ha'. apply H. now right.
    + exists (b :: bs). rewrite Hb, Hbs. split; [reflexivity | now constructor].
Qed.

Lemma mapM_Ok_Forall {A B} (f : A -> res B) (P : B -> Prop) (l : list A) :
  (forall a b, In a l -> f a = Ok b -> P b) ->
  forall bs, mapM f l = Ok bs -> Forall P bs.
Proof.
  induction l as [|a l IH]; intros H bs; simpl.
  - intros E. inversion E. constructor.
  - destruct (f a) as [b|] eqn:Hb; simpl; [|discriminate].
    destruct (mapM f l) as [bs'|] eqn:Hbs; simpl; [|discriminate].
    intros E. inversion E; subst. constructor.
    + apply (H a b); [now left | exact Hb].
    + apply IH; [|reflexivity]. intros a' b' Ha'. apply H. now right.
Qed.

Lemma Qlt_bool_iff (a b : Q) : Qlt_bool a b = true <-> a < b.
Proof.
  unfold Qlt_bool. rewrite negb_true_iff. split; intros H.
  - apply Qnot_le_lt. intros L. apply Qle_bool_iff in L. congruence.
  - destruct (Qle_bool b a) eqn:E; [|reflexivity].
    apply Qle_bool_iff in E. lra.
Qed.

Lemma Qlt_bool_false_iff (a b : Q) : Qlt_bool a b = false <-> b <= a.
Proof.
  unfold Qlt_bool. rewrite negb_false_iff. apply Qle_bool_iff.
Qed.

Lemma clip_clamp (x lo hi : Q) : lo <= hi -> clip x lo hi == clamp x lo hi.
Proof.
  intros Hlh. unfold clip, clamp.
  destruct (Qlt_bool x lo) eqn:E1.
  - apply Qlt_bool_iff in E1.
    rewrite (Q.min_l x hi) by lra. rewrite Q.max_l by lra. reflexivity.
  - apply Qlt_bool_false_iff in E1.
    destruct (Qlt_bool hi x) eqn:E2.
    + apply Qlt_bool_iff in E2.
      rewrite (Q.min_r x hi) by lra. rewrite Q.max_r by lra. reflexivity.
    + apply Qlt_bool_false_iff in E2.
      rewrite (Q.min_l x hi) by lra. rewrite Q.max_r by lra. reflexivity.
Qed.

Lemma clip_bounds (x lo hi : Q) : lo <= hi -> lo <= clip x lo hi <= hi.
Proof.
  intros Hlh. unfold clip.
  destruct (Qlt_bool x lo) eqn:E1; [lra|].
  apply Qlt_bool_false_iff in E1.
  destruct (Qlt_bool hi x) eqn:E2; [lra|].
  apply Qlt_bool_false_iff in E2. lra.
Qed.

Lemma clip_id (x lo hi : Q) : lo <= x <= hi -> clip x lo hi = x.
Proof.
  intros [H1 H2]. unfold clip.
  destruct (Qlt_bool x lo) eqn:E1; [apply Qlt_bool_iff in E1; lra|].
  destruct (Qlt_bool hi x) eqn:E2; [apply Qlt_bool_iff in E2; lra|].
  reflexivity.
Qed.

(** C2: the risk factor of a record is [1 - rim/100] clamped to [0,1]; it
    is 1 when the RIM is 0 and 0 when the RIM is 100, and the risk column
    is this value for every entry of the RIM column. *)
Theorem risk_factor_clamped (rim : Q) :
  risk_factor rim == clamp (1 - rim / 100) 0 1
  /\ 0 <= risk_factor rim <= 1
  /\ (rim == 0 -> risk_factor rim == 1)
  /\ (rim == 100 -> risk_factor rim == 0)
  /\ (forall rims, risk_column rims = map (fun x => clip (1 - x / 100) 0 1) rims).
Proof.
  assert (Hd : rim / 100 == rim * (1 # 100)) by field.
  unfold risk_factor. repeat split.
  - apply clip_clamp. lra.
  - apply clip_bounds. lra.
  - apply clip_bounds. lra.
  - intros E. rewrite clip_id; [rewrite E; reflexivity|]. rewrite Hd, E. lra.
  - intros E. rewrite clip_id; [rewrite E; reflexivity|]. rewrite Hd, E. lra.
Qed.

Lemma risk_factor_clamped_witness :
  risk_factor 0 == 1 /\ risk_factor 100 == 0
  /\ risk_factor (65 # 1) == 35 # 100.
Proof.
  split; [|split].
  - apply (risk_factor_clamped 0). reflexivity.
  - apply (risk_factor_clamped 100). reflexivity.
  - rewrite (proj1 (risk_factor_clamped (65 # 1))). reflexivity.
Defined.

(** C8: when the year is known, [compute_cpy] returns
    [citations / max(1, referenceYear - year + 1)]; the divisor is at least 1
    whatever the year (it is exactly 1 for a year after the reference year);
    when the year is not known the result is [0.0]. *)
Theorem compute_cpy_clamped_span (CURRENT_YEAR c : Z) (year : pyval) :
  (forall y, truthy year = true -> py_int year = Ok y ->
     compute_cpy CURRENT_YEAR (Some c) year
     = inject_Z c / inject_Z (Z.max 1 (CURRENT_YEAR - y + 1))
     /\ (1 <= Z.max 1 (CURRENT_YEAR - y + 1))%Z
     /\ ((CURRENT_YEAR < y)%Z ->
         compute_cpy CURRENT_YEAR (Some c) year == inject_Z c))
  /\ (truthy year = false -> compute_cpy CURRENT_YEAR (Some c) year = 0)
  /\ (py_int year = Raise -> compute_cpy CURRENT_YEAR (Some c) year = 0)
  /\ compute_cpy CURRENT_YEAR None year = 0.
Proof.
  unfold compute_cpy. split; [|split; [|split]].
  - intros y Ht Hy. rewrite Ht, Hy. simpl negb. cbv iota.
    split; [reflexivity|]. split; [lia|].
    intros Hlt. rewrite Z.max_l by lia. unfold Qdiv.
    change (/ inject_Z 1) with 1. ring.
  - intros ->. reflexivity.
  - intros ->. destruct (negb (truthy year)); reflexivity.
  - reflexivity.
Qed.

Lemma compute_cpy_clamped_span_witness :
  compute_cpy 2025 (Some 12%Z) (PStr "2019") = inject_Z 12 / inject_Z 7
  /\ compute_cpy 2025 (Some 12%Z) (PInt 2031) == inject_Z 12
  /\ compute_cpy 2025 (Some 12%Z) PNone = 0.
Proof.
  split; [|split].
  - apply (proj1 (compute_cpy_clamped_span 2025 12 (PStr "2019")) 2019%Z);
      reflexivity.
  - apply (proj1 (compute_cpy_clamped_span 2025 12 (PInt 2031)) 2031%Z);
      reflexivity.
  - apply (proj1 (proj2 (compute_cpy_clamped_span 2025 12 PNone))).
    reflexivity.
Defined.

Lemma fold_max_ge_init (l : list Q) (a : Q) : a <= fold_left Qmax l a.
Proof.
  revert a. induction l as [|x l IH]; intros a; simpl; [lra|].
  eapply Qle_trans; [apply (Q.le_max_l a x) | apply IH].
Qed.

Lemma fold_max_ge_in (l : list Q) (a x : Q) :
  In x l -> x <= fold_left Qmax l a.
Proof.
  revert a. induction l as [|y l IH]; intros a; simpl; [intros []|].
  intros [-> | Hin].
  - eapply Qle_trans; [apply (Q.le_max_r a x) | apply fold_max_ge_init].
  - now apply IH.
Qed.

Lemma series_max_ge (l : list Q) (x : Q) : In x l -> x <= series_max l.
Proof.
  destruct l as [|a l]; simpl; [intros []|].
  intros [-> | Hin]; [apply fold_max_ge_init | now apply fold_max_ge_in].
Qed.

Lemma math_log1p_Ok (log1p : Q -> Q) (x v : Q) :
  math_log1p log1p x = Ok v -> -1 < x /\ v = log1p x.
Proof.
  unfold math_log1p. destruct (Qle_bool x (-1)) eqn:E; [discriminate|].
  intros H. inversion H. split; [|reflexivity].
  apply Qnot_le_lt. intros L. apply Qle_bool_iff in L. congruence.
Qed.

Lemma math_log1p_defined (log1p : Q -> Q) (x : Q) :
  -1 < x -> math_log1p log1p x = Ok (log1p x).
Proof.
  intros H. unfold math_log1p. destruct (Qle_bool x (-1)) eqn:E; [|reflexivity].
  apply Qle_bool_iff in E. lra.
Qed.

Section LogNormalisation.

Variable log1p : Q -> Q.

(** What is used of [math.log1p]: it is monotone on its domain and
    positive on positive arguments. *)
Hypothesis log1p_mono : forall x y, -1 < x -> x <= y -> log1p x <= log1p y.
Hypothesis log1p_pos : forall x, 0 < x -> 0 < log1p x.

Lemma logC_le_1 (cpy max_cpy C : Q) :
  cpy <= max_cpy -> logC log1p cpy max_cpy = Ok C -> C <= 1.
Proof.
  intros Hle. unfold logC.
  destruct (negb (Qeq_bool max_cpy 0) && Qlt_bool 0 max_cpy) eqn:E.
  - apply andb_true_iff in E. destruct E as [_ Hpos].
    apply Qlt_bool_iff in Hpos.
    destruct (math_log1p log1p cpy) as [a|] eqn:Ea; simpl; [|discriminate].
    destruct (math_log1p log1p max_cpy) as [b|] eqn:Eb; simpl; [|discriminate].
    apply math_log1p_Ok in Ea, Eb. destruct Ea as [Hdom ->], Eb as [_ ->].
    unfold py_div. destruct (Qeq_bool _ 0); [discriminate|].
    intros H. inversion H.
    apply Qle_shift_div_r; [now apply log1p_pos|].
    rewrite Qmult_1_l. now apply log1p_mono.
  - intros H. inversion H. lra.
Qed.

Lemma logC_defined (cpy max_cpy : Q) :
  -1 < cpy -> cpy <= max_cpy -> exists C, logC log1p cpy max_cpy = Ok C.
Proof.
  intros Hdom Hle. unfold logC.
  destruct (negb (Qeq_bool max_cpy 0) && Qlt_bool 0 max_cpy) eqn:E;
    [|eexists; reflexivity].
  apply andb_true_iff in E. destruct E as [_ Hpos].
  apply Qlt_bool_iff in Hpos.
  rewrite !math_log1p_defined by lra. simpl. unfold py_div.
  destruct (Qeq_bool (log1p max_cpy) 0) eqn:Ez; [|eexists; reflexivity].
  apply Qeq_bool_iff in Ez. pose proof (log1p_pos _ Hpos). lra.
Qed.

(** The RIM of a row is at most 85 whenever it is computed. *)
Lemma row_rim_le_85 (rows : list row) (r : row) (rim : Q) :
  In r rows -> Author_affil_completeness r <= 1 ->
  row_rim log1p (series_max (map CPY rows)) r = Ok rim -> rim <= 85.
Proof.
  intros Hin HO. unfold row_rim, compute_rim_with_logC.
  destruct (logC log1p (CPY r) _) as [C|] eqn:EC; simpl; [|discriminate].
  intros H. inversion H.
  apply logC_le_1 in EC; [|apply series_max_ge; now apply in_map].
  apply (py_round_between (Qfloor (weighted_sum C (1 # 2)
           (float_of_bool (is_OA r)) (if Is_Retracted r then 0 else 1)
           (float_of_bool (Funder_present r))
           (Author_affil_completeness r) 0 * 100)) 85).
  split; [apply Qfloor_le|].
  pose proof (float_of_bool_bounds (is_OA r)).
  pose proof (float_of_bool_bounds (Funder_present r)).
  unfold weighted_sum, weights. change (inject_Z 85) with (85 # 1).
  destruct (Is_Retracted r); lra.
Qed.

End LogNormalisation.

(* ------------------------------------------------------------------ *)
(** * Reasoning about runs *)

Lemma rbind_Ok {A B} (m : res A) (f : A -> res B) (b : B) :
  rbind m f = Ok b -> exists a, m = Ok a /\ f a = Ok b.
Proof.
  destruct m as [a|]; simpl; [|discriminate]. intros H. now exists a.
Qed.

Lemma mbind_Ok {A B} (m : M A) (f : A -> M B) l b l' :
  mbind m f l = (Ok b, l') ->
  exists a l1, m l = (Ok a, l1) /\ f a l1 = (Ok b, l').
Proof.
  unfold mbind. destruct (m l) as [[a|] l1]; [|discriminate].
  intros H. now exists a, l1.
Qed.

Lemma lift_Ok {A} (r : res A) l a l' :
  lift r l = (Ok a, l') -> r = Ok a /\ l' = l.
Proof.
  unfold lift. intros H. inversion H. auto.
Qed.

Lemma mret_Ok {A} (x : A) l a l' :
  mret x l = (Ok a, l') -> a = x /\ l' = l.
Proof.
  unfold mret. intros H. inversion H. auto.
Qed.

(** Decompose a successful run of a sequence of binds. *)
Ltac run_inv H :=
  lazymatch type of H with
  | mbind _ _ _ = (Ok _, _) =>
      let a := fresh "v" in
      let l := fresh "l" in
      let H1 := fresh "R" in
      let H2 := fresh "K" in
      apply mbind_Ok in H; destruct H as [a [l [H1 H2]]];
      try (apply lift_Ok in H1; destruct H1 as [H1 ->]);
      cbv beta in H2
  | lift _ _ = (Ok _, _) =>
      let E := fresh "E" in
      apply lift_Ok in H; destruct H as [H E]
  | mret _ _ = (Ok _, _) =>
      let E := fresh "E" in
      apply mret_Ok in H; destruct H as [H E]
  end.

Lemma mapM_length {A B} (f : A -> res B) (l : list A) (bs : list B) :
  mapM f l = Ok bs -> List.length bs = List.length l.
Proof.
  revert bs. induction l as [|a l IH]; intros bs; simpl.
  - intros H. inversion H. reflexivity.
  - destruct (f a); simpl; [|discriminate].
    destruct (mapM f l) eqn:E; simpl; [|discriminate].
    intros H. inversion H. simpl. f_equal. now apply IH.
Qed.

Lemma mapMM_Forall {A B} (f : A -> M B) (P : B -> Prop) (xs : list A) :
  (forall a l b l', f a l = (Ok b, l') -> P b) ->
  forall l bs l', mapMM f xs l = (Ok bs, l') -> Forall P bs.
Proof.
  intros Hf. induction xs as [|a xs IH]; intros l bs l' H; simpl in H.
  - run_inv H. subst. constructor.
  - run_inv H. run_inv K. run_inv K0. subst. constructor.
    + eapply Hf; eauto.
    + eapply IH; eauto.
Qed.

Lemma count_true_bounds (l : list bool) :
  (0 <= count_true l <= Z.of_nat (List.length l))%Z.
Proof.
  unfold count_true. split; [lia|].
  apply inj_le. induction l as [|[|] l IH]; simpl; lia.
Qed.

Lemma py_len_iter (v : pyval) (n : Z) (items : list pyval) :
  py_len v = Ok n -> py_iter v = Ok items -> n = Z.of_nat (List.length items).
Proof.
  destruct v; simpl; try discriminate; intros Hn Hi;
    inversion Hn; inversion Hi; subst.
  - rewrite length_map. f_equal.
    clear. induction s; simpl; congruence.
  - reflexivity.
  - now rewrite length_map.
Qed.

(** The registry never reports more affiliated authors than authors. *)
Lemma parse_crossref_counts (cr : pyval) (n aw : Z) :
  parse_crossref_authors_and_affiliations cr = Ok (n, aw) ->
  (0 <= aw <= n)%Z.
Proof.
  unfold parse_crossref_authors_and_affiliations. intros H.
  apply rbind_Ok in H. destruct H as [a0 [_ H]].
  apply rbind_Ok in H. destruct H as [num [Hlen H]].
  apply rbind_Ok in H. destruct H as [items [Hit H]].
  apply rbind_Ok in H. destruct H as [flags [Hfl H]].
  inversion H; subst.
  rewrite (py_len_iter _ _ _ Hlen Hit), <- (mapM_length _ _ _ Hfl).
  apply count_true_bounds.
Qed.

Lemma O_prop_bounds (aw n0 num : Z) :
  (0 <= aw <= n0)%Z -> (n0 <> 0 -> num = n0)%Z -> 0 <= O_prop aw num <= 1.
Proof.
  intros Haw Hnum. unfold O_prop.
  destruct (num =? 0)%Z eqn:E; simpl; [lra|].
  apply Z.eqb_neq in E.
  destruct (Z.eq_dec n0 0) as [Hz|Hnz].
  - assert (aw = 0%Z) by lia. subst aw.
    unfold Qdiv. rewrite Qmult_0_l. lra.
  - rewrite (Hnum Hnz).
    assert (Hp : 0 < inject_Z n0).
    { change 0 with (inject_Z 0). rewrite <- Zlt_Qlt. lia. }
    split.
    + apply Qle_shift_div_l; [exact Hp|]. rewrite Qmult_0_l.
      change 0 with (inject_Z 0). rewrite <- Zle_Qle. lia.
    + apply Qle_shift_div_r; [exact Hp|]. rewrite Qmult_1_l.
      rewrite <- Zle_Qle. lia.
Qed.

Lemma stub_num_authors_keeps (art : pyval) (n0 num : Z) :
  stub_num_authors art n0 = Ok num -> (n0 <> 0 -> num = n0)%Z.
Proof.
  unfold stub_num_authors. intros H Hnz.
  apply Z.eqb_neq in Hnz. rewrite Hnz in H. now inversion H.
Qed.

Ltac run_step :=
  match goal with
  | H : mbind _ _ _ = (Ok _, _) |- _ => run_inv H
  | H : (match ?v with pair _ _ => _ end) _ = (Ok _, _) |- _ => destruct v
  | H : (match ?v with pair _ _ => _ end) = Ok _ |- _ => destruct v
  end.

Ltac run_done :=
  match goal with
  | H : mret _ _ = (Ok _, _) |- _ => run_inv H
  end.

(** The citation count, the DOI and the retraction flag of a row are
    those of the citation block, run on the stripped DOI and title. *)
Lemma process_article_citation_block w email CY art l row l' :
  process_article w email CY art l = (Ok row, l') ->
  exists doi_final title_serp doi' l1 l2,
    resolve_citations w (PStr doi_final) title_serp (cited_by_of art) l1
    = (Ok (Citations row, doi', Is_Retracted row), l2)
    /\ DOI row = py_or doi' (PStr "").
Proof.
  unfold process_article. intros H. repeat run_step. run_done. subst row.
  match goal with
  | R : resolve_citations _ (PStr ?d) ?t _ ?la = (Ok (_, ?d', _), ?lb) |- _ =>
      exists d, t, d', la, lb; split; [exact R | reflexivity]
  end.
Qed.

(** The affiliation completeness stored in a row is a proportion. *)
Lemma process_article_completeness w email CY art l r l' :
  process_article w email CY art l = (Ok r, l') ->
  0 <= Author_affil_completeness r <= 1.
Proof.
  unfold process_article. intros H. repeat run_step. run_done. subst r. simpl.
  match goal with
  | Hp : (if truthy ?cr then parse_crossref_authors_and_affiliations ?cr
          else Ok (0%Z, 0%Z)) = Ok (?n0, ?aw),
    Hs : stub_num_authors _ ?n0 = Ok ?num |- _ =>
      apply (py_round_between 0 1);
      apply (O_prop_bounds aw n0 num);
      [ destruct (truthy cr);
        [ now apply (parse_crossref_counts cr) | inversion Hp; lia ]
      | now apply (stub_num_authors_keeps art) ]
  end.
Qed.

Lemma build_rows_completeness w email CY arts l rows l' :
  build_rows w email CY arts l = (Ok rows, l') ->
  Forall (fun r => 0 <= Author_affil_completeness r <= 1) rows.
Proof.
  unfold build_rows. apply mapMM_Forall.
  intros a l0 b l1. apply process_article_completeness.
Qed.

Lemma rim_column_le_85 (log1p : Q -> Q) (rows : list row) (rims : list Q) :
  (forall x y, -1 < x -> x <= y -> log1p x <= log1p y) ->
  (forall x, 0 < x -> 0 < log1p x) ->
  Forall (fun r => Author_affil_completeness r <= 1) rows ->
  rim_column log1p rows = Ok rims ->
  Forall (fun rim => rim <= 85) rims.
Proof.
  intros Hmono Hpos HO. unfold rim_column. apply mapM_Ok_Forall.
  intros r rim Hin. apply (row_rim_le_85 log1p Hmono Hpos rows r rim Hin).
  rewrite Forall_forall in HO. now apply HO.
Qed.

(** C10: with the journal-quality sub-score fixed at 0.5 and the
    provenance sub-score at 0, no RIM exceeds 85: every batch whose rows
    have a citation rate in the domain of the logarithm and an affiliation
    completeness of at most 1 gets a RIM column, all of whose entries are
    at most 85; and every RIM the analysis produces, for any publications
    and any answers of the network, is at most 85. *)
Theorem rim_at_most_85 (log1p : Q -> Q)
    (log1p_mono : forall x y, -1 < x -> x <= y -> log1p x <= log1p y)
    (log1p_pos : forall x, 0 < x -> 0 < log1p x) :
  (forall rows,
     Forall (fun r => -1 < CPY r /\ Author_affil_completeness r <= 1) rows ->
     exists rims, rim_column log1p rows = Ok rims
                  /\ Forall (fun rim => rim <= 85) rims)
  /\ (forall w email CURRENT_YEAR articles l rows rims risks l',
        analyze w email CURRENT_YEAR log1p articles l
        = (Ok (Some (rows, rims, risks)), l') ->
        Forall (fun rim => rim <= 85) rims).
Proof.
  split.
  - intros rows Hrows. rewrite Forall_forall in Hrows.
    destruct (mapM_Forall (row_rim log1p (series_max (map CPY rows)))
                (fun _ => True) rows) as [rims [E _]].
    + intros r Hin. destruct (Hrows r Hin) as [Hdom _].
      destruct (logC_defined log1p log1p_pos (CPY r)
                  (series_max (map CPY rows)) Hdom) as [C EC].
      { apply series_max_ge. now apply in_map. }
      eexists. split; [apply compute_rim_unfold; exact EC | exact I].
    + exists rims. split; [exact E|].
      apply (rim_column_le_85 log1p rows rims log1p_mono log1p_pos); [|exact E].
      rewrite Forall_forall. intros r Hin. now destruct (Hrows r Hin).
  - intros w email CY arts l rows rims risks l' H.
    unfold analyze in H. cbv zeta in H.
    destruct (firstn 10 arts) as [|a arts'];
      [apply mret_Ok in H; destruct H; discriminate|].
    repeat run_step. run_done.
    match goal with
    | Heq : Some (rows, rims, risks) = Some _ |- _ => inversion Heq; subst
    end.
    match goal with
    | Hb : build_rows _ _ _ _ _ = (Ok ?rs, _),
      Hr : rim_column _ ?rs = Ok ?rm |- _ =>
        apply (rim_column_le_85 log1p rs rm log1p_mono log1p_pos); [|exact Hr];
        apply build_rows_completeness in Hb;
        eapply Forall_impl; [|exact Hb]; cbv beta; intros r Hr'; apply Hr'
    end.
Qed.

Lemma rim_at_most_85_witness :
  (exists rims,
     rim_column (fun x => x)
       [sample_row 20 true true false 1; sample_row 5 false true false (1 # 2)]
     = Ok rims
     /\ Forall (fun rim => rim <= 85) rims)
  /\ (exists rows rims risks l',
        analyze offline "me@example.org" 2025 (fun x => x) [stub_cited_12] []
        = (Ok (Some (rows, rims, risks)), l')
        /\ Forall (fun rim => rim <= 85) rims).
Proof.
  assert (Hmono : forall x y : Q, -1 < x -> x <= y -> x <= y) by (intros; assumption).
  assert (Hpos : forall x : Q, 0 < x -> 0 < x) by (intros; assumption).
  destruct (rim_at_most_85 (fun x => x) Hmono Hpos) as [Hb He]. split.
  - apply Hb. repeat constructor; vm_compute; congruence.
  - do 4 eexists. split; [vm_compute; reflexivity|].
    eapply (He offline "me@example.org" 2025%Z [stub_cited_12] []).
    vm_compute. reflexivity.
Defined.

(* ------------------------------------------------------------------ *)
(** * The requests of a run *)

Lemma appends_mret P {A} (a : A) : appends P (mret a).
Proof.
  intros l r l' H. inversion H. exists []. now rewrite app_nil_r.
Qed.

Lemma appends_lift P {A} (x : res A) : appends P (lift x).
Proof.
  intros l r l' H. inversion H. exists []. now rewrite app_nil_r.
Qed.

Lemma appends_get (P : request -> Prop) w q :
  P q -> appends P (requests_get w q).
Proof.
  intros Hq l r l' H. inversion H. exists [q]. split; [reflexivity|].
  now constructor.
Qed.

Lemma appends_mbind P {A B} (m : M A) (f : A -> M B) :
  appends P m -> (forall a, appends P (f a)) -> appends P (mbind m f).
Proof.
  intros Hm Hf l r l' H. unfold mbind in H.
  destruct (m l) as [[a|] l1] eqn:E.
  - destruct (Hm _ _ _ E) as [e1 [-> F1]].
    destruct (Hf a _ _ _ H) as [e2 [-> F2]].
    exists (e1 ++ e2)%list. rewrite app_assoc. split; [reflexivity|].
    apply Forall_app. now split.
  - inversion H; subst. exact (Hm _ _ _ E).
Qed.

Lemma appends_try P {A} (body handler : M A) :
  appends P body -> appends P handler -> appends P (try_except body handler).
Proof.
  intros Hb Hh l r l' H. unfold try_except in H.
  destruct (body l) as [[a|] l1] eqn:E.
  - inversion H; subst. exact (Hb _ _ _ E).
  - destruct (Hb _ _ _ E) as [e1 [-> F1]].
    destruct (Hh _ _ _ H) as [e2 [-> F2]].
    exists (e1 ++ e2)%list. rewrite app_assoc. split; [reflexivity|].
    apply Forall_app. now split.
Qed.

Lemma appends_mbind_Ok P {A B} (a : A) (f : A -> M B) :
  appends P (f a) -> appends P (mbind (lift (Ok a)) f).
Proof.
  intros H l r l' E. exact (H l r l' E).
Qed.

Lemma appends_if P {A} (b : bool) (m1 m2 : M A) :
  appends P m1 -> appends P m2 -> appends P (if b then m1 else m2).
Proof. destruct b; auto. Qed.

Ltac appends_tac :=
  repeat first
    [ apply appends_mret
    | apply appends_lift
    | apply appends_try
    | apply appends_if
    | apply appends_mbind; [|intros ?]
    | match goal with |- appends _ (match ?x with _ => _ end) => destruct x end ].

Lemma fetch_crossref_by_doi_requests w doi :
  appends not_citation (fetch_crossref_by_doi w doi).
Proof.
  unfold fetch_crossref_by_doi. appends_tac. now apply appends_get.
Qed.

Lemma fetch_crossref_by_title_requests w title :
  appends not_citation (fetch_crossref_by_title w title).
Proof.
  unfold fetch_crossref_by_title. appends_tac. now apply appends_get.
Qed.

Lemma fetch_unpaywall_requests w doi email :
  appends not_citation (fetch_unpaywall w doi email).
Proof.
  unfold fetch_unpaywall. appends_tac. now apply appends_get.
Qed.

Lemma fetch_semanticscholar_by_title_requests w d title :
  appends (block_request d) (fetch_semanticscholar_by_title w title).
Proof.
  unfold fetch_semanticscholar_by_title. appends_tac.
  apply appends_get. now right.
Qed.

Lemma resolve_citations_requests w d title cited :
  appends (block_request d) (resolve_citations w (PStr d) title cited).
Proof.
  unfold resolve_citations. apply appends_mbind.
  - unfold citations_by_doi. destruct (truthy (PStr d)) eqn:Ht;
      [|apply appends_mret].
    apply appends_mbind.
    + unfold fetch_semanticscholar_by_doi. simpl quote_plus.
      apply appends_try; [|apply appends_mret].
      apply appends_mbind_Ok. appends_tac.
      apply appends_get. left. split; [reflexivity|].
      intros ->. discriminate.
    + intros [[c y] r]. apply appends_mret.
  - intros [c1 r1]. apply appends_mbind.
    + unfold citations_by_title. apply appends_if; [|apply appends_mret].
      apply appends_mbind; [apply fetch_semanticscholar_by_title_requests|].
      intros [[[sc_cit sc_year] sc_r] sc_ext]. appends_tac.
    + intros [[c2 d'] r2]. apply appends_mret.
Qed.

(** The answer of the lookup by DOI does not depend on the log. *)
Lemma fetch_semanticscholar_by_doi_answer w doi l :
  fst (fetch_semanticscholar_by_doi w doi l)
  = fst (fetch_semanticscholar_by_doi w doi []).
Proof.
  unfold fetch_semanticscholar_by_doi, try_except, mbind, lift, requests_get,
    mret.
  destruct (quote_plus doi) as [d|]; [|reflexivity].
  destruct (w (S2Paper d)) as [r|]; [|reflexivity].
  destruct (status_code r =? 200)%Z; [|reflexivity].
  destruct (json r) as [j|]; [|reflexivity].
  destruct (py_get j "citationCount" (PInt 0)) as [cc|]; [|reflexivity].
  destruct (py_int (py_or cc (PInt 0))) as [n|]; [|reflexivity].
  destruct (py_get j "year" PNone) as [yy|]; [|reflexivity].
  destruct (py_get j "isRetracted" (PBool false)) as [t|]; reflexivity.
Qed.

Lemma not_citation_filter (ext : list request) :
  Forall not_citation ext -> filter is_title_search ext = [].
Proof.
  induction 1 as [|q ext Hq _ IH]; [reflexivity|]. simpl. rewrite IH.
  destruct q; simpl; try reflexivity; discriminate Hq.
Qed.

Lemma not_citation_paper (ext : list request) (d : string) :
  Forall not_citation ext -> ~ In (S2Paper d) ext.
Proof.
  intros H Hin. rewrite Forall_forall in H. specialize (H _ Hin).
  discriminate H.
Qed.

(* ------------------------------------------------------------------ *)
(** * Properties of the resolvers *)

(** C9: the openness resolver never raises; without a DOI it answers
    [False] and issues no request; when the query fails at the transport
    level, answers with a status other than 200, or carries a payload that
    cannot be read, it answers [False]. *)
Theorem fetch_unpaywall_never_raises (w : world) (doi : pyval) (email : string)
    (l : list request) :
  (exists b l', fetch_unpaywall w doi email l = (Ok b, l'))
  /\ (truthy doi = false -> fetch_unpaywall w doi email l = (Ok false, l))
  /\ (w (Unpaywall doi email) = Raise ->
      fst (fetch_unpaywall w doi email l) = Ok false)
  /\ (forall r, w (Unpaywall doi email) = Ok r -> status_code r <> 200%Z ->
      fst (fetch_unpaywall w doi email l) = Ok false)
  /\ (forall r, w (Unpaywall doi email) = Ok r -> json r = Raise ->
      fst (fetch_unpaywall w doi email l) = Ok false).
Proof.
  unfold fetch_unpaywall, try_except, mbind, requests_get, lift, mret.
  destruct (truthy doi); simpl.
  - destruct (w (Unpaywall doi email)) as [r|] eqn:Er.
    + destruct (status_code r =? 200)%Z eqn:Es.
      * destruct (json r) as [j|] eqn:Ej.
        -- destruct (py_get j "is_oa" (PBool false)) as [v|] eqn:Ev;
             (split; [eauto|]); (split; [discriminate|]);
             (split; [discriminate|]);
             (split; intros r' Hr'; inversion Hr'; subst;
                [apply Z.eqb_eq in Es; congruence | congruence]).
        -- split; [eauto|]. split; [discriminate|]. split; [discriminate|].
           split; reflexivity.
      * split; [eauto|]. split; [discriminate|]. split; [discriminate|].
        split; reflexivity.
    + split; [eauto|]. split; [discriminate|]. split; [reflexivity|].
      split; discriminate.
  - split; [eauto|]. split; [reflexivity|]. split; [reflexivity|].
    split; reflexivity.
Qed.

Lemma fetch_unpaywall_never_raises_witness :
  fetch_unpaywall offline (PStr "") "me@example.org" [] = (Ok false, [])
  /\ fst (fetch_unpaywall offline (PStr "10.1000/xyz") "me@example.org" [])
     = Ok false
  /\ fst (fetch_unpaywall
            (fun _ => Ok {| status_code := 404; json := Raise |})
            (PStr "10.1000/xyz") "me@example.org" [])
     = Ok false.
Proof.
  split; [|split].
  - apply (fetch_unpaywall_never_raises offline (PStr "") "me@example.org" []).
    reflexivity.
  - apply (fetch_unpaywall_never_raises offline (PStr "10.1000/xyz")
             "me@example.org" []).
    reflexivity.
  - apply (proj1 (proj2 (proj2 (proj2
             (fetch_unpaywall_never_raises
                (fun _ => Ok {| status_code := 404; json := Raise |})
                (PStr "10.1000/xyz") "me@example.org" []))))
             {| status_code := 404; json := Raise |});
      [reflexivity | discriminate].
Defined.

Lemma try_except_total {A} (body : M A) (dflt : A) (l : list request) :
  exists a l', try_except body (mret dflt) l = (Ok a, l').
Proof.
  unfold try_except, mret. destruct (body l) as [[a|] l']; eauto.
Qed.

Lemma fetch_semanticscholar_by_title_total w title l :
  exists c y r e l',
    fetch_semanticscholar_by_title w title l = (Ok (c, y, r, e), l').
Proof.
  unfold fetch_semanticscholar_by_title.
  destruct (try_except_total
    (mbind (requests_get w (S2Search title)) (fun r =>
       if (status_code r =? 200)%Z then
         mbind (lift (json r)) (fun j =>
         mbind (lift (py_get j "data" (PList []))) (fun data =>
         if truthy data then
           mbind (lift (py_item0 data)) (fun item =>
           mbind (lift (py_get item "citationCount" (PInt 0))) (fun c =>
           mbind (lift (py_int (py_or c (PInt 0)))) (fun n =>
           mbind (lift (py_get item "year" PNone)) (fun y =>
           mbind (lift (py_get item "isRetracted" (PBool false))) (fun t =>
           mbind (lift (py_get item "externalIds" (PDict []))) (fun e =>
           mret (n, y, truthy t, e)))))))
         else mret (0%Z, PNone, false, PDict [])))
       else mret (0%Z, PNone, false, PDict [])))
    (0%Z, PNone, false, PDict []) l) as [[[[c y] r] e] [l' H]].
  exists c, y, r, e, l'. exact H.
Qed.

Lemma citations_by_doi_total w doi_final l :
  exists c r l', citations_by_doi w doi_final l = (Ok (c, r), l').
Proof.
  unfold citations_by_doi. destruct (truthy doi_final).
  - unfold mbind, fetch_semanticscholar_by_doi, try_except.
    match goal with
    | |- context [match ?b l with _ => _ end] => destruct (b l) as [[[[c y] r]|] l1]
    end; unfold mret; eauto.
  - unfold mret. eauto.
Qed.

(** The lookup by DOI reads the network at its own request only. *)
Lemma fetch_semanticscholar_by_doi_ext w w' doi l :
  (forall d, w' (S2Paper d) = w (S2Paper d)) ->
  fetch_semanticscholar_by_doi w' doi l = fetch_semanticscholar_by_doi w doi l.
Proof.
  intros Hw. unfold fetch_semanticscholar_by_doi, try_except, mbind, lift,
    requests_get.
  destruct (quote_plus doi) as [d|]; [|reflexivity].
  rewrite (Hw d). reflexivity.
Qed.

(** A non-zero count from the lookup by DOI closes the citation block:
    the result is that of the first step and the log is the log of the
    first step. *)
Lemma resolve_citations_doi_hit w doi_final title cited l c y r l1 :
  truthy doi_final = true ->
  fetch_semanticscholar_by_doi w doi_final l = (Ok (c, y, r), l1) ->
  c <> 0%Z ->
  resolve_citations w doi_final title cited l = (Ok (c, doi_final, r), l1).
Proof.
  intros Hd Hf Hc. apply Z.eqb_neq in Hc.
  unfold resolve_citations, citations_by_doi, citations_by_title, mbind, mret.
  rewrite Hd, Hf. simpl. rewrite Hc. simpl. rewrite Hc. reflexivity.
Qed.

(** The requests of the lookup by DOI: at most one, to the paper endpoint. *)
Lemma fetch_semanticscholar_by_doi_log w doi l res l1 :
  fetch_semanticscholar_by_doi w doi l = (res, l1) ->
  l1 = l \/ exists d, doi = PStr d /\ l1 = (l ++ [S2Paper d])%list.
Proof.
  unfold fetch_semanticscholar_by_doi, try_except, mbind, lift, requests_get.
  destruct doi; simpl; try (intros H; inversion H; now left).
  intros H. right. exists s. split; [reflexivity|].
  destruct (w (S2Paper s)) as [r|]; [|now inversion H].
  destruct (status_code r =? 200)%Z; [|now inversion H].
  destruct (json r) as [j|]; [|now inversion H].
  destruct (py_get j "citationCount" (PInt 0)) as [cc|]; [|now inversion H].
  destruct (py_int (py_or cc (PInt 0))) as [n|]; [|now inversion H].
  destruct (py_get j "year" PNone) as [yy|]; [|now inversion H].
  destruct (py_get j "isRetracted" (PBool false)) as [t|]; now inversion H.
Qed.

(** In a run of [process_article], a lookup by DOI that was made and
    reports a non-zero count decides the citation fields of the row, and
    the run issues no lookup by title. *)
Lemma process_article_doi_hit w email CY art l row l' :
  process_article w email CY art l = (Ok row, l') ->
  exists ext, l' = (l ++ ext)%list /\
    forall d c y r l1,
      In (S2Paper d) ext ->
      fetch_semanticscholar_by_doi w (PStr d) [] = (Ok (c, y, r), l1) ->
      c <> 0%Z ->
      Citations row = c /\ Is_Retracted row = r /\ DOI row = PStr d
      /\ filter is_title_search ext = [].
Proof.
  unfold process_article. intros H. repeat run_step. run_done. subst.
  match goal with
  | R2 : (if truthy ?doi then fetch_crossref_by_doi w ?doi else _) l = (_, ?l0),
    R3 : (if negb _ then fetch_crossref_by_title w ?t else _) ?l0 = (_, ?l1),
    R14 : resolve_citations w (PStr ?d0) ?t _ ?l1 = (Ok (?z, ?p, ?b), ?l2),
    R15 : (if truthy ?p then fetch_unpaywall w ?p email else _) ?l2 = (_, ?l3)
    |- _ =>
      destruct (appends_if not_citation (truthy doi) _ _
                  (fetch_crossref_by_doi_requests w doi)
                  (appends_mret not_citation (PDict [])) _ _ _ R2)
        as [e1 [-> F1]];
      destruct (appends_if not_citation _ _ _
                  (fetch_crossref_by_title_requests w t)
                  (appends_mret not_citation _) _ _ _ R3)
        as [e2 [-> F2]];
      destruct (resolve_citations_requests w d0 t _ _ _ _ R14) as [eb [-> Fb]];
      destruct (appends_if not_citation (truthy p) _ _
                  (fetch_unpaywall_requests w p email)
                  (appends_mret not_citation false) _ _ _ R15)
        as [e3 [-> F3]];
      rename R14 into Rb; rename d0 into doi_final
  end.
  exists (e1 ++ e2 ++ eb ++ e3)%list. split; [now rewrite <- !app_assoc|].
  intros d c y r l1 Hin Hf Hc. simpl.
  rewrite !in_app_iff in Hin.
  destruct Hin as [Hin | [Hin | [Hin | Hin]]];
    [ destruct (not_citation_paper _ _ F1 Hin)
    | destruct (not_citation_paper _ _ F2 Hin)
    |
    | destruct (not_citation_paper _ _ F3 Hin) ].
  rewrite Forall_forall in Fb.
  destruct (Fb _ Hin) as [[Heq Hne] | Hts]; [|discriminate Hts].
  inversion Heq; subst doi_final.
  assert (Htr : truthy (PStr d) = true).
  { simpl. apply negb_true_iff. now apply String.eqb_neq. }
  pose proof (fetch_semanticscholar_by_doi_answer w (PStr d)
                ((l ++ e1) ++ e2)%list) as Ha.
  rewrite Hf in Ha. simpl in Ha.
  destruct (fetch_semanticscholar_by_doi w (PStr d) ((l ++ e1) ++ e2)%list)
    as [x lx] eqn:Ef.
  simpl in Ha. subst x.
  pose proof (resolve_citations_doi_hit w (PStr d) v0 (cited_by_of art) _ c y r
                lx Htr Ef Hc) as Hres.
  rewrite Hres in Rb. inversion Rb; subst.
  unfold py_or. rewrite Htr.
  repeat split.
  rewrite !filter_app, (not_citation_filter _ F1), (not_citation_filter _ F2),
    (not_citation_filter _ F3), app_nil_r. simpl.
  destruct (fetch_semanticscholar_by_doi_log _ _ _ _ _ Ef) as [E | [d' [Hd' E]]].
  - assert (Hb : eb = []).
    { apply (app_inv_head ((l ++ e1) ++ e2)%list). now rewrite app_nil_r. }
    now rewrite Hb.
  - apply app_inv_head in E. now rewrite E.
Qed.

(** C4: with a non-empty resolved DOI, a non-zero citation count from the
    lookup by DOI ends the citation block: the block returns the result of
    that lookup, no lookup by title is added to the log, and the result is
    the same on every network that answers the lookup by DOI alike,
    whatever it answers to a lookup by title.  Hence, for every stub, when
    the run of [process_article] made the lookup by DOI and its count is
    not zero, the row carries that count, flag and DOI, and no lookup by
    title is among the requests of the run. *)
Theorem title_lookup_not_attempted :
  (forall (w : world) (doi_final : pyval) (title : string) (cited : Z)
          (l l1 : list request) (c : Z) (y : pyval) (r : bool),
      truthy doi_final = true ->
      fetch_semanticscholar_by_doi w doi_final l = (Ok (c, y, r), l1) ->
      c <> 0%Z ->
      resolve_citations w doi_final title cited l = (Ok (c, doi_final, r), l1)
      /\ filter is_title_search l1 = filter is_title_search l
      /\ (forall w', (forall d, w' (S2Paper d) = w (S2Paper d)) ->
            resolve_citations w' doi_final title cited l
            = (Ok (c, doi_final, r), l1)))
  /\ (forall (w : world) (email : string) (CY : Z) (art : pyval)
             (l l' : list request) (row : row),
        process_article w email CY art l = (Ok row, l') ->
        exists ext, l' = (l ++ ext)%list /\
          forall d c y r l1,
            In (S2Paper d) ext ->
            fetch_semanticscholar_by_doi w (PStr d) [] = (Ok (c, y, r), l1) ->
            c <> 0%Z ->
            Citations row = c /\ Is_Retracted row = r /\ DOI row = PStr d
            /\ filter is_title_search ext = []).
Proof.
  split.
  - intros w doi_final title cited l l1 c y r Hd Hf Hc. split; [|split].
    + now apply (resolve_citations_doi_hit w doi_final title cited l c y r l1).
    + destruct (fetch_semanticscholar_by_doi_log _ _ _ _ _ Hf)
        as [-> | [d [_ ->]]]; [reflexivity|].
      rewrite filter_app. simpl. now rewrite app_nil_r.
    + intros w' Hw.
      apply (resolve_citations_doi_hit w' doi_final title cited l c y r l1);
        [exact Hd | | exact Hc].
      rewrite (fetch_semanticscholar_by_doi_ext w w' doi_final l Hw). exact Hf.
  - intros w email CY art l l' row H.
    exact (process_article_doi_hit w email CY art l row l' H).
Qed.

Lemma title_lookup_not_attempted_witness :
  (resolve_citations cited_by_doi (PStr "10.1000/xyz") "T" 3 []
   = (Ok (7%Z, PStr "10.1000/xyz", false), [S2Paper "10.1000/xyz"])
   /\ filter is_title_search [S2Paper "10.1000/xyz"] = filter is_title_search [])
  /\ (exists row l',
        process_article cited_by_doi "me@example.org" 2025 stub_with_doi []
        = (Ok row, l')
        /\ In (S2Paper "10.1000/xyz") l'
        /\ Citations row = 7%Z /\ Is_Retracted row = false
        /\ DOI row = PStr "10.1000/xyz"
        /\ filter is_title_search l' = []).
Proof.
  destruct title_lookup_not_attempted as [Hblock Hrun]. split.
  - destruct (Hblock cited_by_doi (PStr "10.1000/xyz") "T" 3%Z
                [] [S2Paper "10.1000/xyz"] 7%Z (PInt 2020) false)
      as [H1 [H2 _]]; [reflexivity | reflexivity | discriminate |].
    split; [exact H1 | exact H2].
  - destruct (process_article cited_by_doi "me@example.org" 2025 stub_with_doi [])
      as [[row|] l'] eqn:E; [|vm_compute in E; discriminate E].
    destruct (Hrun _ _ _ _ _ _ _ E) as [ext [-> Hext]].
    assert (Hin : In (S2Paper "10.1000/xyz") ext).
    { vm_compute in E. inversion E. simpl. auto. }
    destruct (Hext "10.1000/xyz" 7%Z (PInt 2020) false
                [S2Paper "10.1000/xyz"] Hin eq_refl)
      as [Hc [Hr [Hd Hf]]]; [discriminate|].
    exists row, ([] ++ ext)%list. repeat split; assumption.
Defined.

Lemma citations_by_title_flag w title doi_final c1 r1 l1 sc_cit sc_year sc_r
    sc_ext l2 c d r l' :
  fetch_semanticscholar_by_title w title l1
  = (Ok (sc_cit, sc_year, sc_r, sc_ext), l2) ->
  citations_by_title w title doi_final c1 r1 l1 = (Ok (c, d, r), l') ->
  r = r1 || ((negb (truthy doi_final) || ((c1 =? 0)%Z && negb r1))
             && negb (sc_cit =? 0)%Z && sc_r).
Proof.
  intros Hf. unfold citations_by_title.
  destruct (negb (truthy doi_final) || ((c1 =? 0)%Z && negb r1)) eqn:Ea.
  - unfold mbind at 1. rewrite Hf.
    destruct (negb (sc_cit =? 0)%Z) eqn:Ec; simpl.
    + intros H. run_inv H. run_done.
      match goal with E : (_, _, _) = (_, _, _) |- _ => now inversion E end.
    + intros H. run_done.
      match goal with E : (_, _, _) = (_, _, _) |- _ => inversion E end.
      now rewrite orb_false_r.
  - intros H. run_done.
    match goal with E : (_, _, _) = (_, _, _) |- _ => inversion E end.
    now rewrite orb_false_r.
Qed.

(** The retraction flag of the citation block in terms of its two steps. *)
Lemma resolve_citations_flag (w : world) (doi_final : pyval)
    (title : string) (cited : Z) (l : list request) :
  exists c1 r1 l1 sc_cit sc_year sc_r sc_ext l2,
    citations_by_doi w doi_final l = (Ok (c1, r1), l1)
    /\ fetch_semanticscholar_by_title w title l1
       = (Ok (sc_cit, sc_year, sc_r, sc_ext), l2)
    /\ (forall c d r l',
          resolve_citations w doi_final title cited l = (Ok (c, d, r), l') ->
          r = r1 || ((negb (truthy doi_final) || ((c1 =? 0)%Z && negb r1))
                     && negb (sc_cit =? 0)%Z && sc_r)
          /\ (r1 = true -> r = true))
    /\ ((exists e, sc_ext = PDict e) ->
        exists c d r l',
          resolve_citations w doi_final title cited l = (Ok (c, d, r), l')).
Proof.
  destruct (citations_by_doi_total w doi_final l) as [c1 [r1 [l1 H1]]].
  destruct (fetch_semanticscholar_by_title_total w title l1)
    as [sc_cit [sc_year [sc_r [sc_ext [l2 H2]]]]].
  exists c1, r1, l1, sc_cit, sc_year, sc_r, sc_ext, l2.
  split; [exact H1|]. split; [exact H2|]. split.
  - intros c d r l' H. unfold resolve_citations in H.
    unfold mbind at 1 in H. rewrite H1 in H. run_inv H.
    match goal with v : (Z * pyval * bool)%type |- _ => destruct v as [[c2 d2] r2] end.
    run_done.
    match goal with E : (_, _, _) = (_, _, _) |- _ => inversion E; subst end.
    match goal with
    | R : citations_by_title _ _ _ _ _ _ = _ |- _ =>
        pose proof (citations_by_title_flag _ _ _ _ _ _ _ _ _ _ _ _ _ _ _ H2 R) as Hr
    end.
    split; [exact Hr|]. intros ->. rewrite Hr. reflexivity.
  - intros [e ->]. unfold resolve_citations, mbind at 1. rewrite H1.
    unfold citations_by_title, mbind.
    destruct (negb (truthy doi_final) || ((c1 =? 0)%Z && negb r1));
      [|unfold mret; eauto].
    rewrite H2. destruct (negb (sc_cit =? 0)%Z); [|unfold mret; eauto].
    destruct (negb (truthy doi_final)); unfold lift, mret; simpl; eauto.
Qed.

(** C3, as the code has it: the final retraction flag is the flag of the
    lookup by DOI (false when that lookup is not made) or-ed with the flag
    of the lookup by title when that lookup is made and reports a non-zero
    citation count; a flag that the first step set is never reset; the
    block does produce a result whenever the identifiers returned by the
    lookup by title are a dictionary; and the flag of every row is the
    flag of its citation block. *)
Theorem retraction_flag_of_used_steps :
  (forall (w : world) (doi_final : pyval) (title : string) (cited : Z)
          (l : list request),
      exists c1 r1 l1 sc_cit sc_year sc_r sc_ext l2,
        citations_by_doi w doi_final l = (Ok (c1, r1), l1)
        /\ fetch_semanticscholar_by_title w title l1
           = (Ok (sc_cit, sc_year, sc_r, sc_ext), l2)
        /\ (forall c d r l',
              resolve_citations w doi_final title cited l = (Ok (c, d, r), l') ->
              r = r1 || ((negb (truthy doi_final) || ((c1 =? 0)%Z && negb r1))
                         && negb (sc_cit =? 0)%Z && sc_r)
              /\ (r1 = true -> r = true))
        /\ ((exists e, sc_ext = PDict e) ->
            exists c d r l',
              resolve_citations w doi_final title cited l = (Ok (c, d, r), l')))
  /\ (forall (w : world) (email : string) (CY : Z) (art : pyval)
             (l l' : list request) (row : row),
        process_article w email CY art l = (Ok row, l') ->
        exists doi_final title_serp lb c1 r1 l1 sc_cit sc_year sc_r sc_ext l2,
          citations_by_doi w (PStr doi_final) lb = (Ok (c1, r1), l1)
          /\ fetch_semanticscholar_by_title w title_serp l1
             = (Ok (sc_cit, sc_year, sc_r, sc_ext), l2)
          /\ Is_Retracted row
             = r1 || ((negb (truthy (PStr doi_final))
                       || ((c1 =? 0)%Z && negb r1))
                      && negb (sc_cit =? 0)%Z && sc_r)
          /\ (r1 = true -> Is_Retracted row = true)).
Proof.
  split.
  - exact resolve_citations_flag.
  - intros w email CY art l l' row H.
    destruct (process_article_citation_block _ _ _ _ _ _ _ H)
      as [doi_final [title_serp [doi' [lb [l2' [Hb _]]]]]].
    destruct (resolve_citations_flag w (PStr doi_final) title_serp
                (cited_by_of art) lb)
      as [c1 [r1 [l1 [sc_cit [sc_year [sc_r [sc_ext [l2 [H1 [H2 [Hr _]]]]]]]]]]].
    destruct (Hr _ _ _ _ Hb) as [Hflag Hsticky].
    exists doi_final, title_serp, lb, c1, r1, l1, sc_cit, sc_year, sc_r,
      sc_ext, l2.
    auto.
Qed.

Lemma retraction_flag_of_used_steps_witness :
  exists c d r l',
    resolve_citations cited_by_doi (PStr "") "T" 0 [] = (Ok (c, d, r), l')
    /\ r = true.
Proof.
  destruct (proj1 retraction_flag_of_used_steps cited_by_doi (PStr "") "T"
              0%Z [])
    as [c1 [r1 [l1 [sc_cit [sc_year [sc_r [sc_ext [l2 [H1 [H2 [Hr _]]]]]]]]]]].
  vm_compute in H1. inversion H1; subst.
  vm_compute in H2. inversion H2; subst.
  destruct (resolve_citations cited_by_doi (PStr "") "T" 0 [])
    as [[[[c d] r]|] l'] eqn:E; [|vm_compute in E; discriminate E].
  exists c, d, r, l'. split; [reflexivity|].
  destruct (Hr _ _ _ _ eq_refl) as [Hflag _]. rewrite Hflag. reflexivity.
Defined.

(** The claim C3 as stated fails: a lookup by title that is made and
    reports a retraction together with a zero citation count leaves the
    record's flag false. *)
Lemma retraction_or_counterexample :
  fetch_semanticscholar_by_title retracted_uncited "T" []
  = (Ok (0%Z, PNone, true, PDict []), [S2Search "T"])
  /\ resolve_citations retracted_uncited (PStr "") "T" 0 []
     = (Ok (0%Z, PStr "", false), [S2Search "T"])
  /\ exists row l',
       process_article retracted_uncited "me@example.org" 2025 stub_plain []
       = (Ok row, l')
       /\ In (S2Search "T") l'
       /\ Is_Retracted row = false.
Proof.
  split; [reflexivity|]. split; [reflexivity|].
  do 2 eexists. split; [vm_compute; reflexivity|].
  split; [simpl; auto | reflexivity].
Qed.

(* ------------------------------------------------------------------ *)
(** * Properties of the record merger *)

Lemma mbind_lift {A B} (a : A) (f : A -> M B) l :
  mbind (lift (Ok a)) f l = f a l.
Proof. reflexivity. Qed.

Lemma mbind_mret {A B} (a : A) (f : A -> M B) l :
  mbind (mret a) f l = f a l.
Proof. reflexivity. Qed.

Lemma mbind_run {A B} (m : M A) (f : A -> M B) l a l1 :
  m l = (Ok a, l1) -> mbind m f l = f a l1.
Proof. intros H. unfold mbind. now rewrite H. Qed.

Lemma fst_run {A} (m : M A) l (a : A) :
  fst (m l) = Ok a -> exists l1, m l = (Ok a, l1).
Proof. destruct (m l) as [x l1]. simpl. intros ->. eauto. Qed.

Lemma stub_num_authors_total d n0 :
  exists n, stub_num_authors (PDict d) n0 = Ok n.
Proof.
  unfold stub_num_authors. destruct (n0 =? 0)%Z; [|eauto]. simpl.
  destruct (truthy _); simpl.
  - destruct (match assoc "authors" d with Some x => x | None => PNone end); eauto.
  - destruct (py_or _ _); eauto.
Qed.

(** The registry record, the venue and the year behind a row. *)
Lemma process_article_registry w email CY art l row l' :
  process_article w email CY art l = (Ok row, l') ->
  exists cr la y,
    registry_record w art l = (Ok cr, la)
    /\ journal_of cr art = Ok (Journal row)
    /\ year_of cr art = Ok y
    /\ row_year y = Ok (Year row).
Proof.
  unfold process_article. intros H. repeat run_step. run_done. subst row. simpl.
  match goal with
  | R0 : py_get art "title" _ = Ok ?t0,
    R1 : py_strip ?t0 = Ok ?ts,
    Rd : extract_doi_from_serp_item art = Ok ?doi,
    R2 : (if truthy ?doi then fetch_crossref_by_doi w ?doi else _) l
         = (Ok ?cra, ?la),
    R3 : (if negb (truthy ?cra) then fetch_crossref_by_title w ?ts else _) ?la
         = (Ok ?cr, ?lb),
    R5 : journal_of ?cr art = Ok ?j,
    R8 : year_of ?cr art = Ok ?y,
    R16 : row_year ?y = Ok ?yy |- _ =>
      exists cr, lb, y; split; [|auto];
      unfold registry_record;
      rewrite R0, mbind_lift, R1, mbind_lift, Rd, mbind_lift,
        (mbind_run _ _ _ _ _ R2); exact R3
  end.
Qed.

(** A key read with a truthy result is present: the default plays no part. *)
Lemma py_get_truthy (v : pyval) (k : string) (t dflt : pyval) :
  py_get v k PNone = Ok t -> truthy t = true -> py_get v k dflt = Ok t.
Proof.
  destruct v; simpl; try discriminate.
  destruct (assoc k d) as [x|]; intros H; inversion H; subst;
    [reflexivity | discriminate].
Qed.

Lemma journal_of_text_publication (cr art j : pyval) (s : string) :
  journal_of cr art = Ok j ->
  py_get art "publication" (PDict []) = Ok (PStr s) ->
  exists c, py_get cr "container-title" PNone = Ok c
            /\ truthy c = true /\ py_item0 c = Ok j.
Proof.
  unfold journal_of. intros H Hp.
  apply rbind_Ok in H. destruct H as [c [Hc H]].
  destruct (truthy c) eqn:Tc.
  - exists c. split; [exact Hc|]. split; [exact Tc|].
    rewrite (py_get_truthy cr "container-title" c _ Hc Tc) in H. exact H.
  - rewrite Hp in H. discriminate H.
Qed.

(** With a stub whose "publication" entry is not a mapping, the venue can
    only come from the registry. *)
Lemma journal_of_registry_venue (cr art j pub : pyval) :
  journal_of cr art = Ok j ->
  py_get art "publication" (PDict []) = Ok pub ->
  (forall d, pub <> PDict d) ->
  exists c, py_get cr "container-title" PNone = Ok c
            /\ truthy c = true /\ py_item0 c = Ok j.
Proof.
  unfold journal_of. intros H Hp Hn.
  apply rbind_Ok in H. destruct H as [c [Hc H]].
  destruct (truthy c) eqn:Tc.
  - exists c. split; [exact Hc|]. split; [exact Tc|].
    rewrite (py_get_truthy cr "container-title" c _ Hc Tc) in H. exact H.
  - rewrite Hp in H. simpl in H.
    destruct pub as [| | | | | |d]; try discriminate H.
    exfalso. now apply (Hn d).
Qed.

(** Scenario A, as far as the venue and the year of the stub can be read. *)
Lemma scenario_record (w : world) (email : string) (CY : Z)
    (art : pyval) (cb : list (string * pyval)) (t : string) (doi j y : pyval)
    (yy : option Z) (l : list request) :
  py_get art "cited_by" PNone = Ok (PDict cb) ->
  py_get (PDict cb) "value" (PInt 0) = Ok (PInt 12) ->
  py_get art "title" (PStr "") = Ok (PStr t) ->
  extract_doi_from_serp_item art = Ok doi -> truthy doi = false ->
  (forall l0, fst (fetch_crossref_by_title w (strip t) l0) = Ok (PDict [])) ->
  (forall l0, fst (fetch_semanticscholar_by_title w (strip t) l0)
              = Ok (0%Z, PNone, false, PDict [])) ->
  journal_of (PDict []) art = Ok j ->
  year_of (PDict []) art = Ok y ->
  row_year y = Ok yy ->
  exists row l',
    process_article w email CY art l = (Ok row, l')
    /\ Citations row = 12%Z /\ DOI row = PStr "" /\ is_OA row = false.
Proof.
  intros Hcb Hval Ht Hdoi Hfalsy Hcr Hs2 Hj Hy Hyy.
  destruct art as [| | | | | |d]; try discriminate.
  destruct (stub_num_authors_total d 0) as [na Hna].
  assert (Hc : cited_by_of (PDict d) = 12%Z).
  { unfold cited_by_of. rewrite Hcb. unfold rbind. rewrite Hval. reflexivity. }
  destruct (fst_run _ _ _ (Hcr l)) as [l1 Ecr].
  destruct (fst_run _ _ _ (Hs2 l1)) as [l2 Es2].
  assert (Hd : py_or PNone (py_or doi (PStr "")) = PStr "").
  { unfold py_or at 1. simpl truthy. cbv iota. unfold py_or. now rewrite Hfalsy. }
  assert (Hres : resolve_citations w (PStr "") (strip t) 12 l1
                 = (Ok (12%Z, PStr "", false), l2)).
  { unfold resolve_citations, citations_by_doi. simpl truthy. cbv iota.
    rewrite mbind_mret. cbv beta iota. unfold citations_by_title.
    simpl truthy. simpl negb. simpl orb. cbv iota.
    unfold mbind. rewrite Es2. reflexivity. }
  unfold process_article.
  rewrite Ht, mbind_lift. change (py_strip (PStr t)) with (Ok (strip t)).
  rewrite mbind_lift, Hdoi, mbind_lift, Hfalsy, mbind_mret.
  simpl truthy. simpl negb. cbv iota.
  rewrite (mbind_run _ _ _ _ _ Ecr).
  change (title_of (PDict []) (strip t)) with (Ok (PStr (strip t))).
  rewrite mbind_lift, Hj, mbind_lift.
  change (py_get (PDict []) "volume" (PStr "")) with (Ok (PStr "")).
  rewrite mbind_lift.
  change (py_get (PDict []) "issue" (PStr "")) with (Ok (PStr "")).
  rewrite mbind_lift, Hy, mbind_lift.
  simpl truthy. cbv iota. rewrite mbind_lift. cbv iota beta.
  rewrite Hna, !mbind_lift.
  change (py_get (PDict []) "DOI" PNone) with (Ok PNone).
  rewrite mbind_lift, Hd.
  change (py_strip (PStr "")) with (Ok "").
  rewrite mbind_lift, Hc, (mbind_run _ _ _ _ _ Hres).
  cbv iota beta. simpl truthy. cbv iota. rewrite mbind_mret, Hyy, mbind_lift.
  unfold mret. do 2 eexists. split; [reflexivity|]. simpl. auto.
Qed.

(** Without an identifier in the stub the registry is asked by title only. *)
Lemma registry_record_by_title (w : world) (art doi : pyval) (t : string)
    (cr : pyval) (l : list request) :
  py_get art "title" (PStr "") = Ok (PStr t) ->
  extract_doi_from_serp_item art = Ok doi -> truthy doi = false ->
  fst (fetch_crossref_by_title w (strip t) l) = Ok cr ->
  fst (registry_record w art l) = Ok cr.
Proof.
  intros Ht Hdoi Hfalsy Hcr.
  unfold registry_record.
  rewrite Ht, mbind_lift. change (py_strip (PStr t)) with (Ok (strip t)).
  rewrite mbind_lift, Hdoi, mbind_lift, Hfalsy, mbind_mret.
  exact Hcr.
Qed.

(** C5 (scenario A) against the code: take a stub with
    [cited_by.value = 12] and no DOI to be found in it, on a network whose
    registry lookup by title and citation lookup by title come back empty.
    Every record produced for it has 12 citations, an empty DOI and no open
    access, and a record is produced exactly when the venue and the year
    of the stub can be read.  When the "publication" entry of the stub is
    not a mapping (a text, as a profile lists the venue, or a list) the
    venue cannot be read: the processing raises and no record is produced,
    contrary to the scenario.  (Without a DOI the lookup by DOI is not
    made.) *)
Theorem scenario_stub_fallback (w : world) (email : string) (CY : Z)
    (art : pyval) (cb : list (string * pyval)) (t : string) (doi : pyval)
    (l : list request) :
  py_get art "cited_by" PNone = Ok (PDict cb) ->
  py_get (PDict cb) "value" (PInt 0) = Ok (PInt 12) ->
  py_get art "title" (PStr "") = Ok (PStr t) ->
  extract_doi_from_serp_item art = Ok doi -> truthy doi = false ->
  (forall l0, fst (fetch_crossref_by_title w (strip t) l0) = Ok (PDict [])) ->
  (forall l0, fst (fetch_semanticscholar_by_title w (strip t) l0)
              = Ok (0%Z, PNone, false, PDict [])) ->
  (forall row l',
     process_article w email CY art l = (Ok row, l') ->
     Citations row = 12%Z /\ DOI row = PStr "" /\ is_OA row = false)
  /\ ((exists row l', process_article w email CY art l = (Ok row, l'))
      <-> (exists j y yy,
             journal_of (PDict []) art = Ok j
             /\ year_of (PDict []) art = Ok y
             /\ row_year y = Ok yy))
  /\ (forall pub,
        py_get art "publication" (PDict []) = Ok pub ->
        (forall d, pub <> PDict d) ->
        fst (process_article w email CY art l) = Raise).
Proof.
  intros Hcb Hval Ht Hdoi Hfalsy Hcr Hs2.
  assert (Hinv : forall row l',
            process_article w email CY art l = (Ok row, l') ->
            exists y, journal_of (PDict []) art = Ok (Journal row)
                      /\ year_of (PDict []) art = Ok y
                      /\ row_year y = Ok (Year row)).
  { intros row l' H.
    destruct (process_article_registry _ _ _ _ _ _ _ H)
      as [cr [la [y [Hr [Hj [Hy Hyy]]]]]].
    pose proof (registry_record_by_title w art doi t _ l Ht Hdoi Hfalsy (Hcr l))
      as Hreg.
    rewrite Hr in Hreg. simpl in Hreg. inversion Hreg; subst cr. now exists y. }
  split; [|split].
  - intros row l' H. destruct (Hinv row l' H) as [y [Hj [Hy Hyy]]].
    destruct (scenario_record w email CY art cb t doi _ _ _ l
                Hcb Hval Ht Hdoi Hfalsy Hcr Hs2 Hj Hy Hyy)
      as [row0 [l0 [E P]]].
    rewrite H in E. inversion E; subst. exact P.
  - split.
    + intros [row [l' H]]. destruct (Hinv row l' H) as [y [Hj [Hy Hyy]]].
      now exists (Journal row), y, (Year row).
    + intros [j [y [yy [Hj [Hy Hyy]]]]].
      destruct (scenario_record w email CY art cb t doi _ _ _ l
                  Hcb Hval Ht Hdoi Hfalsy Hcr Hs2 Hj Hy Hyy)
        as [row [l' [E _]]].
      now exists row, l'.
  - intros pub Hp Hn.
    destruct (process_article w email CY art l) as [[row|] l'] eqn:E;
      [|reflexivity].
    exfalso. destruct (Hinv row l' eq_refl) as [y [Hj _]].
    destruct (journal_of_registry_venue _ _ _ _ Hj Hp Hn) as [c [Hc [Tc _]]].
    inversion Hc; subst c. discriminate Tc.
Qed.

Lemma scenario_stub_fallback_witness :
  (exists row l',
     process_article empty_results "me@example.org" 2025 stub_cited_12 []
     = (Ok row, l')
     /\ Citations row = 12%Z /\ DOI row = PStr "" /\ is_OA row = false)
  /\ fst (process_article empty_results "me@example.org" 2025
            stub_text_venue [])
     = Raise
  /\ fst (process_article empty_results "me@example.org" 2025
            stub_listed_venue [])
     = Raise.
Proof.
  split; [|split].
  - destruct (process_article empty_results "me@example.org" 2025
                stub_cited_12 []) as [[row|] l'] eqn:E;
      [|vm_compute in E; discriminate E].
    exists row, l'. split; [reflexivity|].
    apply (proj1 (scenario_stub_fallback empty_results "me@example.org" 2025
                    stub_cited_12 [("value", PInt 12)] "A study of things "
                    PNone [] eq_refl eq_refl eq_refl eq_refl eq_refl
                    (fun _ => eq_refl) (fun _ => eq_refl)) row l' E).
  - apply (proj2 (proj2 (scenario_stub_fallback empty_results "me@example.org"
                    2025 stub_text_venue [("value", PInt 12)]
                    "A study of things" PNone [] eq_refl eq_refl eq_refl
                    eq_refl eq_refl (fun _ => eq_refl) (fun _ => eq_refl)))
             (PStr "Journal of Things 12 (3), 2019")).
    + reflexivity.
    + intros d. discriminate.
  - apply (proj2 (proj2 (scenario_stub_fallback empty_results "me@example.org"
                    2025 stub_listed_venue [("value", PInt 12)]
                    "A study of things" PNone [] eq_refl eq_refl eq_refl
                    eq_refl eq_refl (fun _ => eq_refl) (fun _ => eq_refl)))
             (PList [PStr "Journal of Things"])).
    + reflexivity.
    + intros d. discriminate.
Defined.

(** C6, as the code has it: the merged title is the first entry of the
    registry's title list when the registry record has a non-empty title
    list, and the stripped stub title otherwise (in particular when the
    registry returned nothing); it is empty only when that first entry is
    empty, or when there is no such list and the stripped stub title is
    empty. *)
Theorem merged_title_priority (cr : pyval) (title_serp : string) :
  (forall x rest, py_get cr "title" PNone = Ok (PList (x :: rest)) ->
     title_of cr title_serp = Ok x)
  /\ (forall t, py_get cr "title" PNone = Ok t -> truthy t = false ->
        title_of cr title_serp = Ok (PStr title_serp))
  /\ (title_of cr title_serp = Ok (PStr "") ->
      (exists rest, py_get cr "title" PNone = Ok (PList (PStr "" :: rest)))
      \/ (title_serp = ""
          /\ exists t, py_get cr "title" PNone = Ok t /\ truthy t = false))
  /\ title_of (PDict []) title_serp = Ok (PStr title_serp).
Proof.
  split; [|split; [|split]].
  - intros x rest H. unfold title_of. rewrite H. simpl.
    rewrite (py_get_truthy cr "title" (PList (x :: rest)) _ H eq_refl).
    reflexivity.
  - intros t H Hf. unfold title_of. rewrite H. simpl. now rewrite Hf.
  - unfold title_of. destruct (py_get cr "title" PNone) as [t|] eqn:E;
      simpl; [|discriminate].
    destruct (truthy t) eqn:Ht.
    + rewrite (py_get_truthy cr "title" t _ E Ht). simpl.
      destruct t as [| | | | s | [|x rest] | ]; simpl; try discriminate.
      * destruct s; discriminate.
      * intros H. inversion H. left. now exists rest.
    + intros H. inversion H. right. split; [reflexivity|]. now exists t.
  - reflexivity.
Qed.

Lemma merged_title_priority_witness :
  title_of (PDict [("title", PList [PStr "Registry title"])]) "Stub title"
  = Ok (PStr "Registry title")
  /\ title_of (PDict [("DOI", PStr "10.1000/xyz")]) "Stub title"
     = Ok (PStr "Stub title").
Proof.
  split.
  - apply (proj1 (merged_title_priority
                    (PDict [("title", PList [PStr "Registry title"])])
                    "Stub title") (PStr "Registry title") []).
    reflexivity.
  - apply (proj1 (proj2 (merged_title_priority
                           (PDict [("DOI", PStr "10.1000/xyz")])
                           "Stub title")) PNone);
      reflexivity.
Defined.

(** The claim C6 as stated fails: a registry match whose title entry is
    empty gives an empty merged title although the stub has a title, and
    so does, without a registry match, a stub title made of blanks. *)
Lemma merged_title_counterexample :
  py_get stub_plain "title" (PStr "") = Ok (PStr "T")
  /\ title_of (PDict [("title", PList [PStr ""])]) "T" = Ok (PStr "")
  /\ (exists row l',
        process_article untitled_registry "me@example.org" 2025 stub_plain []
        = (Ok row, l')
        /\ Title row = PStr "")
  /\ (exists row l',
        process_article offline "me@example.org" 2025
          (PDict [("title", PStr "  ")]) []
        = (Ok row, l')
        /\ Title row = PStr "").
Proof.
  split; [reflexivity|]. split; [reflexivity|]. split.
  - do 2 eexists. split; [vm_compute; reflexivity | reflexivity].
  - do 2 eexists. split; [vm_compute; reflexivity | reflexivity].
Qed.

Lemma no_registry_year_falsy (cr : pyval) :
  no_registry_year cr <-> truthy (registry_year cr) = false.
Proof.
  unfold no_registry_year, registry_year. split.
  - intros [E | [y1 [E1 [T1 [E2 | [y2 [E2 T2]]]]]]].
    + now rewrite E.
    + rewrite E1. simpl. rewrite T1, E2. reflexivity.
    + rewrite E1. simpl. rewrite T1, E2. exact T2.
  - destruct (date_part cr "issued") as [y1|]; [|now left].
    simpl. destruct (truthy y1) eqn:T1; [congruence|].
    intros H. right. exists y1. split; [reflexivity|]. split; [exact T1|].
    destruct (date_part cr "published-print") as [y2|]; [|now left].
    right. now exists y2.
Qed.

Lemma row_year_value (y : pyval) (yy : option Z) :
  row_year y = Ok yy ->
  (truthy y = false -> yy = None)
  /\ (truthy y = true -> exists z, py_int y = Ok z /\ yy = Some z).
Proof.
  unfold row_year. destruct (truthy y).
  - intros H. apply rbind_Ok in H. destruct H as [z [Hz H]]. inversion H.
    split; [discriminate|]. intros _. now exists z.
  - intros H. inversion H. split; [reflexivity | discriminate].
Qed.

(** C7, as the code has it: the year is the first truthy candidate in the
    order registry "issued", registry "published-print", stub year, stub
    nested publication year, each read only when those before it gave
    none, and a registry date that cannot be read leaves the registry
    without a year; the merged year is always one of these candidates.
    The row holds [int()] of it, whatever its number of digits, and holds
    no year (and not 0) when it is falsy. *)
Theorem year_priority :
  (forall cr art y1,
     date_part cr "issued" = Ok y1 -> truthy y1 = true ->
     year_of cr art = Ok y1)
  /\ (forall cr art y1 y2,
        date_part cr "issued" = Ok y1 -> truthy y1 = false ->
        date_part cr "published-print" = Ok y2 -> truthy y2 = true ->
        year_of cr art = Ok y2)
  /\ (forall cr art y3,
        no_registry_year cr ->
        py_get art "year" PNone = Ok y3 -> truthy y3 = true ->
        year_of cr art = Ok y3)
  /\ (forall cr art y3 pub y4,
        no_registry_year cr ->
        py_get art "year" PNone = Ok y3 -> truthy y3 = false ->
        py_get art "publication" (PDict []) = Ok pub ->
        py_get pub "year" PNone = Ok y4 ->
        year_of cr art = Ok y4)
  /\ (forall cr art y,
        year_of cr art = Ok y ->
        (date_part cr "issued" = Ok y /\ truthy y = true)
        \/ (exists y1, date_part cr "issued" = Ok y1 /\ truthy y1 = false
                       /\ date_part cr "published-print" = Ok y
                       /\ truthy y = true)
        \/ (no_registry_year cr
            /\ py_get art "year" PNone = Ok y /\ truthy y = true)
        \/ (no_registry_year cr
            /\ exists y3 pub,
                 py_get art "year" PNone = Ok y3 /\ truthy y3 = false
                 /\ py_get art "publication" (PDict []) = Ok pub
                 /\ py_get pub "year" PNone = Ok y))
  /\ (forall w email CY art l row l',
        process_article w email CY art l = (Ok row, l') ->
        exists cr la y,
          registry_record w art l = (Ok cr, la)
          /\ year_of cr art = Ok y
          /\ (truthy y = false -> Year row = None)
          /\ (truthy y = true ->
              exists z, py_int y = Ok z /\ Year row = Some z)).
Proof.
  split; [|split; [|split; [|split; [|split]]]].
  - intros cr art y1 H1 T1. unfold year_of, registry_year.
    rewrite H1. simpl. rewrite T1. simpl. now rewrite T1.
  - intros cr art y1 y2 H1 T1 H2 T2. unfold year_of, registry_year.
    rewrite H1. simpl. rewrite T1, H2, T2. reflexivity.
  - intros cr art y3 Hn H3 T3. apply no_registry_year_falsy in Hn.
    unfold year_of. rewrite Hn. simpl. unfold stub_year.
    rewrite H3. simpl. now rewrite T3.
  - intros cr art y3 pub y4 Hn H3 T3 Hp H4. apply no_registry_year_falsy in Hn.
    unfold year_of. rewrite Hn. simpl. unfold stub_year.
    rewrite H3. simpl. rewrite T3, Hp. exact H4.
  - intros cr art y H. unfold year_of in H.
    destruct (truthy (registry_year cr)) eqn:Tr; simpl in H.
    + inversion H; subst y. unfold registry_year in Tr |- *.
      destruct (date_part cr "issued") as [y1|]; [|discriminate Tr].
      simpl in Tr |- *. destruct (truthy y1) eqn:T1.
      * left. now split.
      * right. left. exists y1.
        destruct (date_part cr "published-print") as [y2|];
          [|discriminate Tr].
        auto.
    + apply no_registry_year_falsy in Tr. right. right.
      unfold stub_year in H. apply rbind_Ok in H. destruct H as [y3 [H3 H]].
      destruct (truthy y3) eqn:T3.
      * inversion H; subst y3. left. auto.
      * apply rbind_Ok in H. destruct H as [pub [Hp H4]].
        right. split; [exact Tr|]. exists y3, pub. auto.
  - intros w email CY art l row l' H.
    destruct (process_article_registry _ _ _ _ _ _ _ H)
      as [cr [la [y [Hr [_ [Hy Hyy]]]]]].
    exists cr, la, y. split; [exact Hr|]. split; [exact Hy|].
    now apply row_year_value.
Qed.

Lemma year_priority_witness :
  year_of issued_123 (PDict [("year", PStr "2019")]) = Ok (PInt 123)
  /\ year_of unreadable_issued (PDict [("year", PStr "2019")])
     = Ok (PStr "2019")
  /\ year_of (PDict [])
       (PDict [("publication", PDict [("year", PInt 2015)])])
     = Ok (PInt 2015).
Proof.
  destruct year_priority as [H1 [_ [H3 [H4 _]]]].
  split; [|split].
  - apply H1; reflexivity.
  - apply H3; [left|..]; reflexivity.
  - apply (H4 (PDict []) _ PNone (PDict [("year", PInt 2015)]));
      try reflexivity.
    right. exists PNone. split; [reflexivity|]. split; [reflexivity|].
    right. exists PNone. split; reflexivity.
Defined.

(** The claim C7 as stated fails: the year is stored without any check of
    its number of digits, and a stub year written "0" is stored as 0;
    moreover a registry "issued" entry that cannot be read hides the
    "published-print" date. *)
Lemma year_counterexample :
  (exists row l',
     process_article registry_123 "me@example.org" 2025 stub_plain []
     = (Ok row, l')
     /\ Year row = Some 123%Z)
  /\ (123 < 1000)%Z
  /\ (exists row l',
        process_article offline "me@example.org" 2025
          (PDict [("title", PStr "T"); ("year", PStr "0")]) []
        = (Ok row, l')
        /\ Year row = Some 0%Z)
  /\ (date_part unreadable_issued "published-print" = Ok (PInt 2020)
      /\ year_of unreadable_issued (PDict [("year", PStr "2019")])
         = Ok (PStr "2019")).
Proof.
  split; [|split; [|split]].
  - do 2 eexists. split; [vm_compute; reflexivity | reflexivity].
  - reflexivity.
  - do 2 eexists. split; [vm_compute; reflexivity | reflexivity].
  - split; reflexivity.
Qed.

(* ------------------------------------------------------------------ *)
(** * Further properties: identifier extraction *)

Lemma take_while_skipn (p : ascii -> bool) (l : list ascii) :
  l = (take_while p l ++ skipn (List.length (take_while p l)) l)%list.
Proof.
  induction l as [|c l IH]; simpl; [reflexivity|].
  destruct (p c); simpl; [now f_equal | reflexivity].
Qed.

Lemma take_while_forallb (p : ascii -> bool) (l : list ascii) :
  forallb p (take_while p l) = true.
Proof.
  induction l as [|c l IH]; simpl; [reflexivity|].
  destruct (p c) eqn:E; simpl; [now rewrite E | reflexivity].
Qed.

Lemma take_while_app_stop (p : ascii -> bool) (a : list ascii) (c : ascii)
    (r : list ascii) :
  forallb p a = true -> p c = false -> take_while p (a ++ c :: r) = a.
Proof.
  intros Ha Hc. induction a as [|x a IH]; simpl in *.
  - now rewrite Hc.
  - apply andb_true_iff in Ha. destruct Ha as [Hx Ha]. rewrite Hx.
    f_equal. now apply IH.
Qed.

Lemma take_while_all (p : ascii -> bool) (a : list ascii) :
  forallb p a = true -> take_while p a = a.
Proof.
  intros Ha. induction a as [|x a IH]; simpl in *; [reflexivity|].
  apply andb_true_iff in Ha. destruct Ha as [Hx Ha]. rewrite Hx.
  f_equal. now apply IH.
Qed.

(** The head of a text on which [doi_match_here] succeeds. *)
Lemma doi_match_here_head (l m : list ascii) :
  doi_match_here l = Some m ->
  exists rest, l = ("1" :: "0" :: "." :: rest)%char%list.
Proof.
  destruct l as [|c1 [|c2 [|c3 rest]]];
    try (destruct c1 as [[] [] [] [] [] [] [] []]; discriminate);
    try discriminate.
  - destruct c1 as [[] [] [] [] [] [] [] []]; try discriminate;
      destruct c2 as [[] [] [] [] [] [] [] []]; discriminate.
  - destruct c1 as [[] [] [] [] [] [] [] []]; try discriminate;
      destruct c2 as [[] [] [] [] [] [] [] []]; try discriminate;
      destruct c3 as [[] [] [] [] [] [] [] []]; try discriminate.
    intros _. now exists rest.
Qed.

Lemma doi_match_here_unfold (rest : list ascii) :
  doi_match_here ("1" :: "0" :: "." :: rest)%char%list =
  let ds := take_while is_digit rest in
  let n := List.length ds in
  if (4 <=? n)%nat && (n <=? 9)%nat then
    match skipn n rest with
    | (c :: tail)%list =>
        if Ascii.eqb c "/" then
          match take_while (fun c => negb (is_space c)) tail with
          | [] => None
          | suffix => Some ("1" :: "0" :: "." :: ds ++ "/" :: suffix)%char%list
          end
        else None
    | [] => None
    end
  else None.
Proof.
  cbv zeta. unfold doi_match_here.
  destruct ((4 <=? _)%nat && _); [|reflexivity].
  destruct (skipn _ rest) as [|c tail]; [reflexivity|].
  destruct c as [[] [] [] [] [] [] [] []]; reflexivity.
Qed.

(** What [doi_match_here] matches is DOI-shaped and is the head of the
    text. *)
Lemma doi_match_here_sound (l m : list ascii) :
  doi_match_here l = Some m ->
  doi_shaped m /\ exists post, l = (m ++ post)%list.
Proof.
  intros H. destruct (doi_match_here_head l m H) as [rest ->].
  rewrite doi_match_here_unfold in H. cbv zeta in H.
  set (ds := take_while is_digit rest) in *.
  destruct ((4 <=? List.length ds)%nat && (List.length ds <=? 9)%nat) eqn:En;
    [|discriminate].
  apply andb_true_iff in En. destruct En as [E4 E9].
  apply Nat.leb_le in E4, E9.
  destruct (skipn (List.length ds) rest) as [|c tail] eqn:Es; [discriminate|].
  destruct (Ascii.eqb c "/") eqn:Ec; [|discriminate].
  apply Ascii.eqb_eq in Ec. subst c.
  destruct (take_while (fun c => negb (is_space c)) tail) as [|s0 suffix] eqn:Et;
    [discriminate|].
  inversion H; subst m. split.
  - exists ds, (s0 :: suffix)%list.
    split; [reflexivity|]. split; [split; assumption|].
    split; [apply take_while_forallb|]. split; [discriminate|].
    rewrite <- Et. apply take_while_forallb.
  - exists (skipn (List.length (take_while (fun c => negb (is_space c)) tail))
              tail).
    rewrite <- Et. cbn [app]. do 3 f_equal.
    rewrite (take_while_skipn is_digit rest) at 1. fold ds. rewrite Es.
    rewrite <- app_assoc. cbn [app]. do 2 f_equal.
    apply take_while_skipn.
Qed.

Lemma doi_search_from_sound (l m : list ascii) :
  doi_search_from l = Some m ->
  doi_shaped m /\ exists pre post, l = (pre ++ m ++ post)%list.
Proof.
  induction l as [|c l IH].
  - discriminate.
  - change (doi_search_from (c :: l))
      with (match doi_match_here (c :: l) with
            | Some x => Some x
            | None => doi_search_from l
            end).
    destruct (doi_match_here (c :: l)) as [m'|] eqn:E.
    + intros H. inversion H; subst.
      destruct (doi_match_here_sound _ _ E) as [Hs [post Hp]].
      split; [exact Hs|]. exists [], post. exact Hp.
    + intros H. destruct (IH H) as [Hs [pre [post Hp]]].
      split; [exact Hs|]. exists (c :: pre), post. simpl. now f_equal.
Qed.

Lemma DOI_RE_search_shaped (s m : string) :
  DOI_RE_search s = Some m -> doi_shaped (list_ascii_of_string m).
Proof.
  unfold DOI_RE_search.
  destruct (doi_search_from (list_ascii_of_string s)) as [x|] eqn:E;
    [|discriminate].
  intros H. inversion H; subst m.
  rewrite list_ascii_of_string_of_list_ascii.
  now destruct (doi_search_from_sound _ _ E).
Qed.

(** X1: whatever [DOI_RE.search] returns is a contiguous part of the
    text, is not empty, and has the shape "10." followed by 4 to 9
    digits, a slash and a non-empty run of non-blank characters. *)
Theorem DOI_RE_search_sound (s m : string) :
  DOI_RE_search s = Some m ->
  doi_shaped (list_ascii_of_string m)
  /\ (exists pre post,
        list_ascii_of_string s = (pre ++ list_ascii_of_string m ++ post)%list)
  /\ m <> "".
Proof.
  unfold DOI_RE_search.
  destruct (doi_search_from (list_ascii_of_string s)) as [x|] eqn:E;
    [|discriminate].
  intros H. inversion H; subst m.
  rewrite list_ascii_of_string_of_list_ascii.
  destruct (doi_search_from_sound _ _ E) as [Hs Hp].
  split; [exact Hs|]. split; [exact Hp|].
  destruct Hs as [ds [suffix [-> _]]]. discriminate.
Qed.

Lemma DOI_RE_search_sound_witness :
  doi_shaped (list_ascii_of_string "10.1000/xyz")
  /\ (exists pre post,
        list_ascii_of_string "see doi:10.1000/xyz here"
        = (pre ++ list_ascii_of_string "10.1000/xyz" ++ post)%list)
  /\ "10.1000/xyz" <> "".
Proof.
  apply (DOI_RE_search_sound "see doi:10.1000/xyz here" "10.1000/xyz").
  reflexivity.
Defined.

(** X2: a DOI-shaped text standing at the head of a string, followed by
    nothing or by a blank, is found by [DOI_RE.search] and returned
    unchanged. *)
Theorem DOI_RE_search_finds_leading_doi (m tail : list ascii) :
  doi_shaped m ->
  match tail with
  | [] => True
  | (c :: _)%list => is_space c = true
  end ->
  DOI_RE_search (string_of_list_ascii (m ++ tail))
  = Some (string_of_list_ascii m).
Proof.
  intros [ds [suffix [-> [[H4 H9] [Hd [Hne Hs]]]]]] Htail.
  unfold DOI_RE_search. rewrite list_ascii_of_string_of_list_ascii.
  assert (Hm : doi_match_here
                 (("1" :: "0" :: "." :: ds ++ "/" :: suffix)%char%list ++ tail)
               = Some ("1" :: "0" :: "." :: ds ++ "/" :: suffix)%char%list).
  { cbn [app]. rewrite doi_match_here_unfold. cbv zeta.
    rewrite <- app_assoc. simpl app.
    rewrite (take_while_app_stop is_digit ds "/" (suffix ++ tail) Hd eq_refl).
    apply Nat.leb_le in H4, H9. rewrite H4, H9. simpl andb. cbv iota.
    rewrite skipn_app, skipn_all, Nat.sub_diag. simpl.
    assert (Ht : take_while (fun c => negb (is_space c)) (suffix ++ tail)
                 = suffix).
    { destruct tail as [|c tail].
      - rewrite app_nil_r. now apply take_while_all.
      - apply take_while_app_stop; [exact Hs | now rewrite Htail]. }
    rewrite Ht. destruct suffix; [contradiction|reflexivity]. }
  cbn [app] in *.
  change (doi_search_from
            ("1" :: "0" :: "." :: (ds ++ "/" :: suffix) ++ tail)%char%list)
    with (match doi_match_here
                  ("1" :: "0" :: "." :: (ds ++ "/" :: suffix) ++ tail)%char%list
          with
          | Some x => Some x
          | None => doi_search_from
                      ("0" :: "." :: (ds ++ "/" :: suffix) ++ tail)%char%list
          end).
  rewrite Hm. reflexivity.
Qed.

Lemma DOI_RE_search_finds_leading_doi_witness :
  DOI_RE_search "10.1000/xyz and more" = Some "10.1000/xyz".
Proof.
  apply (DOI_RE_search_finds_leading_doi
           (list_ascii_of_string "10.1000/xyz")
           (list_ascii_of_string " and more")).
  - exists (list_ascii_of_string "1000"), (list_ascii_of_string "xyz").
    split; [reflexivity|]. split; [simpl; lia|].
    split; [reflexivity|]. split; [discriminate | reflexivity].
  - reflexivity.
Defined.

Lemma search_strings_shaped (vs : list pyval) (m : string) :
  search_strings vs = Some m -> doi_shaped (list_ascii_of_string m).
Proof.
  induction vs as [|v vs IH]; simpl; [discriminate|].
  destruct v; try exact IH.
  destruct (DOI_RE_search s) as [x|] eqn:E; [|exact IH].
  intros H. inversion H; subst. now apply (DOI_RE_search_shaped s).
Qed.

Lemma search_list_shaped (vs : list pyval) (m : string) :
  search_list vs = Some m -> doi_shaped (list_ascii_of_string m).
Proof.
  induction vs as [|v vs IH]; simpl; [discriminate|].
  destruct v; try exact IH.
  - destruct (DOI_RE_search s) as [x|] eqn:E; [|exact IH].
    intros H. inversion H; subst. now apply (DOI_RE_search_shaped s).
  - destruct (search_strings (map snd d)) as [x|] eqn:E; [|exact IH].
    intros H. inversion H; subst. now apply (search_strings_shaped (map snd d)).
Qed.

Lemma search_fields_shaped (item : pyval) (ks : list string) (v : pyval) :
  search_fields item ks = Ok v ->
  v = PNone \/ exists m, v = PStr m /\ doi_shaped (list_ascii_of_string m).
Proof.
  induction ks as [|k ks IH]; simpl.
  - intros H. inversion H. now left.
  - destruct (py_get item k PNone) as [val|]; simpl; [|discriminate].
    destruct (search_field val) as [m|] eqn:E; [|exact IH].
    intros H. inversion H; subst. right. exists m. split; [reflexivity|].
    destruct val; simpl in E; try discriminate.
    + now apply (search_list_shaped l).
    + now apply (search_strings_shaped (map snd d)).
Qed.

Lemma doi_shaped_truthy (m : string) :
  doi_shaped (list_ascii_of_string m) -> truthy (PStr m) = true.
Proof.
  intros [ds [suffix [E _]]]. destruct m; [discriminate E | reflexivity].
Qed.

(** X3: when [extract_doi_from_serp_item] returns, the result is [None]
    or a truthy value, never an empty text: the explicit identifier
    ("DOI", else "doi") when one is truthy, and otherwise [None] or a
    DOI-shaped text found in the nested fields. *)
Theorem extract_doi_result (item v : pyval) :
  extract_doi_from_serp_item item = Ok v ->
  (v = PNone \/ truthy v = true)
  /\ (forall e d1 d2,
        py_get item "external_ids" PNone = Ok e ->
        py_get (py_or e (PDict [])) "DOI" PNone = Ok d1 ->
        py_get (py_or e (PDict [])) "doi" PNone = Ok d2 ->
        (truthy d1 = true -> v = d1)
        /\ (truthy d1 = false -> truthy d2 = true -> v = d2)
        /\ (truthy d1 = false -> truthy d2 = false ->
            v = PNone
            \/ exists m, v = PStr m /\ doi_shaped (list_ascii_of_string m))).
Proof.
  unfold extract_doi_from_serp_item. intros H.
  apply rbind_Ok in H. destruct H as [e [He H]].
  apply rbind_Ok in H. destruct H as [d1 [H1 H]].
  apply rbind_Ok in H. destruct H as [d2 [H2 H]].
  assert (Hcases :
    (truthy (py_or d1 d2) = true /\ v = py_or d1 d2)
    \/ (truthy (py_or d1 d2) = false
        /\ (v = PNone
            \/ exists m, v = PStr m /\ doi_shaped (list_ascii_of_string m)))).
  { destruct (truthy (py_or d1 d2)) eqn:T.
    - inversion H. left. auto.
    - right. split; [reflexivity|]. now apply (search_fields_shaped item doi_fields). }
  split.
  - destruct Hcases as [[T ->] | [_ [-> | [m [-> Hm]]]]]; auto.
    right. now apply doi_shaped_truthy.
  - intros e' d1' d2' He' H1' H2'.
    rewrite He in He'. inversion He'; subst e'.
    rewrite H1 in H1'. inversion H1'; subst d1'.
    rewrite H2 in H2'. inversion H2'; subst d2'.
    unfold py_or in Hcases at 1 2 3.
    split; [|split].
    + intros T1. rewrite T1 in Hcases.
      destruct Hcases as [[_ E] | [T _]]; [exact E | congruence].
    + intros T1 T2. rewrite T1 in Hcases.
      destruct Hcases as [[_ E] | [T _]]; [exact E | congruence].
    + intros T1 T2. rewrite T1 in Hcases.
      destruct Hcases as [[T _] | [_ E]]; [congruence | exact E].
Qed.

Lemma extract_doi_result_witness :
  PStr "10.5555/ab.c" = PNone \/ truthy (PStr "10.5555/ab.c") = true.
Proof.
  apply (extract_doi_result
           (PDict [("title", PStr "T");
                   ("links", PList [PInt 3; PDict [("url", PStr "x 10.5555/ab.c")]])])
           (PStr "10.5555/ab.c")).
  reflexivity.
Defined.

Lemma search_fields_total (d : list (string * pyval)) (ks : list string) :
  exists v, search_fields (PDict d) ks = Ok v.
Proof.
  induction ks as [|k ks IH]; simpl; [eauto|].
  destruct (search_field _); eauto.
Qed.

(** X4: [extract_doi_from_serp_item] raises exactly on bad shapes: it
    returns for every dictionary whose "external_ids" entry is missing,
    falsy or a dictionary, and raises when that entry is truthy and not a
    dictionary, or when the item is not a dictionary. *)
Theorem extract_doi_raises_only_on_bad_identifiers (item : pyval) :
  (forall d,
     item = PDict d ->
     (forall e, assoc "external_ids" d = Some e -> truthy e = true ->
        exists x, e = PDict x) ->
     exists v, extract_doi_from_serp_item item = Ok v)
  /\ (forall d e,
        item = PDict d ->
        assoc "external_ids" d = Some e -> truthy e = true ->
        (forall x, e <> PDict x) ->
        extract_doi_from_serp_item item = Raise)
  /\ ((forall d, item <> PDict d) -> extract_doi_from_serp_item item = Raise).
Proof.
  split; [|split].
  - intros d -> Hext. unfold extract_doi_from_serp_item.
    destruct (search_fields_total d doi_fields) as [v0 Hsf]. rewrite Hsf.
    assert (Hdict : exists x, py_or (match assoc "external_ids" d with
                                     | Some e => e
                                     | None => PNone
                                     end) (PDict []) = PDict x).
    { unfold py_or. destruct (assoc "external_ids" d) as [e|]; [|simpl; eauto].
      destruct (truthy e) eqn:Te; [|eauto]. now apply Hext. }
    destruct Hdict as [x Hx]. cbn [py_get rbind]. rewrite Hx. cbn [py_get rbind].
    destruct (truthy (py_or _ _)); eauto.
  - intros d e -> Ee Te Hnd. unfold extract_doi_from_serp_item. simpl py_get.
    rewrite Ee. simpl rbind. unfold py_or at 1. rewrite Te.
    destruct e; try reflexivity. destruct (Hnd d0 eq_refl).
  - intros Hnd. destruct item; try reflexivity. destruct (Hnd d eq_refl).
Qed.

Lemma extract_doi_raises_only_on_bad_identifiers_witness :
  (exists v, extract_doi_from_serp_item stub_cited_12 = Ok v)
  /\ extract_doi_from_serp_item
       (PDict [("title", PStr "T"); ("external_ids", PStr "10.1000/xyz")])
     = Raise.
Proof.
  split.
  - apply (proj1 (extract_doi_raises_only_on_bad_identifiers stub_cited_12)
             [("title", PStr "A study of things ");
              ("cited_by", PDict [("value", PInt 12)]);
              ("year", PStr "2019")] eq_refl).
    intros e He. discriminate He.
  - apply (proj1 (proj2 (extract_doi_raises_only_on_bad_identifiers
             (PDict [("title", PStr "T"); ("external_ids", PStr "10.1000/xyz")])))
             [("title", PStr "T"); ("external_ids", PStr "10.1000/xyz")]
             (PStr "10.1000/xyz") eq_refl eq_refl eq_refl).
    intros x Hx. discriminate Hx.
Defined.

(* ------------------------------------------------------------------ *)
(** * Further properties: the lookups *)

(** X5: the registry lookups never raise and issue at most one request:
    the lookup by DOI issues none and gives [{}] when the DOI is not a
    text, and gives [{}] on a transport failure, a status other than 200
    or an unreadable payload; the lookup by title always issues its one
    request and gives [{}] on a transport failure, a status from 400 to
    599 or an unreadable payload. *)
Theorem registry_lookups_degrade (w : world) :
  (forall doi l,
     exists cr l',
       fetch_crossref_by_doi w doi l = (Ok cr, l')
       /\ (l' = l \/ exists d, doi = PStr d /\ l' = (l ++ [CrossrefWork d])%list))
  /\ (forall doi l, (forall d, doi <> PStr d) ->
        fetch_crossref_by_doi w doi l = (Ok (PDict []), l))
  /\ (forall d l,
        (w (CrossrefWork d) = Raise
         \/ exists r, w (CrossrefWork d) = Ok r
                      /\ (status_code r <> 200%Z \/ json r = Raise)) ->
        fetch_crossref_by_doi w (PStr d) l
        = (Ok (PDict []), (l ++ [CrossrefWork d])%list))
  /\ (forall title l,
        exists cr,
          fetch_crossref_by_title w title l
          = (Ok cr, (l ++ [CrossrefQuery title])%list))
  /\ (forall title l,
        (w (CrossrefQuery title) = Raise
         \/ exists r, w (CrossrefQuery title) = Ok r
                      /\ ((400 <= status_code r < 600)%Z \/ json r = Raise)) ->
        fetch_crossref_by_title w title l
        = (Ok (PDict []), (l ++ [CrossrefQuery title])%list)).
Proof.
  split; [|split; [|split; [|split]]].
  - intros doi l.
    unfold fetch_crossref_by_doi, try_except, mbind, lift, requests_get, mret.
    destruct doi; simpl; try (do 2 eexists; split; [reflexivity | now left]).
    destruct (w (CrossrefWork s)) as [r|];
      [|do 2 eexists; split; [reflexivity | right; eauto]].
    destruct (status_code r =? 200)%Z;
      [|do 2 eexists; split; [reflexivity | right; eauto]].
    destruct (json r) as [j|];
      [|do 2 eexists; split; [reflexivity | right; eauto]].
    destruct (py_get j "message" (PDict []));
      do 2 eexists; (split; [reflexivity | right; eauto]).
  - intros doi l Hns.
    unfold fetch_crossref_by_doi, try_except, mbind, lift, mret.
    destruct doi; try reflexivity. destruct (Hns s eq_refl).
  - intros d l H.
    unfold fetch_crossref_by_doi, try_except, mbind, lift, requests_get, mret.
    simpl. destruct H as [-> | [r [-> [Hs | Hj]]]]; [reflexivity | |].
    + apply Z.eqb_neq in Hs. now rewrite Hs.
    + rewrite Hj. destruct (status_code r =? 200)%Z; reflexivity.
  - intros title l.
    unfold fetch_crossref_by_title, try_except, mbind, lift, requests_get, mret.
    destruct (w (CrossrefQuery title)) as [r|]; [|eauto].
    destruct (raise_for_status r); [|eauto].
    destruct (json r) as [j|]; [|eauto].
    destruct (py_get j "message" (PDict [])) as [m|]; [|eauto].
    destruct (py_get m "items" (PList [])) as [items|]; [|eauto].
    destruct (truthy items); [|eauto].
    destruct (py_item0 items); eauto.
  - intros title l H.
    unfold fetch_crossref_by_title, try_except, mbind, lift, requests_get, mret.
    destruct H as [-> | [r [-> [Hs | Hj]]]]; [reflexivity | |].
    + unfold raise_for_status.
      destruct Hs as [H4 H6]. apply Z.leb_le in H4. apply Z.ltb_lt in H6.
      now rewrite H4, H6.
    + rewrite Hj. destruct (raise_for_status r); reflexivity.
Qed.

Lemma registry_lookups_degrade_witness :
  fetch_crossref_by_doi offline (PInt 5) [] = (Ok (PDict []), [])
  /\ fetch_crossref_by_doi offline (PStr "10.1000/xyz") []
     = (Ok (PDict []), [CrossrefWork "10.1000/xyz"])
  /\ fetch_crossref_by_title
       (fun _ => Ok {| status_code := 503; json := Ok (PDict []) |}) "T" []
     = (Ok (PDict []), [CrossrefQuery "T"]).
Proof.
  split; [|split].
  - apply (proj1 (proj2 (registry_lookups_degrade offline)) (PInt 5) []).
    intros d Hd. discriminate Hd.
  - apply (proj1 (proj2 (proj2 (registry_lookups_degrade offline)))
             "10.1000/xyz" []).
    now left.
  - apply (proj2 (proj2 (proj2 (proj2
             (registry_lookups_degrade
                (fun _ => Ok {| status_code := 503; json := Ok (PDict []) |})))))
             "T" []).
    right. eexists. split; [reflexivity|]. left. simpl. lia.
Defined.

(** X6: the citation lookups never raise and issue at most one request;
    a transport failure, a status other than 200, an unreadable payload,
    a citation count that is not a number (by DOI) or an empty result
    list (by title) all give the empty answer: 0 citations, no year, not
    retracted. *)
Theorem citation_lookups_degrade (w : world) :
  (forall doi l,
     exists c y r l',
       fetch_semanticscholar_by_doi w doi l = (Ok (c, y, r), l')
       /\ (l' = l \/ exists d, doi = PStr d /\ l' = (l ++ [S2Paper d])%list))
  /\ (forall d l,
        (w (S2Paper d) = Raise
         \/ exists r, w (S2Paper d) = Ok r
              /\ (status_code r <> 200%Z \/ json r = Raise
                  \/ exists j c, json r = Ok j
                       /\ py_get j "citationCount" (PInt 0) = Ok c
                       /\ py_int (py_or c (PInt 0)) = Raise)) ->
        fetch_semanticscholar_by_doi w (PStr d) l
        = (Ok (0%Z, PNone, false), (l ++ [S2Paper d])%list))
  /\ (forall title l,
        exists c y r e,
          fetch_semanticscholar_by_title w title l
          = (Ok (c, y, r, e), (l ++ [S2Search title])%list))
  /\ (forall title l,
        (w (S2Search title) = Raise
         \/ exists r, w (S2Search title) = Ok r
              /\ (status_code r <> 200%Z \/ json r = Raise
                  \/ exists j data, json r = Ok j
                       /\ py_get j "data" (PList []) = Ok data
                       /\ truthy data = false)) ->
        fetch_semanticscholar_by_title w title l
        = (Ok (0%Z, PNone, false, PDict []), (l ++ [S2Search title])%list)).
Proof.
  split; [|split; [|split]].
  - intros doi l.
    unfold fetch_semanticscholar_by_doi, try_except, mbind, lift, requests_get,
      mret.
    destruct doi; simpl; try (do 4 eexists; split; [reflexivity | now left]).
    destruct (w (S2Paper s)) as [r|];
      [|do 4 eexists; split; [reflexivity | right; eauto]].
    destruct (status_code r =? 200)%Z;
      [|do 4 eexists; split; [reflexivity | right; eauto]].
    destruct (json r) as [j|];
      [|do 4 eexists; split; [reflexivity | right; eauto]].
    destruct (py_get j "citationCount" (PInt 0)) as [c|];
      [|do 4 eexists; split; [reflexivity | right; eauto]].
    destruct (py_int (py_or c (PInt 0))) as [n|];
      [|do 4 eexists; split; [reflexivity | right; eauto]].
    destruct (py_get j "year" PNone) as [y|];
      [|do 4 eexists; split; [reflexivity | right; eauto]].
    destruct (py_get j "isRetracted" (PBool false)) as [t|];
      do 4 eexists; (split; [reflexivity | right; eauto]).
  - intros d l H.
    unfold fetch_semanticscholar_by_doi, try_except, mbind, lift, requests_get,
      mret.
    simpl.
    destruct H as [-> | [r [-> [Hs | [Hj | [j [c [Hj [Hc Hn]]]]]]]]];
      [reflexivity | | |].
    + apply Z.eqb_neq in Hs. now rewrite Hs.
    + rewrite Hj. destruct (status_code r =? 200)%Z; reflexivity.
    + rewrite Hj, Hc, Hn. destruct (status_code r =? 200)%Z; reflexivity.
  - intros title l.
    destruct (fetch_semanticscholar_by_title w title l) as [res l'] eqn:E.
    destruct (fetch_semanticscholar_by_title_requests w "" title l res l' E)
      as [ext [-> _]].
    revert E.
    unfold fetch_semanticscholar_by_title, try_except, mbind, lift,
      requests_get, mret.
    destruct (w (S2Search title)) as [r|];
      [|intros E; inversion E; now exists 0%Z, PNone, false, (PDict [])].
    destruct (status_code r =? 200)%Z;
      [|intros E; inversion E; now exists 0%Z, PNone, false, (PDict [])].
    destruct (json r) as [j|];
      [|intros E; inversion E; now exists 0%Z, PNone, false, (PDict [])].
    destruct (py_get j "data" (PList [])) as [data|];
      [|intros E; inversion E; now exists 0%Z, PNone, false, (PDict [])].
    destruct (truthy data);
      [|intros E; inversion E; now exists 0%Z, PNone, false, (PDict [])].
    destruct (py_item0 data) as [item|];
      [|intros E; inversion E; now exists 0%Z, PNone, false, (PDict [])].
    destruct (py_get item "citationCount" (PInt 0)) as [c|];
      [|intros E; inversion E; now exists 0%Z, PNone, false, (PDict [])].
    destruct (py_int (py_or c (PInt 0))) as [n|];
      [|intros E; inversion E; now exists 0%Z, PNone, false, (PDict [])].
    destruct (py_get item "year" PNone) as [y|];
      [|intros E; inversion E; now exists 0%Z, PNone, false, (PDict [])].
    destruct (py_get item "isRetracted" (PBool false)) as [t|];
      [|intros E; inversion E; now exists 0%Z, PNone, false, (PDict [])].
    destruct (py_get item "externalIds" (PDict [])) as [e|];
      intros E; inversion E; eauto.
  - intros title l H.
    unfold fetch_semanticscholar_by_title, try_except, mbind, lift,
      requests_get, mret.
    destruct H as [-> | [r [-> [Hs | [Hj | [j [data [Hj [Hd Ht]]]]]]]]];
      [reflexivity | | |].
    + apply Z.eqb_neq in Hs. now rewrite Hs.
    + rewrite Hj. destruct (status_code r =? 200)%Z; reflexivity.
    + rewrite Hj, Hd, Ht. destruct (status_code r =? 200)%Z; reflexivity.
Qed.

Lemma citation_lookups_degrade_witness :
  fetch_semanticscholar_by_doi offline (PStr "10.1000/xyz") []
  = (Ok (0%Z, PNone, false), [S2Paper "10.1000/xyz"])
  /\ fetch_semanticscholar_by_title empty_results "T" []
     = (Ok (0%Z, PNone, false, PDict []), [S2Search "T"]).
Proof.
  split.
  - apply (proj1 (proj2 (citation_lookups_degrade offline)) "10.1000/xyz" []).
    now left.
  - apply (proj2 (proj2 (proj2 (citation_lookups_degrade empty_results))) "T" []).
    right. eexists. split; [reflexivity|]. right. right.
    exists (PDict [("data", PList [])]), (PList []). auto.
Defined.

(* ------------------------------------------------------------------ *)
(** * Further properties: authors and affiliations *)

Lemma mapM_Ok_each {A B} (f : A -> res B) (l : list A) (bs : list B) :
  mapM f l = Ok bs -> forall a, In a l -> exists b, f a = Ok b.
Proof.
  revert bs. induction l as [|x l IH]; intros bs H a Hin; [destruct Hin|].
  simpl in H. destruct (f x) as [b|] eqn:Ex; simpl in H; [|discriminate].
  destruct (mapM f l) as [bs'|] eqn:El; simpl in H; [|discriminate].
  destruct Hin as [<- | Hin]; [eauto | exact (IH bs' eq_refl a Hin)].
Qed.

(** X7: when [parse_crossref_authors_and_affiliations] returns, the
    number of authors with an affiliation lies between 0 and the number
    of authors, which is the length of the registry's author list, and
    every entry of that list is a dictionary. *)
Theorem affiliated_authors_bounded (cr : pyval) (n aw : Z) :
  parse_crossref_authors_and_affiliations cr = Ok (n, aw) ->
  (0 <= aw <= n)%Z
  /\ (forall authors,
        py_get cr "author" (PList []) = Ok (PList authors) ->
        n = Z.of_nat (List.length authors)
        /\ Forall (fun a => exists d, a = PDict d) authors).
Proof.
  intros H. split; [now apply (parse_crossref_counts cr)|].
  unfold parse_crossref_authors_and_affiliations in H.
  apply rbind_Ok in H. destruct H as [a0 [Ha H]].
  apply rbind_Ok in H. destruct H as [num [Hlen H]].
  apply rbind_Ok in H. destruct H as [items [Hit H]].
  apply rbind_Ok in H. destruct H as [flags [Hfl H]].
  inversion H; subst.
  intros authors Hau. rewrite Ha in Hau. inversion Hau; subst a0.
  assert (Hitems : items = authors).
  { destruct authors; simpl in Hit; inversion Hit; reflexivity. }
  subst items. split.
  - destruct authors; simpl in Hlen; inversion Hlen; reflexivity.
  - rewrite Forall_forall. intros a Hin.
    destruct (mapM_Ok_each _ _ _ Hfl a Hin) as [b Hb].
    unfold author_has_affiliation in Hb.
    destruct a; try discriminate Hb. eauto.
Qed.

Lemma affiliated_authors_bounded_witness :
  parse_crossref_authors_and_affiliations
    (PDict [("author", PList [
       PDict [("affiliation", PList [PDict [("name", PStr "U1")]])];
       PDict [("affiliation", PList [])];
       PDict [("affiliation", PList [PStr "U2"])]])])
  = Ok (3%Z, 2%Z)
  /\ (0 <= 2 <= 3)%Z.
Proof.
  split; [reflexivity|].
  apply (affiliated_authors_bounded
           (PDict [("author", PList [
              PDict [("affiliation", PList [PDict [("name", PStr "U1")]])];
              PDict [("affiliation", PList [])];
              PDict [("affiliation", PList [PStr "U2"])]])])
           3 2).
  reflexivity.
Defined.

Lemma py_round_zero (nd : nat) : py_round 0 nd == 0.
Proof.
  pose proof (py_round_between 0 0 0 nd) as H.
  change (inject_Z 0) with 0 in H. lra.
Qed.

(** X8: in every row the affiliation completeness lies in [0,1], the
    number of authors is not negative, and the completeness is 0 when
    there is no author. *)
Theorem affiliation_completeness_is_proportion w email CY art l row l' :
  process_article w email CY art l = (Ok row, l') ->
  0 <= Author_affil_completeness row <= 1
  /\ (0 <= Num_Authors row)%Z
  /\ (Num_Authors row = 0%Z -> Author_affil_completeness row == 0).
Proof.
  intros H. split; [exact (process_article_completeness w email CY art l row l' H)|].
  unfold process_article in H. repeat run_step. run_done. subst row. simpl.
  match goal with
  | Hp : (if truthy ?cr then parse_crossref_authors_and_affiliations ?cr
          else Ok (0%Z, 0%Z)) = Ok (?n0, ?aw),
    Hs : stub_num_authors _ ?n0 = Ok ?num |- _ =>
      assert (Hn0 : (0 <= aw <= n0)%Z)
        by (destruct (truthy cr);
            [now apply (parse_crossref_counts cr) | inversion Hp; lia]);
      split;
      [ unfold stub_num_authors in Hs;
        destruct (n0 =? 0)%Z; [|inversion Hs; lia];
        apply rbind_Ok in Hs; destruct Hs as [a1 [_ Hs]];
        apply rbind_Ok in Hs; destruct Hs as [sa [_ Hs]];
        destruct sa; inversion Hs; lia
      | intros ->; unfold O_prop; simpl; apply py_round_zero ]
  end.
Qed.

Lemma affiliation_completeness_is_proportion_witness :
  exists row l',
    process_article registry_three_authors "me@example.org" 2025
      stub_with_doi [] = (Ok row, l')
    /\ 0 <= Author_affil_completeness row <= 1.
Proof.
  destruct (process_article registry_three_authors "me@example.org" 2025
              stub_with_doi []) as [[row|] l'] eqn:E;
    [|vm_compute in E; discriminate E].
  exists row, l'. split; [reflexivity|].
  apply (affiliation_completeness_is_proportion _ _ _ _ _ _ _ E).
Defined.

(* ------------------------------------------------------------------ *)
(** * Further properties: the number of requests *)

Lemma issues_mret {A} (a : A) : issues 0 (mret a).
Proof.
  intros l r l' H. inversion H. exists []. now rewrite app_nil_r.
Qed.

Lemma issues_lift {A} (x : res A) : issues 0 (lift x).
Proof.
  intros l r l' H. inversion H. exists []. now rewrite app_nil_r.
Qed.

Lemma issues_get w q : issues 1 (requests_get w q).
Proof.
  intros l r l' H. inversion H. exists [q]. split; [reflexivity | simpl; lia].
Qed.

Lemma issues_mbind (n1 n2 : nat) {A B} (m : M A) (f : A -> M B) :
  issues n1 m -> (forall a, issues n2 (f a)) -> issues (n1 + n2) (mbind m f).
Proof.
  intros Hm Hf l r l' H. unfold mbind in H.
  destruct (m l) as [[a|] l1] eqn:E.
  - destruct (Hm _ _ _ E) as [e1 [-> L1]].
    destruct (Hf a _ _ _ H) as [e2 [-> L2]].
    exists (e1 ++ e2)%list. rewrite app_assoc. split; [reflexivity|].
    rewrite length_app. lia.
  - inversion H; subst. destruct (Hm _ _ _ E) as [e1 [-> L1]].
    exists e1. split; [reflexivity | lia].
Qed.

Lemma issues_try (n : nat) {A} (body : M A) (dflt : A) :
  issues n body -> issues n (try_except body (mret dflt)).
Proof.
  intros Hb l r l' H. unfold try_except in H.
  destruct (body l) as [[a|] l1] eqn:E.
  - inversion H; subst. exact (Hb _ _ _ E).
  - inversion H; subst. exact (Hb _ _ _ E).
Qed.

Lemma issues_if (n : nat) {A} (b : bool) (m1 m2 : M A) :
  issues n m1 -> issues n m2 -> issues n (if b then m1 else m2).
Proof. destruct b; auto. Qed.

Lemma issues_le (n n' : nat) {A} (m : M A) :
  (n <= n')%nat -> issues n m -> issues n' m.
Proof.
  intros Hle Hm l r l' H. destruct (Hm _ _ _ H) as [ext [-> L]].
  exists ext. split; [reflexivity | lia].
Qed.

(** Steps that issue no request. *)
Ltac issues_pure :=
  repeat first
    [ apply issues_mret
    | apply issues_lift
    | apply issues_if
    | apply (issues_mbind 0 0); [|intros ?]
    | match goal with |- issues _ (match ?x with _ => _ end) => destruct x end ].

Lemma fetch_crossref_by_doi_issues w doi :
  issues 1 (fetch_crossref_by_doi w doi).
Proof.
  unfold fetch_crossref_by_doi. apply issues_try.
  apply (issues_mbind 0 1); [apply issues_lift | intros d].
  apply (issues_mbind 1 0); [apply issues_get | intros r]. issues_pure.
Qed.

Lemma fetch_crossref_by_title_issues w title :
  issues 1 (fetch_crossref_by_title w title).
Proof.
  unfold fetch_crossref_by_title. apply issues_try.
  apply (issues_mbind 1 0); [apply issues_get | intros r]. issues_pure.
Qed.

Lemma fetch_semanticscholar_by_doi_issues w doi :
  issues 1 (fetch_semanticscholar_by_doi w doi).
Proof.
  unfold fetch_semanticscholar_by_doi. apply issues_try.
  apply (issues_mbind 0 1); [apply issues_lift | intros d].
  apply (issues_mbind 1 0); [apply issues_get | intros r]. issues_pure.
Qed.

Lemma fetch_semanticscholar_by_title_issues w title :
  issues 1 (fetch_semanticscholar_by_title w title).
Proof.
  unfold fetch_semanticscholar_by_title. apply issues_try.
  apply (issues_mbind 1 0); [apply issues_get | intros r]. issues_pure.
Qed.

Lemma fetch_unpaywall_issues w doi email :
  issues 1 (fetch_unpaywall w doi email).
Proof.
  unfold fetch_unpaywall.
  apply issues_if; [apply (issues_le 0 1); [lia | apply issues_mret]|].
  apply issues_try.
  apply (issues_mbind 1 0); [apply issues_get | intros r]. issues_pure.
Qed.

Lemma resolve_citations_issues w doi_final title cited :
  issues 2 (resolve_citations w doi_final title cited).
Proof.
  unfold resolve_citations.
  apply (issues_mbind 1 1).
  - unfold citations_by_doi.
    apply issues_if; [|apply (issues_le 0 1); [lia | apply issues_mret]].
    apply (issues_mbind 1 0); [apply fetch_semanticscholar_by_doi_issues|].
    intros [[c y] r]. apply issues_mret.
  - intros [c1 r1]. apply (issues_mbind 1 0).
    + unfold citations_by_title.
      apply issues_if; [|apply (issues_le 0 1); [lia | apply issues_mret]].
      apply (issues_mbind 1 0); [apply fetch_semanticscholar_by_title_issues|].
      intros [[[sc_cit sc_year] sc_r] sc_ext]. issues_pure.
    + intros [[c2 d'] r2]. apply issues_mret.
Qed.

Lemma process_article_issues w email CY art :
  issues 5 (process_article w email CY art).
Proof.
  unfold process_article.
  apply (issues_mbind 0 5); [apply issues_lift | intros t0].
  apply (issues_mbind 0 5); [apply issues_lift | intros title_serp].
  apply (issues_mbind 0 5); [apply issues_lift | intros doi].
  apply (issues_mbind 1 4);
    [apply issues_if;
       [apply fetch_crossref_by_doi_issues
       | apply (issues_le 0 1); [lia | apply issues_mret]]
    | intros cr0].
  apply (issues_mbind 1 3);
    [apply issues_if;
       [apply fetch_crossref_by_title_issues
       | apply (issues_le 0 1); [lia | apply issues_mret]]
    | intros cr].
  do 5 (apply (issues_mbind 0 3); [apply issues_lift | intros ?]).
  apply (issues_mbind 0 3); [apply issues_lift | intros [n0 aw]].
  do 4 (apply (issues_mbind 0 3); [apply issues_lift | intros ?]).
  apply (issues_mbind 2 1); [apply resolve_citations_issues|].
  intros [[citations doi'] is_retracted].
  apply (issues_mbind 1 0);
    [apply issues_if;
       [apply fetch_unpaywall_issues
       | apply (issues_le 0 1); [lia | apply issues_mret]]
    | intros is_oa].
  issues_pure.
Qed.

(** The bound of five is reached: every lookup fails and each fallback is
    taken. *)
Example five_requests :
  snd (process_article offline "me@example.org" 2025 stub_with_doi [])
  = [CrossrefWork "10.1000/xyz"; CrossrefQuery "Stub title";
     S2Paper "10.1000/xyz"; S2Search "Stub title";
     Unpaywall (PStr "10.1000/xyz") "me@example.org"].
Proof. vm_compute. reflexivity. Qed.

Lemma mapMM_issues (n : nat) {A B} (f : A -> M B) (xs : list A) :
  (forall a, issues n (f a)) -> issues (n * List.length xs) (mapMM f xs).
Proof.
  intros Hf. induction xs as [|a xs IH]; simpl.
  - rewrite Nat.mul_0_r. apply issues_mret.
  - replace (n * S (List.length xs))%nat with (n + n * List.length xs)%nat by lia.
    apply issues_mbind; [apply Hf | intros b].
    replace (n * List.length xs)%nat with (n * List.length xs + 0)%nat by lia.
    apply issues_mbind; [exact IH | intros bs; apply issues_mret].
Qed.

(** X9: whatever its outcome, the processing of one publication issues
    at most 5 requests, the citation block at most 2, and a whole
    analysis at most 50. *)
Theorem request_budget (w : world) (email : string) (CY : Z) :
  (forall art, issues 5 (process_article w email CY art))
  /\ (forall log1p articles, issues 50 (analyze w email CY log1p articles))
  /\ (forall doi_final title cited,
        issues 2 (resolve_citations w doi_final title cited)).
Proof.
  split; [|split].
  - intros art. apply process_article_issues.
  - intros log1p articles. unfold analyze. cbv zeta.
    assert (Hlen : (List.length (firstn 10 articles) <= 10)%nat)
      by apply firstn_le_length.
    destruct (firstn 10 articles) as [|a arts] eqn:E;
      [apply (issues_le 0 50); [lia | apply issues_mret]|].
    apply (issues_le (5 * List.length (a :: arts) + 0) 50); [lia|].
    apply issues_mbind.
    + unfold build_rows. apply mapMM_issues. intros x.
      apply process_article_issues.
    + intros rows. issues_pure.
  - intros. apply resolve_citations_issues.
Qed.

(* ------------------------------------------------------------------ *)
(** * Further properties: the registry is asked by title only as a fallback *)

Lemma fetch_crossref_by_doi_log w doi l res l1 :
  fetch_crossref_by_doi w doi l = (res, l1) ->
  l1 = l \/ exists d, doi = PStr d /\ l1 = (l ++ [CrossrefWork d])%list.
Proof.
  unfold fetch_crossref_by_doi, try_except, mbind, lift, requests_get, mret.
  destruct doi; simpl; try (intros H; inversion H; now left).
  intros H. right. exists s. split; [reflexivity|].
  destruct (w (CrossrefWork s)) as [r|]; [|now inversion H].
  destruct (status_code r =? 200)%Z; [|now inversion H].
  destruct (json r) as [j|]; [|now inversion H].
  destruct (py_get j "message" (PDict [])); now inversion H.
Qed.

Lemma fetch_crossref_by_doi_answer w doi l :
  fst (fetch_crossref_by_doi w doi l) = fst (fetch_crossref_by_doi w doi []).
Proof.
  unfold fetch_crossref_by_doi, try_except, mbind, lift, requests_get, mret.
  destruct (quote_plus doi) as [d|]; [|reflexivity].
  destruct (w (CrossrefWork d)) as [r|]; [|reflexivity].
  destruct (status_code r =? 200)%Z; [|reflexivity].
  destruct (json r) as [j|]; [|reflexivity].
  destruct (py_get j "message" (PDict [])); reflexivity.
Qed.

Lemma fetch_unpaywall_openness w doi email :
  appends (fun q => is_openness q = true) (fetch_unpaywall w doi email).
Proof.
  unfold fetch_unpaywall. appends_tac. now apply appends_get.
Qed.

Lemma block_request_not_registry (d : string) (ext : list request) :
  Forall (block_request d) ext -> Forall (fun q => is_registry q = false) ext.
Proof.
  apply Forall_impl. intros q [[-> _] | H]; [reflexivity|].
  destruct q; simpl in *; congruence.
Qed.

Lemma openness_not_registry (ext : list request) :
  Forall (fun q => is_openness q = true) ext ->
  Forall (fun q => is_registry q = false) ext.
Proof.
  apply Forall_impl. intros q H. destruct q; simpl in *; congruence.
Qed.

Lemma not_registry_filter (ext : list request) :
  Forall (fun q => is_registry q = false) ext ->
  filter is_registry_query ext = [] /\ forall d, ~ In (CrossrefWork d) ext.
Proof.
  intros H. split.
  - induction H as [|q ext Hq _ IH]; [reflexivity|]. simpl. rewrite IH.
    destruct q; simpl in *; congruence.
  - intros d Hin. rewrite Forall_forall in H. specialize (H _ Hin).
    discriminate H.
Qed.

Lemma fetch_crossref_by_title_log w title l res l1 :
  fetch_crossref_by_title w title l = (res, l1) ->
  l1 = (l ++ [CrossrefQuery title])%list.
Proof.
  unfold fetch_crossref_by_title, try_except, mbind, lift, requests_get, mret.
  intros H.
  destruct (w (CrossrefQuery title)) as [r|]; [|now inversion H].
  destruct (raise_for_status r); [|now inversion H].
  destruct (json r) as [j|]; [|now inversion H].
  destruct (py_get j "message" (PDict [])) as [m|]; [|now inversion H].
  destruct (py_get m "items" (PList [])) as [items|]; [|now inversion H].
  destruct (truthy items); [|now inversion H].
  destruct (py_item0 items); now inversion H.
Qed.

(** The two registry steps of [process_article]: the query by title is
    made only when the lookup by DOI gave nothing. *)
Lemma registry_steps w doi ts l cra la crb lb :
  (if truthy doi then fetch_crossref_by_doi w doi else mret (PDict [])) l
  = (Ok cra, la) ->
  (if negb (truthy cra) then fetch_crossref_by_title w ts else mret cra) la
  = (Ok crb, lb) ->
  exists e,
    lb = (l ++ e)%list
    /\ forall d cr l1,
         In (CrossrefWork d) e ->
         fetch_crossref_by_doi w (PStr d) [] = (Ok cr, l1) ->
         truthy cr = true ->
         filter is_registry_query e = [] /\ crb = cr.
Proof.
  intros Hdoi Htitle.
  assert (Hfirst : la = l
                   \/ exists d0, la = (l ++ [CrossrefWork d0])%list
                                 /\ fst (fetch_crossref_by_doi w (PStr d0) [])
                                    = Ok cra).
  { destruct (truthy doi).
    - destruct (fetch_crossref_by_doi_log _ _ _ _ _ Hdoi) as [-> | [d0 [-> ->]]];
        [now left|].
      right. exists d0. split; [reflexivity|].
      rewrite <- (fetch_crossref_by_doi_answer w (PStr d0) l), Hdoi.
      reflexivity.
    - apply mret_Ok in Hdoi. destruct Hdoi as [_ ->]. now left. }
  assert (Hsecond : (truthy cra = true /\ lb = la /\ crb = cra)
                    \/ (truthy cra = false
                        /\ lb = (la ++ [CrossrefQuery ts])%list)).
  { destruct (truthy cra); simpl negb in Htitle; cbv iota in Htitle.
    - apply mret_Ok in Htitle. destruct Htitle as [-> ->]. now left.
    - right. split; [reflexivity|].
      now apply (fetch_crossref_by_title_log w ts la (Ok crb)). }
  destruct Hfirst as [-> | [d0 [-> Ha]]];
    destruct Hsecond as [[Tc [-> ->]] | [Tc ->]].
  - exists []. split; [now rewrite app_nil_r|]. intros d cr l1 [].
  - exists [CrossrefQuery ts]. split; [reflexivity|].
    intros d cr l1 [Hin | []]. discriminate Hin.
  - exists [CrossrefWork d0]. split; [reflexivity|].
    intros d cr l1 [Hin | []] Hf _. inversion Hin; subst d0.
    rewrite Hf in Ha. simpl in Ha. inversion Ha. auto.
  - exists [CrossrefWork d0; CrossrefQuery ts].
    split; [now rewrite <- app_assoc|].
    intros d cr l1 [Hin | [Hin | []]] Hf Hcr; [|discriminate Hin].
    inversion Hin; subst d0. rewrite Hf in Ha. simpl in Ha. inversion Ha.
    congruence.
Qed.

(** X10: in a run of [process_article] in which the registry was asked
    by DOI and gave a non-empty record, the registry is not asked by
    title, and the title of the row is the one merged from that record. *)
Theorem registry_title_query_only_as_fallback w email CY art l row l' :
  process_article w email CY art l = (Ok row, l') ->
  exists ext title_serp,
    l' = (l ++ ext)%list
    /\ rbind (py_get art "title" (PStr "")) py_strip = Ok title_serp
    /\ forall d cr l1,
         In (CrossrefWork d) ext ->
         fetch_crossref_by_doi w (PStr d) [] = (Ok cr, l1) ->
         truthy cr = true ->
         filter is_registry_query ext = []
         /\ title_of cr title_serp = Ok (Title row).
Proof.
  unfold process_article. intros H. repeat run_step. run_done. subst.
  match goal with
  | R : py_get art "title" (PStr "") = Ok ?v0, R' : py_strip ?v0 = Ok ?ts,
    R2 : (if truthy ?doi then fetch_crossref_by_doi w ?doi else _) l = (Ok ?cra, ?la),
    R3 : (if negb (truthy ?cra) then fetch_crossref_by_title w ?ts else _) ?la
         = (Ok ?crb, ?lb),
    R4 : title_of ?crb ?ts = Ok ?title,
    R14 : resolve_citations w (PStr ?d0) ?ts _ ?lb = (Ok (?z, ?p, ?b), ?l2),
    R15 : (if truthy ?p then fetch_unpaywall w ?p email else _) ?l2 = (_, ?l3)
    |- _ =>
      destruct (registry_steps w doi ts l cra la crb lb R2 R3) as [e [-> He]];
      destruct (resolve_citations_requests w d0 ts _ _ _ _ R14) as [eb [-> Fb]];
      destruct (appends_if (fun q => is_openness q = true) (truthy p) _ _
                  (fetch_unpaywall_openness w p email)
                  (appends_mret _ false) _ _ _ R15)
        as [e3 [-> F3]];
      apply block_request_not_registry, not_registry_filter in Fb;
      apply openness_not_registry, not_registry_filter in F3;
      exists (e ++ eb ++ e3)%list, ts;
      split; [now rewrite <- !app_assoc|];
      split; [rewrite R; exact R'|];
      intros d cr l1 Hin Hf Hcr;
      rewrite !in_app_iff in Hin;
      destruct Hin as [Hin | [Hin | Hin]];
      [ destruct (He d cr l1 Hin Hf Hcr) as [Hq ->];
        split; [|exact R4];
        rewrite !filter_app, Hq, (proj1 Fb), (proj1 F3); reflexivity
      | destruct (proj2 Fb d Hin)
      | destruct (proj2 F3 d Hin) ]
  end.
Qed.

Lemma registry_title_query_only_as_fallback_witness :
  exists row l',
    process_article registry_both "me@example.org" 2025 stub_with_doi []
    = (Ok row, l')
    /\ filter is_registry_query l' = []
    /\ Title row = PStr "By DOI".
Proof.
  destruct (process_article registry_both "me@example.org" 2025 stub_with_doi [])
    as [[row|] l'] eqn:E; [|vm_compute in E; discriminate E].
  destruct (registry_title_query_only_as_fallback _ _ _ _ _ _ _ E)
    as [ext [ts [-> [Hts Hext]]]].
  assert (Hin : In (CrossrefWork "10.1000/xyz") ext).
  { vm_compute in E. inversion E. simpl. auto. }
  vm_compute in Hts. inversion Hts; subst ts.
  destruct (Hext "10.1000/xyz"
              (PDict [("title", PList [PStr "By DOI"])])
              [CrossrefWork "10.1000/xyz"] Hin eq_refl eq_refl) as [Hq Ht].
  exists row, ([] ++ ext)%list. split; [reflexivity|].
  split; [exact Hq|]. vm_compute in Ht. now inversion Ht.
Defined.

(* ------------------------------------------------------------------ *)
(** * Further properties: the citation block *)

Ltac run_close :=
  repeat match goal with
    | R : Ok _ = Ok _ |- _ => inversion R; subst; clear R
    | K : mret _ _ = (Ok _, _) |- _ =>
        let E := fresh "E" in apply mret_Ok in K; destruct K as [K E]
    | E : (_, _, _) = (_, _, _) |- _ => inversion E; subst; clear E
    end.

Lemma citations_by_title_result w title doi_final c1 r1 l1 sc_cit sc_year sc_r
    sc_ext l2 c d r l' :
  fetch_semanticscholar_by_title w title l1
  = (Ok (sc_cit, sc_year, sc_r, sc_ext), l2) ->
  citations_by_title w title doi_final c1 r1 l1 = (Ok (c, d, r), l') ->
  let used := (negb (truthy doi_final) || ((c1 =? 0)%Z && negb r1))
              && negb (sc_cit =? 0)%Z in
  c = (if used then sc_cit else c1)
  /\ (truthy doi_final = true -> d = doi_final)
  /\ (used = false -> d = doi_final)
  /\ (used = true -> truthy doi_final = false ->
      exists d1 d2,
        py_get sc_ext "DOI" PNone = Ok d1
        /\ py_get sc_ext "doi" PNone = Ok d2
        /\ d = py_or d1 (py_or d2 doi_final)).
Proof.
  intros Hf. cbv zeta. unfold citations_by_title.
  destruct (negb (truthy doi_final) || ((c1 =? 0)%Z && negb r1)) eqn:Ea.
  - unfold mbind at 1. rewrite Hf.
    destruct (negb (sc_cit =? 0)%Z) eqn:Ec; simpl andb; cbv iota.
    + destruct (truthy doi_final) eqn:Td; simpl negb; cbv iota.
      * intros H. run_inv H. run_close.
        repeat split; try reflexivity; intros; discriminate.
      * intros H. run_inv H. run_inv R. run_inv K0. run_close.
        repeat split; try reflexivity; try (intros; discriminate).
        intros _ _. eauto.
    + intros H. run_close.
      repeat split; try reflexivity; intros; discriminate.
  - simpl andb. cbv iota. intros H. run_close.
    repeat split; try reflexivity; intros; discriminate.
Qed.

Lemma resolve_citations_inv w doi_final title cited l c d r l' :
  resolve_citations w doi_final title cited l = (Ok (c, d, r), l') ->
  exists c1 r1 l1 c2,
    citations_by_doi w doi_final l = (Ok (c1, r1), l1)
    /\ citations_by_title w title doi_final c1 r1 l1 = (Ok (c2, d, r), l')
    /\ c = (if (c2 =? 0)%Z then cited else c2).
Proof.
  unfold resolve_citations. intros H. repeat run_step. run_close.
  match goal with
  | R1 : citations_by_doi _ _ _ = (Ok (?c1, ?r1), ?l1),
    R2 : citations_by_title _ _ _ _ _ _ = (Ok (?c2, _, _), _) |- _ =>
      exists c1, r1, l1, c2; auto
  end.
Qed.

Lemma citations_by_doi_skipped w doi_final l c1 r1 l1 :
  truthy doi_final = false ->
  citations_by_doi w doi_final l = (Ok (c1, r1), l1) ->
  c1 = 0%Z /\ r1 = false /\ l1 = l.
Proof.
  intros Td. unfold citations_by_doi. rewrite Td. intros H.
  apply mret_Ok in H. destruct H as [H ->]. inversion H. auto.
Qed.

(** X11: the citation block never replaces a non-empty DOI; when the
    DOI it returns differs from the one it was given, that one was empty,
    the lookup by title reported the (non-zero) citation count returned,
    and the new DOI was read from the identifiers of that lookup. *)
Theorem resolved_doi_is_kept w doi_final title cited l c d r l' :
  resolve_citations w doi_final title cited l = (Ok (c, d, r), l') ->
  (truthy doi_final = true -> d = doi_final)
  /\ (d <> doi_final ->
      truthy doi_final = false
      /\ c <> 0%Z
      /\ exists sc_year sc_r sc_ext d1 d2,
           fetch_semanticscholar_by_title w title l
           = (Ok (c, sc_year, sc_r, sc_ext), l')
           /\ py_get sc_ext "DOI" PNone = Ok d1
           /\ py_get sc_ext "doi" PNone = Ok d2
           /\ d = py_or d1 (py_or d2 doi_final)).
Proof.
  intros H.
  destruct (resolve_citations_inv _ _ _ _ _ _ _ _ _ H)
    as [c1 [r1 [l1 [c2 [H1 [H2 Hc]]]]]].
  destruct (fetch_semanticscholar_by_title_total w title l1)
    as [sc_cit [sc_year [sc_r [sc_ext [l2 Hf]]]]].
  destruct (citations_by_title_result _ _ _ _ _ _ _ _ _ _ _ _ _ _ _ Hf H2)
    as [Hc2 [Hkeep [Hunused Hused]]].
  split; [exact Hkeep|].
  intros Hne.
  destruct (truthy doi_final) eqn:Td; [destruct (Hne (Hkeep eq_refl))|].
  destruct (citations_by_doi_skipped _ _ _ _ _ _ Td H1) as [-> [-> ->]].
  destruct ((negb false || ((0 =? 0)%Z && negb false)) && negb (sc_cit =? 0)%Z)
    eqn:Eu; [|destruct (Hne (Hunused eq_refl))].
  simpl in Eu. apply negb_true_iff in Eu.
  destruct (Hused eq_refl eq_refl) as [d1 [d2 [Hd1 [Hd2 Hd]]]].
  subst c2. rewrite Eu in Hc. subst c.
  split; [reflexivity|]. split; [now apply Z.eqb_neq|].
  exists sc_year, sc_r, sc_ext, d1, d2.
  assert (Hl : l2 = l').
  { unfold citations_by_title in H2. rewrite ?Td in H2.
    cbn [negb orb] in H2. unfold mbind at 1 in H2.
    rewrite Hf, Eu in H2. cbn [negb] in H2.
    run_inv H2. run_inv R. run_inv K0. run_close. reflexivity. }
  subst l2. auto.
Qed.

Lemma resolved_doi_is_kept_witness :
  exists c r l',
    resolve_citations title_hit_open (PStr "10.1000/xyz") "T" 0 []
    = (Ok (c, PStr "10.1000/xyz", r), l').
Proof.
  destruct (resolve_citations title_hit_open (PStr "10.1000/xyz") "T" 0 [])
    as [[[[c d] r]|] l'] eqn:E; [|vm_compute in E; discriminate E].
  exists c, r, l'.
  rewrite <- (proj1 (resolved_doi_is_kept _ _ _ _ _ _ _ _ _ E) eq_refl).
  reflexivity.
Defined.

(** X12: the citation count of the block is the count of the lookup by
    DOI when it is not zero; else the count of the lookup by title when
    that lookup is made and its count is not zero; else the inline count
    of the stub.  In particular a non-zero inline count is never turned
    into zero. *)
Theorem citation_count_priority w doi_final title cited l c d r l' :
  resolve_citations w doi_final title cited l = (Ok (c, d, r), l') ->
  exists c1 r1 l1 sc_cit sc_year sc_r sc_ext l2,
    citations_by_doi w doi_final l = (Ok (c1, r1), l1)
    /\ fetch_semanticscholar_by_title w title l1
       = (Ok (sc_cit, sc_year, sc_r, sc_ext), l2)
    /\ (c1 <> 0%Z -> c = c1)
    /\ (c1 = 0%Z -> r1 = true -> truthy doi_final = true -> c = cited)
    /\ (c1 = 0%Z -> (r1 = false \/ truthy doi_final = false) ->
        sc_cit <> 0%Z -> c = sc_cit)
    /\ (c1 = 0%Z -> sc_cit = 0%Z -> c = cited)
    /\ (cited <> 0%Z -> c <> 0%Z).
Proof.
  intros H.
  destruct (resolve_citations_inv _ _ _ _ _ _ _ _ _ H)
    as [c1 [r1 [l1 [c2 [H1 [H2 Hc]]]]]].
  destruct (fetch_semanticscholar_by_title_total w title l1)
    as [sc_cit [sc_year [sc_r [sc_ext [l2 Hf]]]]].
  destruct (citations_by_title_result _ _ _ _ _ _ _ _ _ _ _ _ _ _ _ Hf H2)
    as [Hc2 _].
  exists c1, r1, l1, sc_cit, sc_year, sc_r, sc_ext, l2.
  split; [exact H1|]. split; [exact Hf|].
  assert (Hdoi : truthy doi_final = false -> c1 = 0%Z).
  { intros Td. now destruct (citations_by_doi_skipped _ _ _ _ _ _ Td H1). }
  subst c c2.
  destruct (truthy doi_final) eqn:Td; destruct r1;
    destruct (Z.eqb_spec c1 0) as [E1|E1];
    destruct (Z.eqb_spec sc_cit 0) as [Es|Es];
    cbn [negb orb andb];
    repeat match goal with
      | |- context [(?x =? 0)%Z] => destruct (Z.eqb_spec x 0)
      end;
    try (specialize (Hdoi eq_refl));
    (split; [intros; congruence|]);
    (split; [intros; congruence|]);
    (split; [intros ? [? | ?] ?; congruence|]);
    (split; [intros; congruence|]);
    intros; congruence.
Qed.

Lemma citation_count_priority_witness :
  exists c d r l',
    resolve_citations empty_results (PStr "") "T" 12 [] = (Ok (c, d, r), l')
    /\ c <> 0%Z.
Proof.
  destruct (resolve_citations empty_results (PStr "") "T" 12 [])
    as [[[[c d] r]|] l'] eqn:E; [|vm_compute in E; discriminate E].
  exists c, d, r, l'. split; [reflexivity|].
  destruct (citation_count_priority _ _ _ _ _ _ _ _ _ E)
    as [c1 [r1 [l1 [sc [sy [sr [se [l2 [_ [_ [_ [_ [_ [_ Hnz]]]]]]]]]]]]]].
  apply Hnz. discriminate.
Defined.

(** X13: a row produced from a stub with a non-zero inline citation
    count (read from [cited_by.value] or from an integer [cited_by]) has a
    non-zero citation count. *)
Theorem inline_count_is_not_lost w email CY art l row l' :
  process_article w email CY art l = (Ok row, l') ->
  (cited_by_of art <> 0%Z -> Citations row <> 0%Z)
  /\ (forall cb n,
        py_get art "cited_by" PNone = Ok (PDict cb) ->
        py_get (PDict cb) "value" (PInt 0) = Ok (PInt n) ->
        n <> 0%Z -> Citations row <> 0%Z)
  /\ (forall n, py_get art "cited_by" PNone = Ok (PInt n) ->
        n <> 0%Z -> Citations row <> 0%Z).
Proof.
  intros H.
  destruct (process_article_citation_block _ _ _ _ _ _ _ H)
    as [doi_final [title_serp [doi' [l1 [l2 [Hb _]]]]]].
  destruct (resolve_citations_inv _ _ _ _ _ _ _ _ _ Hb)
    as [c1 [r1 [la [c2 [_ [_ Hc]]]]]].
  assert (Hfloor : cited_by_of art <> 0%Z -> Citations row <> 0%Z).
  { intros Hnz. rewrite Hc. destruct (Z.eqb_spec c2 0); assumption. }
  split; [exact Hfloor|]. split.
  - intros cb n Hcb Hv Hn. apply Hfloor. unfold cited_by_of.
    rewrite Hcb. unfold rbind. rewrite Hv. simpl.
    unfold py_or. simpl. destruct (Z.eqb_spec n 0); [contradiction|].
    simpl. exact Hn.
  - intros n Hcb Hn. apply Hfloor. unfold cited_by_of.
    rewrite Hcb. simpl. exact Hn.
Qed.

Lemma inline_count_is_not_lost_witness :
  exists row l',
    process_article offline "me@example.org" 2025 stub_cited_12 []
    = (Ok row, l')
    /\ Citations row <> 0%Z.
Proof.
  destruct (process_article offline "me@example.org" 2025 stub_cited_12 [])
    as [[row|] l'] eqn:E; [|vm_compute in E; discriminate E].
  exists row, l'. split; [reflexivity|].
  apply (proj1 (inline_count_is_not_lost _ _ _ _ _ _ _ E)).
  vm_compute. discriminate.
Defined.

Lemma fetch_crossref_by_doi_not_openness w doi :
  appends (fun q => is_openness q = false) (fetch_crossref_by_doi w doi).
Proof.
  unfold fetch_crossref_by_doi. appends_tac. now apply appends_get.
Qed.

Lemma fetch_crossref_by_title_not_openness w title :
  appends (fun q => is_openness q = false) (fetch_crossref_by_title w title).
Proof.
  unfold fetch_crossref_by_title. appends_tac. now apply appends_get.
Qed.

Lemma block_request_not_openness (d : string) (ext : list request) :
  Forall (block_request d) ext -> Forall (fun q => is_openness q = false) ext.
Proof.
  apply Forall_impl. intros q [[-> _] | H]; [reflexivity|].
  destruct q; simpl in *; congruence.
Qed.

Lemma not_openness_filter (ext : list request) :
  Forall (fun q => is_openness q = false) ext -> filter is_openness ext = [].
Proof.
  induction 1 as [|q ext Hq _ IH]; [reflexivity|]. simpl. now rewrite Hq.
Qed.

Lemma fetch_unpaywall_log w doi email l res l1 :
  truthy doi = true ->
  fetch_unpaywall w doi email l = (res, l1) ->
  l1 = (l ++ [Unpaywall doi email])%list.
Proof.
  intros Td. unfold fetch_unpaywall. rewrite Td. simpl negb. cbv iota.
  unfold try_except, mbind, lift, requests_get, mret. intros H.
  destruct (w (Unpaywall doi email)) as [r|]; [|now inversion H].
  destruct (status_code r =? 200)%Z; [|now inversion H].
  destruct (json r) as [j|]; [|now inversion H].
  destruct (py_get j "is_oa" (PBool false)); now inversion H.
Qed.

(** X14: a row is open access only if its DOI is not empty; a run that
    ends with an empty DOI makes no open-access request, and a run that
    ends with a DOI makes exactly one, for that DOI. *)
Theorem open_access_needs_a_doi w email CY art l row l' :
  process_article w email CY art l = (Ok row, l') ->
  exists ext,
    l' = (l ++ ext)%list
    /\ (is_OA row = true -> truthy (DOI row) = true)
    /\ (truthy (DOI row) = false ->
        is_OA row = false /\ filter is_openness ext = [])
    /\ (truthy (DOI row) = true ->
        filter is_openness ext = [Unpaywall (DOI row) email]).
Proof.
  unfold process_article. intros H. repeat run_step. run_done. subst.
  match goal with
  | R2 : (if truthy ?doi then fetch_crossref_by_doi w ?doi else _) l = (_, ?la),
    R3 : (if negb _ then fetch_crossref_by_title w ?ts else _) ?la = (_, ?lb),
    R14 : resolve_citations w (PStr ?d0) ?ts _ ?lb = (Ok (?z, ?p, ?b), ?l2),
    R15 : (if truthy ?p then fetch_unpaywall w ?p email else _) ?l2 = (Ok ?oa, ?l3)
    |- _ =>
      destruct (appends_if (fun q => is_openness q = false) (truthy doi) _ _
                  (fetch_crossref_by_doi_not_openness w doi)
                  (appends_mret _ (PDict [])) _ _ _ R2)
        as [e1 [-> F1]];
      destruct (appends_if (fun q => is_openness q = false) _ _ _
                  (fetch_crossref_by_title_not_openness w ts)
                  (appends_mret _ _) _ _ _ R3)
        as [e2 [-> F2]];
      destruct (resolve_citations_requests w d0 ts _ _ _ _ R14) as [eb [-> Fb]];
      apply block_request_not_openness in Fb;
      apply not_openness_filter in F1, F2, Fb;
      simpl; unfold py_or;
      destruct (truthy p) eqn:Tp
  end.
  - match goal with
    | R15 : fetch_unpaywall _ _ _ _ = _ |- _ =>
        rewrite (fetch_unpaywall_log _ _ _ _ _ _ Tp R15)
    end.
    eexists. split; [rewrite <- !app_assoc; reflexivity|].
    rewrite !filter_app, F1, F2, Fb. cbn [app filter is_openness].
    split; [intros _; exact Tp|].
    split; [intros Hf; rewrite Tp in Hf; discriminate Hf | reflexivity].
  - match goal with
    | R15 : mret false _ = _ |- _ => apply mret_Ok in R15; destruct R15 as [-> ->]
    end.
    exists (e1 ++ e2 ++ eb)%list. split; [now rewrite <- !app_assoc|].
    rewrite !filter_app, F1, F2, Fb. cbn [app].
    split; [discriminate|]. split; [auto | intros Ht; discriminate Ht].
Qed.

Lemma open_access_needs_a_doi_witness :
  exists row l',
    process_article title_hit_open "me@example.org" 2025 stub_plain []
    = (Ok row, l')
    /\ is_OA row = true
    /\ truthy (DOI row) = true.
Proof.
  destruct (process_article title_hit_open "me@example.org" 2025 stub_plain [])
    as [[row|] l'] eqn:E; [|vm_compute in E; discriminate E].
  destruct (open_access_needs_a_doi _ _ _ _ _ _ _ E) as [ext [_ [Hoa _]]].
  assert (Ho : is_OA row = true) by (vm_compute in E; now inversion E).
  exists row, l'. split; [reflexivity|]. split; [exact Ho | exact (Hoa Ho)].
Defined.

(* ------------------------------------------------------------------ *)
(** * Further properties: citation rate and scores *)

Lemma Qdiv_le_numerator (c a : Z) :
  (0 <= c)%Z -> (1 <= a)%Z -> 0 <= inject_Z c / inject_Z a <= inject_Z c.
Proof.
  intros Hc Ha.
  assert (Hc' : 0 <= inject_Z c)
    by (change 0 with (inject_Z 0); now rewrite <- Zle_Qle).
  assert (Ha' : 1 <= inject_Z a)
    by (change 1 with (inject_Z 1); now rewrite <- Zle_Qle).
  assert (Hp : 0 < inject_Z a) by lra.
  split.
  - apply Qle_shift_div_l; [exact Hp|]. lra.
  - apply Qle_shift_div_r; [exact Hp|]. nra.
Qed.

Lemma Qdiv_le_denominator (c a b : Z) :
  (0 <= c)%Z -> (1 <= b <= a)%Z ->
  inject_Z c / inject_Z a <= inject_Z c / inject_Z b.
Proof.
  intros Hc [Hb Hba].
  assert (Hc' : 0 <= inject_Z c)
    by (change 0 with (inject_Z 0); now rewrite <- Zle_Qle).
  assert (Hb' : 1 <= inject_Z b)
    by (change 1 with (inject_Z 1); now rewrite <- Zle_Qle).
  assert (Hba' : inject_Z b <= inject_Z a) by now rewrite <- Zle_Qle.
  assert (Hpa : 0 < inject_Z a) by lra.
  assert (Hpb : 0 < inject_Z b) by lra.
  apply Qle_shift_div_l; [exact Hpb|].
  assert (E : inject_Z c / inject_Z a * inject_Z b
              == inject_Z c * inject_Z b / inject_Z a) by (field; lra).
  rewrite E. apply Qle_shift_div_r; [exact Hpa|]. nra.
Qed.

Lemma compute_cpy_range (CY c : Z) (year : pyval) :
  (0 <= c)%Z -> 0 <= compute_cpy CY (Some c) year <= inject_Z c.
Proof.
  intros Hc.
  assert (Hc' : 0 <= inject_Z c)
    by (change 0 with (inject_Z 0); now rewrite <- Zle_Qle).
  unfold compute_cpy. destruct (negb (truthy year)); [lra|].
  destruct (py_int year) as [y|]; [|lra].
  apply Qdiv_le_numerator; lia.
Qed.

(** X15: for a non-negative citation count, [compute_cpy] lies between
    0 and the count, does not decrease when the (integer) year increases,
    and equals the count for a year that is the reference year or later. *)
Theorem compute_cpy_bounds (CY c : Z) :
  (0 <= c)%Z ->
  (forall year, 0 <= compute_cpy CY (Some c) year <= inject_Z c)
  /\ (forall y y', y <> 0%Z -> y' <> 0%Z -> (y <= y')%Z ->
        compute_cpy CY (Some c) (PInt y) <= compute_cpy CY (Some c) (PInt y'))
  /\ (forall y, y <> 0%Z -> (CY <= y)%Z ->
        compute_cpy CY (Some c) (PInt y) == inject_Z c).
Proof.
  intros Hc. split; [|split].
  - intros year. now apply compute_cpy_range.
  - intros y y' Hy Hy' Hle. unfold compute_cpy. simpl.
    apply Z.eqb_neq in Hy, Hy'. rewrite Hy, Hy'. simpl.
    apply Qdiv_le_denominator; lia.
  - intros y Hy Hle. unfold compute_cpy. simpl.
    apply Z.eqb_neq in Hy. rewrite Hy. simpl.
    rewrite Z.max_l by lia. unfold Qdiv. change (/ inject_Z 1) with 1. ring.
Qed.

Lemma compute_cpy_bounds_witness :
  0 <= compute_cpy 2025 (Some 12%Z) (PStr "2019") <= inject_Z 12
  /\ compute_cpy 2025 (Some 12%Z) (PInt 2010)
     <= compute_cpy 2025 (Some 12%Z) (PInt 2020).
Proof.
  assert (H : (0 <= 12)%Z) by lia.
  destruct (compute_cpy_bounds 2025 12 H) as [H1 [H2 _]]. split.
  - apply H1.
  - apply H2; lia.
Defined.

(** X16: in every row, the citation rate is 0 when the year is absent,
    lies between 0 and the citation count when that count is not negative,
    and is a multiple of one thousandth. *)
Theorem row_citation_rate w email CY art l row l' :
  process_article w email CY art l = (Ok row, l') ->
  (Year row = None -> CPY row == 0)
  /\ ((0 <= Citations row)%Z -> 0 <= CPY row <= inject_Z (Citations row))
  /\ (exists k, CPY row = inject_Z k / inject_Z 1000).
Proof.
  unfold process_article. intros H. repeat run_step. run_done. subst row.
  simpl. split; [|split].
  - intros Hy. subst.
    match goal with
    | R : row_year ?y = Ok None |- _ =>
        unfold row_year in R; destruct (truthy y) eqn:Ty;
        [destruct (py_int y); discriminate R|];
        unfold py_or; rewrite Ty
    end.
    simpl. apply py_round_zero.
  - intros Hc. apply py_round_between. now apply compute_cpy_range.
  - eexists. reflexivity.
Qed.

Lemma row_citation_rate_witness :
  exists row l',
    process_article offline "me@example.org" 2025 stub_plain [] = (Ok row, l')
    /\ CPY row == 0.
Proof.
  destruct (process_article offline "me@example.org" 2025 stub_plain [])
    as [[row|] l'] eqn:E; [|vm_compute in E; discriminate E].
  exists row, l'. split; [reflexivity|].
  apply (proj1 (row_citation_rate _ _ _ _ _ _ _ E)).
  vm_compute in E. now inversion E.
Defined.

Lemma row_rim_value (log1p : Q -> Q) (max_cpy : Q) (r : row) (rim : Q) :
  row_rim log1p max_cpy r = Ok rim ->
  exists C,
    logC log1p (CPY r) max_cpy = Ok C
    /\ rim = py_round (weighted_sum C (1 # 2) (float_of_bool (is_OA r))
                         (if Is_Retracted r then 0 else 1)
                         (float_of_bool (Funder_present r))
                         (Author_affil_completeness r) 0 * 100) 2.
Proof.
  unfold row_rim, compute_rim_with_logC.
  destruct (logC log1p (CPY r) max_cpy) as [C|]; simpl; [|discriminate].
  intros H. inversion H. now exists C.
Qed.

Lemma py_round_le_int (b : Z) (x : Q) (nd : nat) :
  x <= inject_Z b -> py_round x nd <= inject_Z b.
Proof.
  intros H. apply (py_round_between (Qfloor x) b). split; [apply Qfloor_le | exact H].
Qed.

Lemma badge_excellent (rim : Q) : get_rim_badge rim = "Excellent" -> 80 <= rim.
Proof.
  unfold get_rim_badge. destruct (Qle_bool 80 rim) eqn:E.
  - intros _. now apply Qle_bool_iff.
  - destruct (Qle_bool 60 rim); [discriminate|].
    destruct (Qle_bool 40 rim); discriminate.
Qed.

Lemma color_green (rim : Q) : get_rim_color rim = "green" -> 80 <= rim.
Proof.
  unfold get_rim_color. destruct (Qle_bool 80 rim) eqn:E.
  - intros _. now apply Qle_bool_iff.
  - destruct (Qle_bool 60 rim); [discriminate|].
    destruct (Qle_bool 40 rim); discriminate.
Qed.

(** X17: in a batch, the RIM of a retracted row is at most 65, that of a
    row without open access at most 70, that of a row without funder at
    most 75; hence a row is shown "Excellent" (green) only if it is open
    access, funded and not retracted. *)
Theorem excellent_needs_all_signals (log1p : Q -> Q)
    (log1p_mono : forall x y, -1 < x -> x <= y -> log1p x <= log1p y)
    (log1p_pos : forall x, 0 < x -> 0 < log1p x)
    (rows : list row) (r : row) (rim : Q) :
  In r rows ->
  Author_affil_completeness r <= 1 ->
  row_rim log1p (series_max (map CPY rows)) r = Ok rim ->
  (Is_Retracted r = true -> rim <= 65)
  /\ (is_OA r = false -> rim <= 70)
  /\ (Funder_present r = false -> rim <= 75)
  /\ (get_rim_badge rim = "Excellent" \/ get_rim_color rim = "green" ->
      is_OA r = true /\ Funder_present r = true /\ Is_Retracted r = false).
Proof.
  intros Hin HO Hrim.
  destruct (row_rim_value _ _ _ _ Hrim) as [C [EC ->]].
  assert (HC : C <= 1).
  { apply (logC_le_1 log1p log1p_mono log1p_pos (CPY r)
             (series_max (map CPY rows)) C); [|exact EC].
    apply series_max_ge. now apply in_map. }
  pose proof (float_of_bool_bounds (is_OA r)) as BD.
  pose proof (float_of_bool_bounds (Funder_present r)) as BF.
  assert (H65 : Is_Retracted r = true ->
                py_round (weighted_sum C (1 # 2) (float_of_bool (is_OA r))
                  (if Is_Retracted r then 0 else 1)
                  (float_of_bool (Funder_present r))
                  (Author_affil_completeness r) 0 * 100) 2 <= 65).
  { intros ->. apply (py_round_le_int 65). change (inject_Z 65) with (65 # 1).
    unfold weighted_sum, weights. lra. }
  assert (H70 : is_OA r = false ->
                py_round (weighted_sum C (1 # 2) (float_of_bool (is_OA r))
                  (if Is_Retracted r then 0 else 1)
                  (float_of_bool (Funder_present r))
                  (Author_affil_completeness r) 0 * 100) 2 <= 70).
  { intros E. rewrite E in *. apply (py_round_le_int 70).
    change (inject_Z 70) with (70 # 1).
    unfold weighted_sum, weights. simpl float_of_bool.
    destruct (Is_Retracted r); lra. }
  assert (H75 : Funder_present r = false ->
                py_round (weighted_sum C (1 # 2) (float_of_bool (is_OA r))
                  (if Is_Retracted r then 0 else 1)
                  (float_of_bool (Funder_present r))
                  (Author_affil_completeness r) 0 * 100) 2 <= 75).
  { intros E. rewrite E in *. apply (py_round_le_int 75).
    change (inject_Z 75) with (75 # 1).
    unfold weighted_sum, weights. simpl float_of_bool.
    destruct (Is_Retracted r); lra. }
  split; [exact H65|]. split; [exact H70|]. split; [exact H75|].
  intros Hband.
  assert (H80 : 80 <= py_round (weighted_sum C (1 # 2) (float_of_bool (is_OA r))
                  (if Is_Retracted r then 0 else 1)
                  (float_of_bool (Funder_present r))
                  (Author_affil_completeness r) 0 * 100) 2).
  { destruct Hband as [Hb | Hc]; [now apply badge_excellent | now apply color_green]. }
  split; [|split].
  - destruct (is_OA r); [reflexivity|]. specialize (H70 eq_refl). lra.
  - destruct (Funder_present r); [reflexivity|]. specialize (H75 eq_refl). lra.
  - destruct (Is_Retracted r); [|reflexivity]. specialize (H65 eq_refl). lra.
Qed.

Lemma excellent_needs_all_signals_witness :
  exists rim,
    row_rim (fun x => x)
      (series_max (map CPY [sample_row 20 true true true 1]))
      (sample_row 20 true true true 1) = Ok rim
    /\ rim <= 65.
Proof.
  assert (Hmono : forall x y : Q, -1 < x -> x <= y -> x <= y) by (intros; assumption).
  assert (Hpos : forall x : Q, 0 < x -> 0 < x) by (intros; assumption).
  eexists. split; [vm_compute; reflexivity|].
  apply (excellent_needs_all_signals (fun x => x) Hmono Hpos
           [sample_row 20 true true true 1] (sample_row 20 true true true 1)).
  - simpl. auto.
  - vm_compute. discriminate.
  - vm_compute. reflexivity.
  - reflexivity.
Defined.

(** X18: the citation component is 1 for the row whose citation rate is
    the positive batch maximum, is 0 for every row when the maximum is not
    positive, is 0 for a rate of 0 (given [log1p(0) = 0]), and the
    computation raises for a rate of -1 or less. *)
Theorem citation_component_extremes (log1p : Q -> Q)
    (log1p_pos : forall x, 0 < x -> 0 < log1p x) :
  (forall m, 0 < m -> exists C, logC log1p m m = Ok C /\ C == 1)
  /\ (forall cpy m, m <= 0 -> logC log1p cpy m = Ok 0)
  /\ (forall m, 0 < m -> log1p 0 == 0 ->
        exists C, logC log1p 0 m = Ok C /\ C == 0)
  /\ (forall cpy m, cpy <= -1 -> 0 < m -> logC log1p cpy m = Raise).
Proof.
  split; [|split; [|split]].
  - intros m Hm. unfold logC.
    assert (E1 : Qeq_bool m 0 = false).
    { destruct (Qeq_bool m 0) eqn:E; [|reflexivity].
      apply Qeq_bool_iff in E. lra. }
    assert (E2 : Qlt_bool 0 m = true) by now apply Qlt_bool_iff.
    rewrite E1, E2. simpl. rewrite math_log1p_defined by lra. simpl.
    unfold py_div. pose proof (log1p_pos m Hm) as Hp.
    destruct (Qeq_bool (log1p m) 0) eqn:E;
      [apply Qeq_bool_iff in E; lra|].
    eexists. split; [reflexivity|]. field. lra.
  - intros cpy m Hm. unfold logC.
    destruct (Qlt_bool 0 m) eqn:E; [apply Qlt_bool_iff in E; lra|].
    now rewrite andb_false_r.
  - intros m Hm H0. unfold logC.
    assert (E1 : Qeq_bool m 0 = false).
    { destruct (Qeq_bool m 0) eqn:E; [|reflexivity].
      apply Qeq_bool_iff in E. lra. }
    assert (E2 : Qlt_bool 0 m = true) by now apply Qlt_bool_iff.
    rewrite E1, E2. simpl. rewrite !math_log1p_defined by lra. simpl.
    unfold py_div. pose proof (log1p_pos m Hm) as Hp.
    destruct (Qeq_bool (log1p m) 0) eqn:E;
      [apply Qeq_bool_iff in E; lra|].
    eexists. split; [reflexivity|]. rewrite H0. field. lra.
  - intros cpy m Hc Hm. unfold logC.
    assert (E1 : Qeq_bool m 0 = false).
    { destruct (Qeq_bool m 0) eqn:E; [|reflexivity].
      apply Qeq_bool_iff in E. lra. }
    assert (E2 : Qlt_bool 0 m = true) by now apply Qlt_bool_iff.
    rewrite E1, E2. simpl. unfold math_log1p at 1.
    apply Qle_bool_iff in Hc. now rewrite Hc.
Qed.

Lemma citation_component_extremes_witness :
  (exists C, logC (fun x => x) 20 20 = Ok C /\ C == 1)
  /\ logC (fun x => x) 5 0 = Ok 0.
Proof.
  assert (Hpos : forall x : Q, 0 < x -> 0 < x) by (intros; assumption).
  destruct (citation_component_extremes (fun x => x) Hpos) as [H1 [H2 _]].
  split.
  - apply H1. reflexivity.
  - apply H2. discriminate.
Defined.

Lemma risk_factor_floor (rim : Q) :
  rim <= 85 -> 15 # 100 <= risk_factor rim <= 1.
Proof.
  intros H. unfold risk_factor.
  assert (Hd : rim / 100 == rim * (1 # 100)) by field.
  split; [|apply clip_bounds; lra].
  unfold clip.
  destruct (Qlt_bool (1 - rim / 100) 0) eqn:E1;
    [apply Qlt_bool_iff in E1; lra|].
  destruct (Qlt_bool 1 (1 - rim / 100)) eqn:E2; lra.
Qed.

(** X19: every risk factor of an analysis lies between 0.15 and 1, and
    equals [1 - rim/100] for every RIM that is not negative. *)
Theorem risk_factor_at_least_15_percent (log1p : Q -> Q)
    (log1p_mono : forall x y, -1 < x -> x <= y -> log1p x <= log1p y)
    (log1p_pos : forall x, 0 < x -> 0 < log1p x)
    w email CY articles l rows rims risks l' :
  analyze w email CY log1p articles l = (Ok (Some (rows, rims, risks)), l') ->
  Forall (fun risk => 15 # 100 <= risk <= 1) risks
  /\ Forall2 (fun rim risk => 0 <= rim -> risk == 1 - rim / 100) rims risks.
Proof.
  intros H. unfold analyze in H. cbv zeta in H.
  destruct (firstn 10 articles) as [|a arts];
    [apply mret_Ok in H; destruct H; discriminate|].
  repeat run_step. run_done.
  match goal with
  | Heq : Some (rows, rims, risks) = Some _ |- _ =>
      inversion Heq; subst; clear Heq
  end.
  match goal with
  | Hb : build_rows _ _ _ _ _ = (Ok ?rs, _),
    Hr : rim_column _ ?rs = Ok ?rm |- _ =>
      assert (H85 : Forall (fun rim => rim <= 85) rm)
        by (apply (rim_column_le_85 log1p rs rm log1p_mono log1p_pos);
            [|exact Hr];
            apply build_rows_completeness in Hb;
            eapply Forall_impl; [|exact Hb]; cbv beta; intros r Hr'; apply Hr');
      clear Hb Hr
  end.
  unfold risk_column. split.
  - induction H85 as [|rim rm Hrim _ IH]; simpl; [constructor|].
    constructor; [now apply risk_factor_floor | exact IH].
  - induction H85 as [|rim rm Hrim _ IH]; simpl; [constructor|].
    constructor; [|exact IH].
    intros H0. unfold risk_factor.
    assert (Hd : rim / 100 == rim * (1 # 100)) by field.
    assert (Hr : 0 <= 1 - rim / 100 <= 1) by (rewrite Hd; lra).
    rewrite (clip_id _ _ _ Hr). reflexivity.
Qed.

Lemma risk_factor_at_least_15_percent_witness :
  exists rows rims risks l',
    analyze offline "me@example.org" 2025 (fun x => x) [stub_cited_12] []
    = (Ok (Some (rows, rims, risks)), l')
    /\ Forall (fun risk => 15 # 100 <= risk <= 1) risks.
Proof.
  assert (Hmono : forall x y : Q, -1 < x -> x <= y -> x <= y) by (intros; assumption).
  assert (Hpos : forall x : Q, 0 < x -> 0 < x) by (intros; assumption).
  destruct (analyze offline "me@example.org" 2025 (fun x => x) [stub_cited_12] [])
    as [[[[[rows rims] risks]|]|] l'] eqn:E;
    [|vm_compute in E; discriminate E | vm_compute in E; discriminate E].
  exists rows, rims, risks, l'. split; [reflexivity|].
  exact (proj1 (risk_factor_at_least_15_percent (fun x => x) Hmono Hpos
                  _ _ _ _ _ _ _ _ _ E)).
Defined.



Lemma round_half_even_near (x : Q) :
  (Qfloor x <= round_half_even x <= Qfloor x + 1)%Z.
Proof.
  unfold round_half_even.
  destruct (Qcompare _ _); [destruct (Z.even _)| |]; lia.
Qed.

Lemma round_half_even_mono (x y : Q) :
  x <= y -> (round_half_even x <= round_half_even y)%Z.
Proof.
  intros Hxy.
  pose proof (Qfloor_resp_le _ _ Hxy) as Hf.
  destruct (Z.eq_dec (Qfloor x) (Qfloor y)) as [E|NE].
  - unfold round_half_even. rewrite <- E.
    destruct (Qcompare_spec (x - inject_Z (Qfloor x)) (1 # 2)) as [Cx|Cx|Cx];
      destruct (Qcompare_spec (y - inject_Z (Qfloor x)) (1 # 2)) as [Cy|Cy|Cy];
      try (destruct (Z.even (Qfloor x))); try lia;
      exfalso; lra.
  - pose proof (round_half_even_near x). pose proof (round_half_even_near y).
    lia.
Qed.

Lemma py_round_mono (x y : Q) (nd : nat) :
  x <= y -> py_round x nd <= py_round y nd.
Proof.
  intros Hxy. unfold py_round. pose proof (pow10_pos nd) as Hs.
  set (s := inject_Z (10 ^ Z.of_nat nd)) in *.
  assert (Hm : (round_half_even (x * s) <= round_half_even (y * s))%Z)
    by (apply round_half_even_mono; nra).
  rewrite Zle_Qle in Hm.
  apply Qle_shift_div_l; [exact Hs|].
  assert (E : inject_Z (round_half_even (x * s)) / s * s
              == inject_Z (round_half_even (x * s))) by (field; lra).
  rewrite E. exact Hm.
Qed.

(** X21: the RIM never decreases when the citation rate or any of the
    sub-scores J, D, R, F, O, P increases, the batch maximum being the
    same. *)
Theorem rim_monotone (log1p : Q -> Q)
    (log1p_mono : forall x y, -1 < x -> x <= y -> log1p x <= log1p y)
    (log1p_pos : forall x, 0 < x -> 0 < log1p x)
    (cpy cpy' max_cpy J D R F O P J' D' R' F' O' P' rim rim' : Q) :
  cpy <= cpy' ->
  J <= J' -> D <= D' -> R <= R' -> F <= F' -> O <= O' -> P <= P' ->
  compute_rim_with_logC log1p cpy max_cpy J D R F O P = Ok rim ->
  compute_rim_with_logC log1p cpy' max_cpy J' D' R' F' O' P' = Ok rim' ->
  rim <= rim'.
Proof.
  intros Hc HJ HD HR HF HO HP H H'.
  unfold compute_rim_with_logC in H, H'.
  apply rbind_Ok in H. destruct H as [C [EC H]].
  apply rbind_Ok in H'. destruct H' as [C' [EC' H']].
  inversion H; inversion H'; subst.
  assert (HC : C <= C').
  { unfold logC in EC, EC'.
    destruct (negb (Qeq_bool max_cpy 0) && Qlt_bool 0 max_cpy) eqn:E.
    - apply andb_true_iff in E. destruct E as [_ Hpos].
      apply Qlt_bool_iff in Hpos.
      apply rbind_Ok in EC. destruct EC as [a [Ea EC]].
      apply rbind_Ok in EC. destruct EC as [b [Eb EC]].
      apply rbind_Ok in EC'. destruct EC' as [a' [Ea' EC']].
      apply rbind_Ok in EC'. destruct EC' as [b' [Eb' EC']].
      apply math_log1p_Ok in Ea, Eb, Ea', Eb'.
      destruct Ea as [Hdom ->], Eb as [_ ->], Ea' as [_ ->], Eb' as [_ ->].
      unfold py_div in EC, EC'.
      destruct (Qeq_bool (log1p max_cpy) 0); [discriminate|].
      inversion EC; inversion EC'; subst.
      pose proof (log1p_pos _ Hpos) as Hp.
      pose proof (log1p_mono _ _ Hdom Hc) as Hm.
      apply Qle_shift_div_l; [exact Hp|].
      assert (E : log1p cpy / log1p max_cpy * log1p max_cpy == log1p cpy)
        by (field; lra).
      rewrite E. exact Hm.
    - inversion EC; inversion EC'; subst. lra. }
  apply py_round_mono. unfold weighted_sum, weights. lra.
Qed.

Lemma rim_monotone_witness :
  exists rim rim',
    compute_rim_with_logC (fun x => x) 5 20 (1 # 2) 0 1 1 1 0 = Ok rim
    /\ compute_rim_with_logC (fun x => x) 5 20 (1 # 2) 1 1 1 1 0 = Ok rim'
    /\ rim <= rim'.
Proof.
  assert (Hmono : forall x y : Q, -1 < x -> x <= y -> x <= y) by (intros; assumption).
  assert (Hpos : forall x : Q, 0 < x -> 0 < x) by (intros; assumption).
  do 2 eexists. split; [reflexivity|]. split; [reflexivity|].
  apply (rim_monotone (fun x => x) Hmono Hpos 5 5 20 (1 # 2) 0 1 1 1 0
           (1 # 2) 1 1 1 1 0);
    try reflexivity; vm_compute; discriminate.
Defined.

(* ------------------------------------------------------------------ *)
(** * The score as the scoring contract writes it *)

(** Rounding to an integer moves a number by at most one half. *)
Lemma round_half_even_dist (y : Q) :
  y - (1 # 2) <= inject_Z (round_half_even y) <= y + (1 # 2).
Proof.
  unfold round_half_even.
  pose proof (Qfloor_le y) as Hlo. pose proof (Qlt_floor y) as Hhi.
  rewrite inject_Z_plus in Hhi. change (inject_Z 1) with 1 in Hhi.
  destruct (Qcompare_spec (y - inject_Z (Qfloor y)) (1 # 2)) as [E|L|G].
  - destruct (Z.even (Qfloor y)).
    + lra.
    + rewrite inject_Z_plus. change (inject_Z 1) with 1. lra.
  - lra.
  - rewrite inject_Z_plus. change (inject_Z 1) with 1. lra.
Qed.

Lemma py_round_rounded (x : Q) (nd : nat) : rounded_to nd x (py_round x nd).
Proof.
  unfold rounded_to, py_round. pose proof (pow10_pos nd) as Hs.
  set (s := inject_Z (10 ^ Z.of_nat nd)) in *.
  pose proof (round_half_even_dist (x * s)) as [Hlo Hhi].
  set (k := inject_Z (round_half_even (x * s))) in *.
  split; [exists (round_half_even (x * s)); reflexivity|].
  split.
  - apply Qle_shift_div_l; [exact Hs|].
    assert (E : (x - (1 # 2) / s) * s == x * s - (1 # 2)) by (field; lra).
    rewrite E. exact Hlo.
  - apply Qle_shift_div_r; [exact Hs|].
    assert (E : (x + (1 # 2) / s) * s == x * s + (1 # 2)) by (field; lra).
    rewrite E. exact Hhi.
Qed.

Lemma rounded_to_comp (nd : nat) (x x' r : Q) :
  x == x' -> rounded_to nd x r -> rounded_to nd x' r.
Proof.
  intros E [Hk [Hlo Hhi]]. unfold rounded_to.
  set (h := (1 # 2) / inject_Z (10 ^ Z.of_nat nd)) in *.
  split; [exact Hk|]. split; lra.
Qed.

(** The weights of the code are those of the contract. *)
Lemma weighted_sum_contract (C J D R F O P : Q) :
  weighted_sum C J D R F O P * 100 == contract_score C J D R F O P.
Proof. unfold weighted_sum, weights, contract_score. ring. Qed.

Lemma compute_rim_contract (log1p : Q -> Q) (cpy max_cpy J D R F O P C rim : Q) :
  logC log1p cpy max_cpy = Ok C ->
  compute_rim_with_logC log1p cpy max_cpy J D R F O P = Ok rim ->
  rounded_to 2 (contract_score C J D R F O P) rim.
Proof.
  intros HC H. rewrite (compute_rim_unfold _ _ _ _ _ _ _ _ _ _ HC) in H.
  inversion H.
  apply (rounded_to_comp 2 (weighted_sum C J D R F O P * 100));
    [apply weighted_sum_contract | apply py_round_rounded].
Qed.

Lemma mapM_Forall2 {A B} (f : A -> res B) (P : A -> B -> Prop) (l : list A) :
  (forall a b, In a l -> f a = Ok b -> P a b) ->
  forall bs, mapM f l = Ok bs -> Forall2 P l bs.
Proof.
  induction l as [|a l IH]; intros H bs; simpl.
  - intros E. inversion E. constructor.
  - destruct (f a) as [b|] eqn:Hb; simpl; [|discriminate].
    destruct (mapM f l) as [bs'|] eqn:Hbs; simpl; [|discriminate].
    intros E. inversion E; subst. constructor.
    + apply (H a b); [now left | exact Hb].
    + apply IH; [|reflexivity]. intros a' b' Ha'. apply H. now right.
Qed.

Lemma row_rim_contract (log1p : Q -> Q) (max_cpy : Q) (r : row) (rim : Q) :
  (forall C, logC log1p (CPY r) max_cpy = Ok C -> 0 <= C <= 1) ->
  0 <= Author_affil_completeness r <= 1 ->
  row_rim log1p max_cpy r = Ok rim ->
  contract_rim_of_row log1p max_cpy r rim /\ 0 <= rim <= 100.
Proof.
  intros HC HO H.
  destruct (row_rim_value _ _ _ _ H) as [C [EC Hrim]].
  split.
  - exists C. split; [exact EC|].
    apply (compute_rim_contract log1p (CPY r) max_cpy); [exact EC | exact H].
  - subst rim. apply (py_round_between 0 100).
    apply weighted_sum_bounds; auto.
    + lra.
    + apply float_of_bool_bounds.
    + destruct (Is_Retracted r); lra.
    + apply float_of_bool_bounds.
    + lra.
Qed.

(** C1: the weights sum to one; with every sub-score in [0,1],
    [compute_rim_with_logC] returns 100 times the weighted sum of the
    sub-scores, with the weights 0.25, 0.20, 0.15, 0.20, 0.10, 0.05 and
    0.05, rounded to two decimals, and the value lies in [0,100].  In a
    batch, and in every analysis, each row gets one score, computed in
    this way from its own sub-scores, and it lies in [0,100] as long as
    the citation component does in [0,1]. *)
Theorem rim_within_0_100 :
  weights sC + weights sJ + weights sD + weights sR
  + weights sF + weights sO + weights sP == 1
  /\ (forall (log1p : Q -> Q) (cpy max_cpy J D R F O P C : Q),
        logC log1p cpy max_cpy = Ok C ->
        0 <= C <= 1 -> 0 <= J <= 1 -> 0 <= D <= 1 -> 0 <= R <= 1 ->
        0 <= F <= 1 -> 0 <= O <= 1 -> 0 <= P <= 1 ->
        exists rim,
          compute_rim_with_logC log1p cpy max_cpy J D R F O P = Ok rim
          /\ rounded_to 2
               (100 * ((25 # 100) * C + (20 # 100) * J + (15 # 100) * D
                       + (20 # 100) * R + (10 # 100) * F + (5 # 100) * O
                       + (5 # 100) * P))
               rim
          /\ 0 <= rim <= 100)
  /\ (forall (log1p : Q -> Q) (rows : list row),
        (forall r, In r rows ->
           exists C, logC log1p (CPY r) (series_max (map CPY rows)) = Ok C
                     /\ 0 <= C <= 1) ->
        (forall r, In r rows -> 0 <= Author_affil_completeness r <= 1) ->
        exists rims,
          rim_column log1p rows = Ok rims
          /\ Forall2 (fun r rim =>
                        contract_rim_of_row log1p (series_max (map CPY rows)) r rim
                        /\ 0 <= rim <= 100)
               rows rims)
  /\ (forall w email CURRENT_YEAR (log1p : Q -> Q) articles l rows rims risks l',
        analyze w email CURRENT_YEAR log1p articles l
        = (Ok (Some (rows, rims, risks)), l') ->
        (forall r C, In r rows ->
           logC log1p (CPY r) (series_max (map CPY rows)) = Ok C ->
           0 <= C <= 1) ->
        Forall2 (fun r rim =>
                   contract_rim_of_row log1p (series_max (map CPY rows)) r rim
                   /\ 0 <= rim <= 100)
          rows rims).
Proof.
  split; [exact weights_sum|]. split; [|split].
  - intros log1p cpy max_cpy J D R F O P C HC bC bJ bD bR bF bO bP.
    eexists. split; [apply compute_rim_unfold; exact HC|]. split.
    + apply (compute_rim_contract log1p cpy max_cpy); [exact HC|].
      apply compute_rim_unfold; exact HC.
    + apply (py_round_between 0 100). now apply weighted_sum_bounds.
  - intros log1p rows HC HO.
    destruct (mapM_Forall (row_rim log1p (series_max (map CPY rows)))
                (fun _ => True) rows) as [rims [E _]].
    + intros r Hr. destruct (HC r Hr) as [C [EC _]].
      eexists. split; [apply compute_rim_unfold; exact EC | exact I].
    + exists rims. split; [exact E|].
      apply (mapM_Forall2 (row_rim log1p (series_max (map CPY rows))) _ rows);
        [|exact E].
      intros r rim Hr Hrim. apply row_rim_contract; [| now apply HO | exact Hrim].
      intros C EC. destruct (HC r Hr) as [C' [EC' bC]].
      rewrite EC in EC'. inversion EC'; subst. exact bC.
  - intros w email CY log1p arts l rows rims risks l' H HC.
    unfold analyze in H. cbv zeta in H.
    destruct (firstn 10 arts) as [|a arts'];
      [apply mret_Ok in H; destruct H; discriminate|].
    repeat run_step. run_done.
    match goal with
    | Heq : Some (rows, rims, risks) = Some _ |- _ => inversion Heq; subst
    end.
    match goal with
    | Hb : build_rows _ _ _ _ _ = (Ok ?rs, _),
      Hr : rim_column _ ?rs = Ok ?rm |- _ =>
        apply build_rows_completeness in Hb; rewrite Forall_forall in Hb;
        unfold rim_column in Hr;
        apply (mapM_Forall2 (row_rim log1p (series_max (map CPY rs))) _ rs);
        [|exact Hr];
        intros r rim Hin Hrim; apply row_rim_contract;
        [ intros C; now apply HC | now apply Hb | exact Hrim ]
    end.
Qed.

Lemma rim_within_0_100_witness :
  (exists rim,
     compute_rim_with_logC (fun x => x) 5 20 (1 # 2) 1 0 1 1 0 = Ok rim
     /\ rounded_to 2
          (100 * ((25 # 100) * (5 / 20) + (20 # 100) * (1 # 2) + (15 # 100) * 1
                  + (20 # 100) * 0 + (10 # 100) * 1 + (5 # 100) * 1
                  + (5 # 100) * 0))
          rim
     /\ 0 <= rim <= 100)
  /\ (exists rims,
        rim_column (fun x => x)
          [sample_row 0 true true false 1; sample_row 20 false false true (1 # 2)]
        = Ok rims
        /\ Forall2 (fun r rim =>
                      contract_rim_of_row (fun x => x)
                        (series_max
                           (map CPY [sample_row 0 true true false 1;
                                     sample_row 20 false false true (1 # 2)]))
                        r rim
                      /\ 0 <= rim <= 100)
             [sample_row 0 true true false 1; sample_row 20 false false true (1 # 2)]
             rims)
  /\ (exists rows rims risks l',
        analyze offline "me@example.org" 2025 (fun x => x) [stub_cited_12] []
        = (Ok (Some (rows, rims, risks)), l')
        /\ Forall2 (fun r rim =>
                      contract_rim_of_row (fun x => x)
                        (series_max (map CPY rows)) r rim
                      /\ 0 <= rim <= 100)
             rows rims).
Proof.
  destruct rim_within_0_100 as [_ [Hf [Hb Ha]]]. split; [|split].
  - apply (Hf (fun x => x) 5 20 (1 # 2) 1 0 1 1 0 (5 / 20));
      [reflexivity | split; vm_compute; discriminate ..].
  - apply Hb.
    + intros r [<- | [<- | []]]; vm_compute;
        (eexists; split; [reflexivity | split; discriminate]).
    + intros r [<- | [<- | []]]; simpl; split; vm_compute; discriminate.
  - do 4 eexists. split; [vm_compute; reflexivity|].
    eapply (Ha offline "me@example.org" 2025%Z (fun x => x) [stub_cited_12] []).
    + vm_compute. reflexivity.
    + intros r C [<- | []] H. vm_compute in H. inversion H.
      split; vm_compute; discriminate.
Defined.

(* ------------------------------------------------------------------ *)
(** * Further properties: a stub whose "publication" entry is a text *)

Lemma year_of_text_publication (cr art y : pyval) (s : string) :
  year_of cr art = Ok y ->
  py_get art "publication" (PDict []) = Ok (PStr s) ->
  truthy y = true.
Proof.
  unfold year_of. intros H Hp.
  destruct (truthy (registry_year cr)) eqn:Tr; simpl in H.
  - inversion H; subst. exact Tr.
  - unfold stub_year in H. apply rbind_Ok in H. destruct H as [y0 [_ H]].
    destruct (truthy y0) eqn:Ty.
    + inversion H; subst. exact Ty.
    + rewrite Hp in H. discriminate H.
Qed.

Lemma registry_record_empty (w : world) (art cr : pyval) (l la : list request) :
  (forall d l0, fst (fetch_crossref_by_doi w d l0) = Ok (PDict [])) ->
  (forall t l0, fst (fetch_crossref_by_title w t l0) = Ok (PDict [])) ->
  registry_record w art l = (Ok cr, la) -> cr = PDict [].
Proof.
  intros Hdoi Htitle H. unfold registry_record in H. repeat run_step.
  match goal with
  | R2 : (if truthy ?doi then fetch_crossref_by_doi w ?doi else _) ?l0
         = (Ok ?cra, ?l1),
    R3 : (if negb (truthy ?cra) then fetch_crossref_by_title w ?ts else _) ?l1
         = (Ok cr, _) |- _ =>
      assert (Ecra : cra = PDict []);
      [ destruct (truthy doi);
        [ pose proof (Hdoi doi l0) as Hd; rewrite R2 in Hd; now inversion Hd
        | apply mret_Ok in R2; now destruct R2 ]
      | subst cra; simpl in R3;
        pose proof (Htitle ts l1) as Ht; rewrite R3 in Ht; now inversion Ht ]
  end.
Qed.

(** X22: for a stub whose "publication" entry is a text, a row is only
    produced with a year and with the venue that the registry record of
    the run lists first; when the registry gives no record the processing
    raises. *)
Theorem text_publication_needs_registry_venue w email CY art l s :
  py_get art "publication" (PDict []) = Ok (PStr s) ->
  (forall row l',
     process_article w email CY art l = (Ok row, l') ->
     Year row <> None
     /\ exists cr la c,
          registry_record w art l = (Ok cr, la)
          /\ py_get cr "container-title" PNone = Ok c
          /\ truthy c = true /\ py_item0 c = Ok (Journal row))
  /\ ((forall d l0, fst (fetch_crossref_by_doi w d l0) = Ok (PDict [])) ->
      (forall t l0, fst (fetch_crossref_by_title w t l0) = Ok (PDict [])) ->
      fst (process_article w email CY art l) = Raise).
Proof.
  intros Hp. split.
  - intros row l' H.
    destruct (process_article_registry _ _ _ _ _ _ _ H)
      as [cr [la [y [Hr [Hj [Hy Hry]]]]]].
    split.
    + pose proof (year_of_text_publication _ _ _ _ Hy Hp) as Ty.
      unfold row_year in Hry. rewrite Ty in Hry.
      destruct (py_int y); [|discriminate Hry].
      inversion Hry. discriminate.
    + destruct (journal_of_text_publication _ _ _ _ Hj Hp) as [c Hc].
      now exists cr, la, c.
  - intros Hdoi Htitle.
    destruct (process_article w email CY art l) as [[row|] l'] eqn:E;
      [|reflexivity].
    exfalso.
    destruct (process_article_registry _ _ _ _ _ _ _ E)
      as [cr [la [y [Hr [Hj _]]]]].
    pose proof (registry_record_empty w art cr l la Hdoi Htitle Hr) as Ecr.
    subst cr.
    destruct (journal_of_text_publication _ _ _ _ Hj Hp) as [c [Hc [Tc _]]].
    inversion Hc; subst c. discriminate Tc.
Qed.

Lemma text_publication_needs_registry_venue_witness :
  (exists row l',
     process_article registry_venue "me@example.org" 2025 stub_text_venue []
     = (Ok row, l')
     /\ Year row <> None
     /\ exists cr la c,
          registry_record registry_venue stub_text_venue [] = (Ok cr, la)
          /\ py_get cr "container-title" PNone = Ok c
          /\ truthy c = true /\ py_item0 c = Ok (Journal row))
  /\ fst (process_article offline "me@example.org" 2025
            (PDict [("title", PStr "T"); ("publication", PStr "Nature, 2015");
                    ("year", PStr "2015")]) [])
     = Raise.
Proof.
  split.
  - destruct (process_article registry_venue "me@example.org" 2025
                stub_text_venue []) as [[row|] l'] eqn:E;
      [|vm_compute in E; discriminate E].
    exists row, l'. split; [reflexivity|].
    apply (proj1 (text_publication_needs_registry_venue registry_venue
                    "me@example.org" 2025 stub_text_venue []
                    "Journal of Things 12 (3), 2019" eq_refl) row l' E).
  - apply (proj2 (text_publication_needs_registry_venue offline "me@example.org"
                    2025
                    (PDict [("title", PStr "T");
                            ("publication", PStr "Nature, 2015");
                            ("year", PStr "2015")])
                    [] "Nature, 2015" eq_refl)).
    + intros d l0. destruct d; reflexivity.
    + intros t l0. reflexivity.
Defined.
